(* ===== verification/_CoqProject ===== *)
-Q . S2P
Prelude.v
Logging.v
PyStr.v
Lifecycle.v
Evaluations.v
Registry.v
Consensus.v
World.v
Dispatcher.v
Scoring.v
MinerWorld.v
Codegen.v
CiRegression.v
MinerApp.v
