(* ===== verification/Prelude.v ===== *)
(** * A verification development of the validator coordinator and the miner

    The repository (ridgesai/refactor) has two programs.  The platform API
    ([src/api]) coordinates validators: it hands each validator its next
    evaluation over a websocket, lets an administrator ban agents, approve
    versions and re-evaluate approved ones, and periodically tells every
    connected validator which agent version should receive the weights.
    The miner ([src/miner]) answers coding challenges with a patch.  The
    spec ([spec.md]) describes the platform's core as five components:
    the AgentStateMachine, the ConnectionRegistry, the
    EvaluationDispatcher, the ConsensusEngine and the WeightBroadcastLoop.
    Only the request handlers are in the sources; the state machine, the
    websocket manager and the persistence queries they call are not, so
    those are modelled from the spec's words (marked spec_modelled in the
    manifest) and the handlers are modelled line by line from the code.

    ** Files, in dependency order
    - [Prelude] (this file): the Python effects shared by every model.
      [exn] are the exceptions the code raises or catches ([HTTPException]
      with status and detail, [KeyError], [Exception]) and [exn_str] is
      Python's [str(e)]; [py S A] is a state and exception monad (stdpp's
      [MBind], written [x ← c; k]) in which a raise keeps the side effects
      performed before it, as Python does; [py_try] is [try/except];
      [json] are the JSON values of the websocket and HTTP bodies, objects
      as association lists in insertion order, [py_getitem] is [d[k]]
      (raising [KeyError]) and [truthy] is Python truthiness; [py_for] is
      a [for] loop.
    - [Logging] (src/api/src/utils/logging_utils.py): the part of Python's
      [logging] module the file touches, as a state: loggers by name (the
      root under ["root"]) with level, [propagate], filters and handlers;
      handler and filter objects by identity, so that [addFilter] and
      [addHandler] skip only an object already attached; the records each
      handler emitted.  [module_init] is the import-time code (lines
      12-22: [basicConfig], every root [StreamHandler] to [INFO], the
      module logger), [get_logger] is lines 24-34 and [run_filters] runs
      [TimestampFilter.filter]; [logger_log] is [isEnabledFor], the
      logger's filters and [callHandlers] along the dotted hierarchy.
      [setup_process_logging] is the class [ProcessLogging]: it only
      attaches existing filters that keep records.  Theorems: import
      leaves the console at [INFO] under a [DEBUG] root; [get_logger]
      keeps object identities fresh; after [n] calls of [get_logger] on a
      name a record reaches [n] Datadog handlers (the function is not
      idempotent) and the console only from [INFO].
    - [PyStr]: the Python [str] methods and printers the code relies on,
      on strings of code points below 256: [isspace], [lstrip], [rstrip],
      [strip], [startswith], [repr] of strings and values, [str] inside an
      f-string, [json.dumps(v, indent=2)] and [v.get(k)] (an
      [AttributeError] on a non-dict).  Lemmas: [rstrip] is idempotent,
      ignores appended whitespace, leaves no trailing whitespace and
      returns a prefix of its argument; [strip] of a normalised text is
      [strip] of the text; a prefix without trailing whitespace survives
      [rstrip]; [String.concat] of a concatenation.
    - [Lifecycle] (spec 4.2, spec_modelled): the agent versions as a
      [gmap] from version id to [agent_version]; the transition table as
      the inductive [edge] and its boolean [edgeb]; [transition],
      [ban_agent], [approve_version], [re_evaluate_approved_agents] and
      [create_version], each total with the [NotFound]/[InvalidTransition]
      errors; the machine as the labelled step relation [lstep] with
      [reachable].  Theorems: one step changes a version only along a
      table edge or to [banned] by its owner's ban ([lstep_allowed_change]);
      well-formedness is invariant; [banned] is absorbing; runs are walks
      on the table; ban, re-evaluation (and its idempotence) and approval
      on every branch.
    - [Evaluations] (spec 4.3 and 5, spec_modelled): pending evaluations in
      creation order; [get_next_evaluation_for_validator] takes the oldest
      pending one and assigns it in one atomic step (the compare-and-swap);
      concurrent requests are interleavings of such steps ([dispatch_run]),
      and no interleaving hands an evaluation out twice.
    - [Registry] (spec 4.1, spec_modelled): hotkey to channel id, and the
      channels in their own store (a reconnection closes the channel the
      old handler still holds).  [send_on] is a send on one connection
      object, whatever hotkey it belongs to.  [register], [deregister],
      [send_to], [send_on], [broadcast] preserve the invariant that a hotkey has at most one live
      channel; [broadcast_spec]: each live registered channel receives the
      message once, failures are isolated and reported once each.
    - [Consensus] (spec 4.4, spec_modelled; the algorithm of the docstring
      of [weight_receiving_agent]): scores are rationals [Q], so the 3%
      band is exact.  [top_agent] is one definition per step; the
      relational [top_agent_spec] is its specification and
      [top_agent_refines] proves the function implements it for
      nonnegative scores; the two examples of spec section 8 are computed.
    - [World]: the state of the API process (versions, evaluations, scores,
      registry, environment, an upstream-failure flag, log, clock) and the
      calls its handlers make; every persistence call raises when the flag
      is set.  The selection policy is the typeclass [TopAgentPolicy]
      (spec 9 asks for a narrow interface); [three_percent_policy] is the
      instance built from [Consensus.top_agent].
    - [Dispatcher] (src/api/src/socket/handlers/handle_get_next_evaluation.py):
      [handle_get_next_evaluation], line by line, the f-string arguments
      of its log calls included; its [websocket] argument is a channel of
      the registry and line 38 sends on it; [logger] is the module's
      logger of line 10, [get_logger] of the [Logging] model.  Theorems:
      dispatch of the oldest pending evaluation with its payload ([null]
      when the version is missing); exclusive assignment over any interleaving of requests;
      upstream and send failures (the assignment is not rolled back); the
      handler never raises and answers an object; and the defect
      [handle_no_pending_is_error].
    - [Scoring] (src/api/src/endpoints/scoring.py): [ban_agent],
      [approve_version], [re_eval_approved], [weight_receiving_agent],
      [tell_validators_to_set_weights], [run_weight_setting_loop],
      [trigger_weight_set]; [routes] holds the endpoint functions (with
      FastAPI's binding of their query parameters) and [router] is the
      [add_api_route] loop; [serve] runs a route's dependencies, then
      binds the endpoint's parameters (422 when one is missing), then the
      endpoint, in the order of FastAPI's [solve_dependencies];
      [http_response] is what FastAPI returns.  Theorems:
      authentication, the admin endpoints on every branch, the lifecycle
      walk through any sequence of admin requests, every route behind
      [verify_request] (a malformed request included), the 422 of a
      missing parameter, a banned miner never selected again whatever requests follow, the
      weight tick (proved against the policy interface), the loop over [n]
      iterations, and the loop's death on an upstream failure.
    - [MinerWorld]: the state of the miner process (environment, current
      directory, a file system of directories, git working trees and
      files, the miner lock, the random draws, log and standard output)
      and its collaborators, which are not code of the repository: clone,
      [git apply], [git diff], the chat completion, the [sweagent]
      program, [uuid4] and [tempfile] are the function fields of a
      [services] record carried by the world, so every theorem holds for
      any behaviour of them.  [os.path.join], [basename], [relpath],
      [os.makedirs], [shutil.rmtree], [shutil.copytree] and [os.listdir]
      are written out; lemmas say which paths [rmtree] and [copytree]
      leave alone, and that [os.path.join(start, os.path.relpath(p,
      start))] is [p] for normalised [p] below [start].
    - [Codegen] (src/miner/endpoints/codegen.py, src/miner/utils/llm.py):
      [process_challenge] line by line (the prompt text, the log lines,
      the 400/500 guards, [rstrip() + "\n"], the [strip().startswith]
      validation, the two [except] clauses, the [finally]) under the
      miner lock.  A second model runs many requests as tasks ([task_step])
      that announce themselves, wait for the free lock, and run the rest
      of the locked region in one step (its only suspension point,
      [await request.json()], comes first).  Theorems: the outcome on
      every path (success, incomplete problem, missing key, non-diff
      completion, [git apply] failure); every escaping exception is an
      [HTTPException]; the lock is released on every path; mutual
      exclusion over every interleaving ([lock_inv] by induction on
      schedules); completion of all requests under the greedy scheduler
      (termination: a rank that every step decreases, plus absence of
      deadlock).
    - [CiRegression] (src/miner/endpoints/ci_regression.py):
      [process_ci_regression_challenge] line by line (prints, clone, copy
      under [repos/], clean-up of [/<repo_name>], the configuration, the
      agent run with its [except] clauses, the diff).  Theorems: the answer
      is the diff of the untouched clone whatever the agent did (the agent
      works on the copy); the configuration names the copy (a round trip
      of [relpath] and [join]); a failing agent run is reported wrapped twice;
      the timeout and start-failure messages.  The symbolic run splits on
      each test in program order ([ci_step]) and closes each branch with
      the frame lemmas of [MinerWorld].
    - [MinerApp] (src/miner/main.py): the routers under their prefixes,
      route resolution and dispatch to the two handlers (the two
      challenge paths resolve to their handlers, and the routes are
      distinct).

    ** Bounds and fuel
    The [while True] of [run_weight_setting_loop] never returns; it is
    modelled with fuel [n], the number of iterations observed, and
    [weight_loop_spec] holds for every [n] (each iteration completes and
    broadcasts), so no bound is assumed.  The greedy scheduler of
    [Codegen] runs with fuel [3 * n] for [n] requests, which is exact: each
    request takes three steps (announce, acquire, run and release), and
    [codegen_tasks_complete] proves every request done within it.  All
    other functions are structurally recursive, the walk up the logger
    hierarchy included (its fuel, the length of the name, is exact: each
    step goes to a strictly shorter prefix).  Timestamps and clock are
    [Z]; scores are [Q]; logging levels are the integers of [logging].

    ** What is not modelled, and why
    - The handlers' log calls are appends to the world's log; the
      [Logging] model is not threaded through the handlers (the loggers of
      [scoring.py] and of the miner come from packages outside the
      sources; the handler's logger is created by [Dispatcher.logger], and
      what its records reach is the subject of [get_logger_delivery]).  What the Datadog handler and [setup_process_logging] do
      beyond the laws above is not modelled; the last-resort handler of a
      chain without handler is not modelled (every chain here ends at a
      configured root).
    - The websocket transport and authentication ([verify_request], a
      parameter of [serve]): external; [send_text] fails exactly when the
      connection it is given is closed.
    - The miner's collaborators outside the repository
      ([miner.utils.git_ops], [miner.utils.patch], [miner.dependancies],
      the availability router, the OpenAI client, SWE-agent): oracles of
      [MinerWorld.services]; YAML is kept as the JSON value dumped.
      The pydantic validation of the miner's request bodies (HTTP 422) is
      not modelled; the 422 of a missing query parameter of the scoring
      router is.
    - Python's [repr] of floats is modelled in positional notation, the
      form Python prints for magnitudes in [1e-4, 1e16); the only float of
      the code is the literal [3.00] of the SWE-agent configuration.
    - Concurrency is modelled by interleavings of atomic steps (each
      handler's persistence query is one step; each miner request's steps
      are those of [task_step]); the spec's per-version locks are what
      makes the state machine's operations atomic.  Interleavings of a
      code-generation request with a CI-regression request (which takes no
      lock, and may clone to the same path) are not modelled. *)

From stdpp Require Export base gmap strings list pretty.
From Stdlib Require Export ZArith.

Declare Scope py_scope.
Delimit Scope py_scope with py.
Open Scope string_scope.

(** ** Errors of the coordination core (spec section 7) *)

Inductive core_error :=
| NotFound
| InvalidTransition
| NotConnected
| UpstreamFailure.

#[export] Instance core_error_eq_dec : EqDecision core_error.
Proof. solve_decision. Defined.

(** ** Python exceptions *)

Inductive exn :=
| HTTPException (status_code : Z) (detail : string)
| KeyError (key : string)
| TimeoutExpired
| Exception (msg : string).

#[export] Instance exn_eq_dec : EqDecision exn.
Proof. solve_decision. Defined.

(** [str(e)]: Starlette's [HTTPException.__str__] is
    ["<status_code>: <detail>"]; a [KeyError] prints the repr of its key. *)
Definition exn_str (e : exn) : string :=
  match e with
  | HTTPException code detail => pretty code +:+ ": " +:+ detail
  | KeyError k => "'" +:+ k +:+ "'"
  | TimeoutExpired => "TimeoutExpired"
  | Exception msg => msg
  end.

Definition is_http_exception (e : exn) : bool :=
  match e with HTTPException _ _ => true | _ => false end.

(** ** The state and exception monad *)

Inductive outcome (A : Type) :=
| Ret (a : A)
| Raise (e : exn).
Arguments Ret {A} a.
Arguments Raise {A} e.

Definition py (S A : Type) : Type := S -> outcome A * S.

Definition py_ret {S A} (a : A) : py S A := fun s => (Ret a, s).

Definition py_bind {S A B} (c : py S A) (k : A -> py S B) : py S B :=
  fun s =>
    match c s with
    | (Ret a, s') => k a s'
    | (Raise e, s') => (Raise e, s')
    end.

#[export] Instance py_mret S : MRet (py S) := fun A a => py_ret a.
#[export] Instance py_mbind S : MBind (py S) := fun A B k c => py_bind c k.

Definition py_raise {S A} (e : exn) : py S A := fun s => (Raise e, s).
Definition py_get {S} : py S S := fun s => (Ret s, s).
Definition py_put {S} (s : S) : py S unit := fun _ => (Ret tt, s).
Definition py_modify {S} (f : S -> S) : py S unit := fun s => (Ret tt, f s).

(** [try: c except e: h e]: the handler sees the state reached at the
    raise. *)
Definition py_try {S A} (c : py S A) (h : exn -> py S A) : py S A :=
  fun s =>
    match c s with
    | (Ret a, s') => (Ret a, s')
    | (Raise e, s') => h e s'
    end.

(** [try: c finally: f]: [f] runs on both paths, then the outcome of [c]
    is propagated (an exception raised by [f] replaces it). *)
Definition py_finally {S A} (c : py S A) (f : py S unit) : py S A :=
  fun s =>
    match c s with
    | (r, s') =>
        match f s' with
        | (Ret _, s'') => (r, s'')
        | (Raise e, s'') => (Raise e, s'')
        end
    end.

(** [if b: c] *)
Definition py_when {S} (b : bool) (c : py S unit) : py S unit :=
  if b then c else py_ret tt.

(** [for x in l: f(x)]: the body runs on each element in order; a raise
    ends the loop. *)
Fixpoint py_for {S A} (f : A -> py S unit) (l : list A) : py S unit :=
  match l with
  | [] => py_ret tt
  | x :: l' => py_bind (f x) (fun _ => py_for f l')
  end.

(** Raise [e] when the option is [None]. *)
Definition py_of_option {S A} (e : exn) (o : option A) : py S A :=
  match o with Some a => py_ret a | None => py_raise e end.

Notation "'raise' e" := (py_raise e) (at level 10) : py_scope.

(** ** JSON values *)

Inductive json :=
| JNull
| JBool (b : bool)
| JNum (z : Z)
| JDec (m : Z) (e : nat)  (* the float literal m / 10^e *)
| JStr (s : string)
| JList (l : list json)
| JObj (fields : list (string * json)).

(** [d[k]] on a dict given by its items: the first item with key [k]. *)
Fixpoint dict_get (k : string) (d : list (string * json)) : option json :=
  match d with
  | [] => None
  | (k', v) :: d' => if decide (k = k') then Some v else dict_get k d'
  end.

(** [d[k]] raises [KeyError] on a missing key; [d.get(k)] returns [None]. *)
Definition py_getitem {S} (d : list (string * json)) (k : string) : py S json :=
  py_of_option (KeyError k) (dict_get k d).

Definition py_dict_get (d : list (string * json)) (k : string) : json :=
  default JNull (dict_get k d).

(** Python truthiness of a JSON value ([not x] is [negb (truthy x)]). *)
Definition truthy (v : json) : bool :=
  match v with
  | JNull => false
  | JBool b => b
  | JNum z => negb (Z.eqb z 0)
  | JDec m _ => negb (Z.eqb m 0)
  | JStr s => negb (String.eqb s "")
  | JList l => negb (Nat.eqb (length l) 0)
  | JObj f => negb (Nat.eqb (length f) 0)
  end.

(** ** Log records *)

Inductive level := DEBUG | INFO | ERROR.

#[export] Instance level_eq_dec : EqDecision level.
Proof. solve_decision. Defined.

Definition log_record : Type := level * string.

(** ** Monad laws and running lemmas *)

Create HintDb coord discriminated.
Create Rewrite HintDb py_rw.

Section PyLaws.
Context {S : Type}.

Lemma py_bind_ret_l {A B} (a : A) (k : A -> py S B) :
  py_bind (py_ret a) k = k a.
Proof. reflexivity. Qed.

Lemma py_bind_assoc {A B C} (c : py S A) (f : A -> py S B) (g : B -> py S C) s :
  py_bind (py_bind c f) g s = py_bind c (fun a => py_bind (f a) g) s.
Proof. unfold py_bind. by destruct (c s) as [[a|e] s']. Qed.

Lemma py_run_bind {A B} (c : py S A) (k : A -> py S B) s :
  (c ≫= k) s = match c s with
               | (Ret a, s') => k a s'
               | (Raise e, s') => (Raise e, s')
               end.
Proof. reflexivity. Qed.

Lemma py_run_bind_ret {A B} (c : py S A) (k : A -> py S B) s a s' :
  c s = (Ret a, s') -> (c ≫= k) s = k a s'.
Proof. intros H. by rewrite py_run_bind, H. Qed.

Lemma py_run_bind_raise {A B} (c : py S A) (k : A -> py S B) s e s' :
  c s = (Raise e, s') -> (c ≫= k) s = (Raise e, s').
Proof. intros H. by rewrite py_run_bind, H. Qed.

Lemma py_run_for_cons {A} (f : A -> py S unit) x l s :
  py_for f (x :: l) s = match f x s with
                        | (Ret _, s') => py_for f l s'
                        | (Raise e, s') => (Raise e, s')
                        end.
Proof. reflexivity. Qed.

Lemma py_finally_modify_outcome {A} (c : py S A) g s :
  (py_finally c (py_modify g) s).1 = (c s).1.
Proof. unfold py_finally, py_modify. by destruct (c s). Qed.

Lemma py_run_try_ret {A} (c : py S A) h s a s' :
  c s = (Ret a, s') -> py_try c h s = (Ret a, s').
Proof. intros H. unfold py_try. by rewrite H. Qed.

Lemma py_run_try_raise {A} (c : py S A) h s e s' :
  c s = (Raise e, s') -> py_try c h s = h e s'.
Proof. intros H. unfold py_try. by rewrite H. Qed.
End PyLaws.

#[export] Hint Rewrite @py_run_bind : py_rw.

(** Unfold the monad's plumbing so that a concrete or symbolic run
    reduces to the [match]es of the model. *)
Ltac py_unfold :=
  unfold mbind, mret, py_mbind, py_mret, py_bind, py_ret, py_raise,
    py_get, py_put, py_modify, py_try, py_finally, py_of_option, py_when in *;
  simpl in *.

(** ** Generic list lemmas shared by the components *)

Lemma filter_all {A} (f : A -> bool) (l : list A) : Forall (fun x => f x = true) l -> List.filter f l = l.
Proof. induction 1 as [|x l Hx _ IH]; simpl; [done|]. by rewrite Hx, IH. Qed.

Lemma dict_get_cons_eq k v d : dict_get k ((k, v) :: d) = Some v.
Proof. simpl. by rewrite decide_True. Qed.

Lemma dict_get_cons_ne k k' v d :
  k <> k' -> dict_get k ((k', v) :: d) = dict_get k d.
Proof. intros Hne. simpl. by rewrite decide_False. Qed.

#[export] Hint Rewrite dict_get_cons_eq : py_rw.
