(* ===== verification/Logging.v ===== *)
(** * Logging: [api/src/utils/logging_utils.py] on a model of Python's [logging]

    The module configures the root logger at import time (lines 12-22)
    and offers [get_logger(name)] (lines 24-34), which every call equips
    with a fresh [TimestampFilter] and a fresh [DatadogLogHandler].  The
    state is the part of the [logging] module these lines touch: the
    loggers by name (the root under ["root"]), the handler and filter
    objects by identity, and what the handlers have emitted.  Object
    identity matters: [addFilter] and [addHandler] skip an object already
    attached, and a fresh object never is.  [setup_process_logging]
    (of [api.src.utils.process_tracking], outside this tree) is a class
    whose law is that it installs no handler. *)

From S2P Require Import Prelude.
From Stdlib Require Import Ascii.

Module Logging.

(** ** Levels and objects *)

Definition NOTSET : Z := 0.
Definition DEBUG_ : Z := 10.
Definition INFO_ : Z := 20.
Definition WARNING : Z := 30.
Definition ERROR_ : Z := 40.

(** The levels the handlers of the development log at. *)
Definition levelno (l : level) : Z :=
  match l with DEBUG => DEBUG_ | INFO => INFO_ | ERROR => ERROR_ end.

Inductive handler_class := StreamHandler | DatadogLogHandler.

#[export] Instance handler_class_eq_dec : EqDecision handler_class.
Proof. solve_decision. Defined.

Record handler := Handler {
  h_class : handler_class; h_level : Z; h_formatter : option string }.

(** [TimestampFilter] of lines 6-10, and the filters
    [setup_process_logging] attaches, which keep every record. *)
Inductive filter_class := TimestampFilter | ProcessFilter.

#[export] Instance filter_class_eq_dec : EqDecision filter_class.
Proof. solve_decision. Defined.

(** A record as the handlers see it; [rec_timestamp] is the attribute
    [TimestampFilter] sets. *)
Record log_rec := LogRec {
  rec_name : string; rec_levelno : Z; rec_msg : string; rec_timestamp : option Z }.

Record logger := Logger {
  lg_level : Z; lg_propagate : bool;
  lg_filters : list (nat * filter_class); lg_handlers : list nat }.

Record lstate := LState {
  ls_loggers : gmap string logger;
  ls_handlers : gmap nat handler;
  ls_next : nat;                       (* the next object identity *)
  ls_now : Z;                          (* [datetime.now(timezone.utc)] *)
  ls_out : list (nat * log_rec) }.     (* (handler, record) emitted *)

Definition set_loggers m s := LState m (ls_handlers s) (ls_next s) (ls_now s) (ls_out s).
Definition set_handlers m s := LState (ls_loggers s) m (ls_next s) (ls_now s) (ls_out s).
Definition set_next n s := LState (ls_loggers s) (ls_handlers s) n (ls_now s) (ls_out s).
Definition add_out e s := LState (ls_loggers s) (ls_handlers s) (ls_next s) (ls_now s) (ls_out s ++ [e]).

(** A fresh logging module: the root logger at [WARNING], no handler. *)
Definition initial (now : Z) : lstate :=
  LState {[ "root" := Logger WARNING true [] [] ]} ∅ 0 now [].

(** ** The logger hierarchy *)

(** [name.rfind(".", 0, hi)] *)
Fixpoint rfind_dot (name : string) (hi : nat) : option nat :=
  match hi with
  | O => None
  | S j => if bool_decide (String.get j name = Some "."%char) then Some j else rfind_dot name j
  end.

(** [Manager._fixupParents]: the nearest dotted prefix that is a logger,
    or the root.  The loop of the source runs while [i > 0]; each turn
    searches strictly left of the last dot, so [length name] turns
    suffice ([parent_loop_fuel]). *)
Fixpoint parent_loop (fuel : nat) (ls : gmap string logger) (name : string) (i : option nat)
    : string :=
  match fuel, i with
  | S f, Some j =>
      if bool_decide (0 < j)%nat then
        let substr := String.substring 0 j name in
        match ls !! substr with
        | Some _ => substr
        | None => parent_loop f ls name (rfind_dot name (j - 1))
        end
      else "root"
  | _, _ => "root"
  end.

Definition parent (ls : gmap string logger) (name : string) : string :=
  parent_loop (String.length name) ls name (rfind_dot name (String.length name)).

(** The loggers from [name] up to the root, as [c = c.parent] visits
    them; each parent is a proper prefix, hence the fuel. *)
Fixpoint chain_fuel (fuel : nat) (ls : gmap string logger) (name : string) : list string :=
  match fuel with
  | O => ["root"]
  | S f => if String.eqb name "root" then ["root"] else name :: chain_fuel f ls (parent ls name)
  end.

Definition chain (ls : gmap string logger) (name : string) : list string :=
  chain_fuel (S (String.length name)) ls name.

(** [Logger.getEffectiveLevel()]: the first level set along the chain. *)
Definition effective_level (ls : gmap string logger) (name : string) : Z :=
  default NOTSET (List.find (fun l => bool_decide (l <> NOTSET))
                    (omap (fun k => lg_level <$> ls !! k) (chain ls name))).

(** ** The [logging] calls of the module *)

(** [logging.getLogger(name)]: the root for [""] and ["root"], the
    existing logger, or a new one at [NOTSET] that propagates. *)
Definition getLogger (name : string) : py lstate string :=
  fun s =>
    let k := if String.eqb name "" || String.eqb name "root" then "root" else name in
    match ls_loggers s !! k with
    | Some _ => (Ret k, s)
    | None => (Ret k, set_loggers (<[k := Logger NOTSET true [] []]> (ls_loggers s)) s)
    end.

(** A fresh object identity, as a constructor call gives. *)
Definition new_object : py lstate nat :=
  fun s => (Ret (ls_next s), set_next (S (ls_next s)) s).

Definition modify_logger (k : string) (f : logger -> logger) : py lstate unit :=
  py_modify (fun s => set_loggers (alter f k (ls_loggers s)) s).

(** [Filterer.addFilter]: [if not (filter in self.filters)]. *)
Definition addFilter (k : string) (fid : nat) (fc : filter_class) : py lstate unit :=
  modify_logger k (fun l =>
    if bool_decide (fid ∈ (lg_filters l).*1) then l
    else Logger (lg_level l) (lg_propagate l) (lg_filters l ++ [(fid, fc)]) (lg_handlers l)).

(** [Logger.addHandler]: [if not (hdlr in self.handlers)]. *)
Definition addHandler (k : string) (hid : nat) : py lstate unit :=
  modify_logger k (fun l =>
    if bool_decide (hid ∈ lg_handlers l) then l
    else Logger (lg_level l) (lg_propagate l) (lg_filters l) (lg_handlers l ++ [hid])).

Definition setLevel (k : string) (lvl : Z) : py lstate unit :=
  modify_logger k (fun l => Logger lvl (lg_propagate l) (lg_filters l) (lg_handlers l)).

Definition handler_setLevel (hid : nat) (lvl : Z) : py lstate unit :=
  py_modify (fun s => set_handlers (alter (fun h => Handler (h_class h) lvl (h_formatter h)) hid
                                          (ls_handlers s)) s).

(** A handler constructor: a fresh object at [NOTSET], no formatter. *)
Definition new_handler (c : handler_class) : py lstate nat :=
  hid ← new_object;
  py_modify (fun s => set_handlers (<[hid := Handler c NOTSET None]> (ls_handlers s)) s);;
  mret hid.

Definition root_handlers : py lstate (list nat) :=
  fun s => (Ret (default [] (lg_handlers <$> ls_loggers s !! "root")), s).

(** [logging.basicConfig(level=..., format=...)]: only when the root has
    no handler, a [StreamHandler] with the format is added and the root
    level set; otherwise nothing. *)
Definition basicConfig (level : Z) (format : string) : py lstate unit :=
  hs ← root_handlers;
  match hs with
  | [] =>
      h ← new_handler StreamHandler;
      py_modify (fun s => set_handlers (alter (fun x => Handler (h_class x) (h_level x) (Some format)) h
                                              (ls_handlers s)) s);;
      addHandler "root" h;;
      setLevel "root" level
  | _ :: _ => mret ()
  end.

Definition is_stream_handler (hid : nat) : py lstate bool :=
  fun s => (Ret (bool_decide (h_class <$> ls_handlers s !! hid = Some StreamHandler)), s).

(** ** The module (lines 6-34) *)

Definition FORMAT : string := "%(asctime)s - %(name)s - %(levelname)s - %(message)s".

(** Lines 12-22, run once at import. *)
Definition module_init : py lstate string :=
  basicConfig DEBUG_ FORMAT;;
  hs ← root_handlers;
  py_for (fun handler =>
           b ← is_stream_handler handler;
           py_when b (handler_setLevel handler INFO_)) hs;;
  getLogger "api.src.utils.logging_utils".

(** Append filters to a logger. *)
Definition with_filters (fs : list (nat * filter_class)) (l : logger) : logger :=
  Logger (lg_level l) (lg_propagate l) (lg_filters l ++ fs) (lg_handlers l).

(** [setup_process_logging] of [process_tracking]: it returns, and all
    it does is attach to the logger filters that already exist (their
    identities are below the next one); no handler, no level change. *)
Class ProcessLogging := {
  setup_process_logging : string -> py lstate unit;
  setup_process_logging_spec : forall k s, exists fs,
    Forall (fun f => f.1 < ls_next s)%nat fs /\
    setup_process_logging k s = (Ret (), set_loggers (alter (with_filters fs) k (ls_loggers s)) s)
}.

Section GetLogger.
Context `{ProcessLogging}.

(** Lines 24-34. *)
Definition get_logger (name : string) : py lstate string :=
  logger ← getLogger name;
  fid ← new_object;
  addFilter logger fid TimestampFilter;;
  setup_process_logging logger;;
  datadog_handler ← new_handler DatadogLogHandler;
  addHandler logger datadog_handler;;
  mret logger.

End GetLogger.

(** ** Emitting a record *)

(** [Logger.filter]: every filter runs in order; [TimestampFilter.filter]
    (lines 8-10) sets the timestamp and keeps the record. *)
Definition run_filters (now : Z) (fs : list (nat * filter_class)) (r : log_rec) : option log_rec :=
  foldl (fun acc '(_, fc) =>
           match acc, fc with
           | Some r, TimestampFilter =>
               Some (LogRec (rec_name r) (rec_levelno r) (rec_msg r) (Some now))
           | Some r, ProcessFilter => Some r
           | None, _ => None
           end) (Some r) fs.

(** [Logger.callHandlers]: along the chain, while [propagate], every
    handler whose level the record reaches emits it.  (The last-resort
    handler of a chain with no handler is not modelled: the chains here
    end at the root, which has the [StreamHandler].) *)
Fixpoint call_handlers (ls : gmap string logger) (hs : gmap nat handler) (r : log_rec)
    (c : list string) : list (nat * log_rec) :=
  match c with
  | [] => []
  | k :: c' =>
      match ls !! k with
      | None => []
      | Some l =>
          ((fun hid => (hid, r)) <$>
             List.filter (fun hid => match hs !! hid with
                                     | Some h => bool_decide (h_level h <= rec_levelno r)%Z
                                     | None => false
                                     end) (lg_handlers l)) ++
          (if lg_propagate l then call_handlers ls hs r c' else [])
      end
  end.

(** [logger.debug/info/error(msg)]: [isEnabledFor], the logger's
    filters, then the handlers. *)
Definition logger_log (k : string) (lvl : Z) (msg : string) : py lstate unit :=
  fun s =>
    if bool_decide (lvl >= effective_level (ls_loggers s) k)%Z then
      match ls_loggers s !! k with
      | None => (Ret (), s)
      | Some l =>
          match run_filters (ls_now s) (lg_filters l) (LogRec k lvl msg None) with
          | None => (Ret (), s)
          | Some r =>
              (Ret (), LState (ls_loggers s) (ls_handlers s) (ls_next s) (ls_now s)
                         (ls_out s ++ call_handlers (ls_loggers s) (ls_handlers s) r
                                                    (chain (ls_loggers s) k)))
          end
      end
    else (Ret (), s).

(** ** The object store *)

(** Object identities are fresh: every filter and handler a logger holds
    is below the next identity, and every attached handler exists. *)
Definition ids_wf (s : lstate) : Prop :=
  (forall k l, ls_loggers s !! k = Some l ->
     Forall (fun f => f.1 < ls_next s)%nat (lg_filters l) /\
     Forall (fun h => is_Some (ls_handlers s !! h)) (lg_handlers l)) /\
  (forall h x, ls_handlers s !! h = Some x -> (h < ls_next s)%nat).

(** The invariant as a check that runs. *)
Definition ids_wfb (s : lstate) : bool :=
  forallb (fun '(_, l) =>
             forallb (fun f => bool_decide (f.1 < ls_next s)%nat) (lg_filters l) &&
             forallb (fun h => bool_decide (is_Some (ls_handlers s !! h))) (lg_handlers l))
          (map_to_list (ls_loggers s)) &&
  forallb (fun '(h, _) => bool_decide (h < ls_next s)%nat) (map_to_list (ls_handlers s)).

Lemma ids_wfb_sound s : ids_wfb s = true -> ids_wf s.
Proof.
  unfold ids_wfb. rewrite andb_true_iff, !forallb_forall. intros [Hl Hh]. split.
  - intros k l Hk. apply elem_of_map_to_list, list_elem_of_In in Hk.
    specialize (Hl _ Hk). simpl in Hl. apply andb_true_iff in Hl as [Hf Hs].
    rewrite forallb_forall in Hf, Hs. split; apply Forall_forall; intros x Hx%list_elem_of_In.
    + by eapply bool_decide_eq_true_1, Hf.
    + by eapply bool_decide_eq_true_1, Hs.
  - intros h x Hx. apply elem_of_map_to_list, list_elem_of_In in Hx.
    by eapply bool_decide_eq_true_1, (Hh _ Hx).
Qed.

Definition resolve (name : string) : string :=
  if String.eqb name "" || String.eqb name "root" then "root" else name.

Definition ensure_logger (k : string) (m : gmap string logger) : gmap string logger :=
  match m !! k with Some _ => m | None => <[k := Logger NOTSET true [] []]> m end.

Definition with_handler (h : nat) (l : logger) : logger :=
  Logger (lg_level l) (lg_propagate l) (lg_filters l) (lg_handlers l ++ [h]).

Lemma getLogger_spec name s :
  getLogger name s = (Ret (resolve name), set_loggers (ensure_logger (resolve name) (ls_loggers s)) s).
Proof.
  unfold getLogger, ensure_logger, resolve. destruct s as [m hs n t o]; simpl.
  by destruct (m !! _).
Qed.

Lemma addFilter_fresh k fid fc s :
  (forall l, ls_loggers s !! k = Some l -> fid ∉ (lg_filters l).*1) ->
  addFilter k fid fc s = (Ret (), set_loggers (alter (with_filters [(fid, fc)]) k (ls_loggers s)) s).
Proof.
  intros Hf. unfold addFilter, modify_logger, py_modify. do 2 f_equal.
  apply alter_ext. intros l Hl. by rewrite bool_decide_eq_false_2 by auto.
Qed.

Lemma addHandler_fresh k h s :
  (forall l, ls_loggers s !! k = Some l -> h ∉ lg_handlers l) ->
  addHandler k h s = (Ret (), set_loggers (alter (with_handler h) k (ls_loggers s)) s).
Proof.
  intros Hf. unfold addHandler, modify_logger, py_modify. do 2 f_equal.
  apply alter_ext. intros l Hl. by rewrite bool_decide_eq_false_2 by auto.
Qed.

Lemma new_handler_spec c s :
  new_handler c s = (Ret (ls_next s),
    LState (ls_loggers s) (<[ls_next s := Handler c NOTSET None]> (ls_handlers s))
           (S (ls_next s)) (ls_now s) (ls_out s)).
Proof. reflexivity. Qed.

Lemma ensure_logger_lookup k m l :
  ensure_logger k m !! k = Some l -> m !! k = Some l \/ (m !! k = None /\ l = Logger NOTSET true [] []).
Proof.
  unfold ensure_logger. destruct (m !! k) as [l0|] eqn:Hk; cbn; intros H.
  - left. congruence.
  - rewrite lookup_insert_eq in H. simplify_eq. auto.
Qed.

Lemma ensure_logger_wf k s :
  ids_wf s -> ids_wf (set_loggers (ensure_logger k (ls_loggers s)) s).
Proof.
  intros [Hl Hh]. split; [|done]. intros k' l. simpl. unfold ensure_logger.
  destruct (ls_loggers s !! k) eqn:Hk; [apply Hl|].
  destruct (decide (k = k')) as [<-|Hne].
  - rewrite lookup_insert_eq. intros [=<-]. split; constructor.
  - rewrite lookup_insert_ne by done. apply Hl.
Qed.

Lemma ensure_logger_fresh k s l :
  ids_wf s -> ensure_logger k (ls_loggers s) !! k = Some l ->
  Forall (fun f => f.1 < ls_next s)%nat (lg_filters l) /\
  Forall (fun h => h < ls_next s)%nat (lg_handlers l).
Proof.
  intros [Hl Hh] [Hk|[_ ->]]%ensure_logger_lookup; [|split; constructor].
  destruct (Hl _ _ Hk) as [Hf Hs]. split; [done|].
  eapply Forall_impl; [exact Hs|]. intros h [x Hx]. eauto.
Qed.

Lemma not_elem_of_below (x : nat) (l : list nat) : Forall (fun y => y < x)%nat l -> x ∉ l.
Proof. intros Hall Hin. rewrite Forall_forall in Hall. specialize (Hall x Hin). lia. Qed.

Lemma with_filters_app fs1 fs2 l : with_filters fs2 (with_filters fs1 l) = with_filters (fs1 ++ fs2) l.
Proof. unfold with_filters. simpl. by rewrite app_assoc. Qed.

Section GetLoggerSpec.
Context `{ProcessLogging}.

(** [get_logger(name)]: the logger of the name (created at [NOTSET] if
    new) gets the fresh [TimestampFilter], the filters of
    [setup_process_logging] and the fresh [DatadogLogHandler]. *)
Lemma get_logger_spec name s :
  ids_wf s ->
  exists fs, Forall (fun f => f.1 < S (ls_next s))%nat fs /\
  get_logger name s =
    (Ret (resolve name),
     LState (alter (fun l => with_handler (S (ls_next s))
                               (with_filters ((ls_next s, TimestampFilter) :: fs) l))
                   (resolve name) (ensure_logger (resolve name) (ls_loggers s)))
            (<[S (ls_next s) := Handler DatadogLogHandler NOTSET None]> (ls_handlers s))
            (S (S (ls_next s))) (ls_now s) (ls_out s)).
Proof.
  intros Hwf. set (k := resolve name). set (m := ensure_logger k (ls_loggers s)).
  unfold get_logger. rewrite (py_run_bind_ret _ _ _ k _ (getLogger_spec name s)).
  rewrite (py_run_bind_ret _ _ _ (ls_next s) (set_next (S (ls_next s)) (set_loggers m s))) by done.
  rewrite (py_run_bind_ret _ _ _ () _) by
    (apply addFilter_fresh; intros l Hl; apply not_elem_of_below, Forall_fmap,
       (ensure_logger_fresh k s l Hwf Hl)).
  destruct (setup_process_logging_spec k
              (set_loggers (alter (with_filters [(ls_next s, TimestampFilter)]) k m)
                 (set_next (S (ls_next s)) (set_loggers m s)))) as (fs & Hfs & Hsp).
  exists fs. split; [done|]. rewrite (py_run_bind_ret _ _ _ () _ Hsp).
  erewrite py_run_bind_ret; [|apply new_handler_spec].
  erewrite (py_run_bind_ret _ _ _ ()).
  2:{ apply addHandler_fresh. simpl. intros l Hl.
      apply lookup_alter_Some in Hl as [(_ & l1 & Hl1 & ->)|[[] _]]; [|done].
      apply lookup_alter_Some in Hl1 as [(_ & l0 & Hl0 & ->)|[[] _]]; [|done].
      apply not_elem_of_below. simpl.
      eapply Forall_impl; [apply (ensure_logger_fresh k s l0 Hwf Hl0)|]. simpl. lia. }
  unfold mret, py_mret, py_ret, set_loggers, set_next; simpl. do 2 f_equal.
  rewrite !alter_alter_eq. apply alter_ext. intros l _. simpl.
  unfold compose. by rewrite !with_filters_app.
Qed.

Lemma ids_wf_attach s k n fs x :
  ids_wf s -> ls_next s = n -> Forall (fun f => f.1 < S n)%nat fs ->
  ids_wf (LState (alter (fun l => with_handler (S n) (with_filters ((n, TimestampFilter) :: fs) l))
                        k (ls_loggers s))
                 (<[S n := x]> (ls_handlers s)) (S (S n)) (ls_now s) (ls_out s)).
Proof.
  intros [Hl Hh] <- Hfs. split; simpl.
  - intros k' l Hk. apply lookup_alter_Some in Hk as [(_ & l0 & Hl0 & ->)|[_ Hk]];
      destruct (Hl _ _ (ltac:(eassumption))) as [Hf0 Hh0]; simpl; split.
    + rewrite Forall_app, Forall_cons. split_and!;
        [eapply Forall_impl; [exact Hf0|]; simpl; lia|simpl; lia|
         eapply Forall_impl; [exact Hfs|]; simpl; lia].
    + rewrite Forall_app, Forall_singleton. split; [|by rewrite lookup_insert_eq].
      eapply Forall_impl; [exact Hh0|]. intros h [y Hy].
      rewrite lookup_insert_ne; [eauto|]. specialize (Hh _ _ Hy). lia.
    + eapply Forall_impl; [exact Hf0|]. simpl. lia.
    + eapply Forall_impl; [exact Hh0|]. intros h [y Hy].
      rewrite lookup_insert_ne; [eauto|]. specialize (Hh _ _ Hy). lia.
  - intros h y. destruct (decide (h = S (ls_next s))) as [->|Hne]; [lia|].
    rewrite lookup_insert_ne by done. intros Hy. specialize (Hh _ _ Hy). lia.
Qed.

(** C32: Each call of [get_logger] keeps object identities fresh (every
    filter and handler a logger holds is below the next identity, every
    attached handler exists) and attaches to the requested logger one
    more Datadog handler, a new object that did not exist before, after
    the handlers it already had: the function is not idempotent. *)
Theorem get_logger_ids_wf name s :
  ids_wf s ->
  let '(o, s') := get_logger name s in
  o = Ret (resolve name) /\ ids_wf s' /\
  exists h, ls_handlers s !! h = None /\
    ls_handlers s' !! h = Some (Handler DatadogLogHandler NOTSET None) /\
    lg_handlers <$> ls_loggers s' !! resolve name =
      Some (default [] (lg_handlers <$> ls_loggers s !! resolve name) ++ [h])%list.
Proof.
  intros Hwf. destruct (get_logger_spec name s Hwf) as (fs & Hfs & ->).
  split_and!; [done| |exists (S (ls_next s)); split_and!; cbn [ls_handlers ls_loggers]].
  - apply (ids_wf_attach (set_loggers (ensure_logger (resolve name) (ls_loggers s)) s));
      [by apply ensure_logger_wf|done|done].
  - destruct (ls_handlers s !! S (ls_next s)) as [x|] eqn:Hx; [|done].
    apply (proj2 Hwf) in Hx. lia.
  - by rewrite lookup_insert_eq.
  - rewrite lookup_alter_eq. unfold ensure_logger.
    destruct (ls_loggers s !! resolve name) eqn:Hk; [by rewrite Hk|by rewrite lookup_insert_eq].
Qed.

Lemma alter_existing {A} (f : A -> A) (k : string) (m : gmap string A) x :
  m !! k = Some x -> alter f k m = <[k := f x]> m.
Proof.
  intros Hx. apply map_eq. intros i. destruct (decide (k = i)) as [<-|Hne].
  - rewrite lookup_alter_eq, lookup_insert_eq, Hx. reflexivity.
  - rewrite lookup_alter_ne, lookup_insert_ne; done.
Qed.

(** [get_logger] on a name whose logger exists. *)
Lemma get_logger_existing name s l0 :
  ids_wf s -> ls_loggers s !! resolve name = Some l0 ->
  exists fs, Forall (fun f => f.1 < S (ls_next s))%nat fs /\
  get_logger name s =
    (Ret (resolve name),
     LState (<[resolve name := with_handler (S (ls_next s))
                                 (with_filters ((ls_next s, TimestampFilter) :: fs) l0)]>
               (ls_loggers s))
            (<[S (ls_next s) := Handler DatadogLogHandler NOTSET None]> (ls_handlers s))
            (S (S (ls_next s))) (ls_now s) (ls_out s)).
Proof.
  intros Hwf Hl0. destruct (get_logger_spec name s Hwf) as (fs & Hfs & ->). exists fs.
  split; [done|]. unfold ensure_logger. rewrite Hl0. by erewrite alter_existing.
Qed.

(** The identities of the Datadog handlers [k] calls create, from
    identity [n] on: each call takes one for its filter and the next
    for its handler. *)
Fixpoint dd_ids (n k : nat) : list nat :=
  match k with O => [] | S k' => S n :: dd_ids (S (S n)) k' end.

Definition DATADOG : handler := Handler DatadogLogHandler NOTSET None.

(** [get_logger(name)] imported [k] times. *)
Definition get_loggers (names : list string) : py lstate unit :=
  py_for (fun nm => _ ← get_logger nm; mret ()) names.

Lemma get_loggers_existing name k s l0 :
  ids_wf s -> ls_loggers s !! resolve name = Some l0 ->
  exists l,
    get_loggers (replicate k name) s =
      (Ret (), LState (<[resolve name := l]> (ls_loggers s))
                      (foldl (fun m h => <[h := DATADOG]> m) (ls_handlers s) (dd_ids (ls_next s) k))
                      (ls_next s + 2 * k) (ls_now s) (ls_out s)) /\
    ids_wf (LState (<[resolve name := l]> (ls_loggers s))
                   (foldl (fun m h => <[h := DATADOG]> m) (ls_handlers s) (dd_ids (ls_next s) k))
                   (ls_next s + 2 * k) (ls_now s) (ls_out s)) /\
    lg_level l = lg_level l0 /\ lg_propagate l = lg_propagate l0 /\
    lg_handlers l = (lg_handlers l0 ++ dd_ids (ls_next s) k)%list /\
    (TimestampFilter ∈ (lg_filters l0).*2 \/ 0 < k -> TimestampFilter ∈ (lg_filters l).*2)%nat.
Proof.
  revert s l0. induction k as [|k IH]; intros s l0 Hwf Hl0.
  - exists l0. rewrite insert_id by done. simpl. rewrite Nat.add_0_r.
    destruct s; split_and!; [done|done|done|done|by rewrite app_nil_r|].
    intros [?|?]; [done|lia].
  - destruct (get_logger_existing name s l0 Hwf Hl0) as (fs & Hfs & Hget).
    set (l1 := with_handler (S (ls_next s)) (with_filters ((ls_next s, TimestampFilter) :: fs) l0)).
    set (s1 := LState (<[resolve name := l1]> (ls_loggers s))
                 (<[S (ls_next s) := DATADOG]> (ls_handlers s))
                 (S (S (ls_next s))) (ls_now s) (ls_out s)).
    assert (Hwf1 : ids_wf s1).
    { unfold s1, l1.
      rewrite <- (alter_existing (fun l => with_handler (S (ls_next s))
                    (with_filters ((ls_next s, TimestampFilter) :: fs) l)) _ _ _ Hl0).
      by apply ids_wf_attach. }
    destruct (IH s1 l1 Hwf1 (lookup_insert_eq _ _ _)) as (l & Hrun & Hwf' & Hlv & Hpr & Hhs & Hts).
    assert (Hstep : get_loggers (replicate (S k) name) s = get_loggers (replicate k name) s1).
    { unfold get_loggers. rewrite replicate_S, py_run_for_cons.
      by rewrite (py_run_bind_ret _ _ _ _ _ Hget). }
    exists l. rewrite Hstep, Hrun. unfold s1 in *.
    cbn [ls_loggers ls_handlers ls_next ls_now ls_out dd_ids foldl] in *.
    rewrite insert_insert_eq in Hwf' |- *.
    replace (S (S (ls_next s)) + 2 * k) with (ls_next s + 2 * S k) in Hwf' |- * by lia.
    split_and!; [done|done|done|done| |].
    + rewrite Hhs. simpl. by rewrite <- app_assoc.
    + intros _. apply Hts. left. simpl. rewrite fmap_app. set_solver.
Qed.

End GetLoggerSpec.

(** ** Import-time configuration *)

(** What lines 18-20 do to one handler. *)
Definition to_info (x : handler) : handler :=
  if bool_decide (h_class x = StreamHandler) then Handler (h_class x) INFO_ (h_formatter x) else x.

Lemma to_info_idem x : to_info (to_info x) = to_info x.
Proof. by destruct x as [[] l f]. Qed.

Lemma stream_step_spec h s :
  (b ← is_stream_handler h; py_when b (handler_setLevel h INFO_)) s =
  (Ret (), set_handlers (alter to_info h (ls_handlers s)) s).
Proof.
  destruct s as [lg hd nx nw out].
  unfold is_stream_handler, mbind, py_mbind, py_bind, py_when, handler_setLevel, py_modify, py_ret,
    set_handlers.
  cbn [ls_handlers ls_loggers ls_next ls_now ls_out].
  destruct (hd !! h) as [x|] eqn:Hx; cbn [fmap option_fmap option_map].
  - case_bool_decide as Hc.
    + f_equal; f_equal. apply alter_ext. intros y Hy. rewrite Hx in Hy. simplify_eq.
      unfold to_info. rewrite bool_decide_true by congruence. done.
    + rewrite (alter_id to_info); [done|]. intros y Hy. rewrite Hx in Hy. simplify_eq.
      unfold to_info. rewrite bool_decide_false by congruence. done.
  - rewrite bool_decide_false by done. rewrite (alter_id to_info); [done|].
    intros y Hy. congruence.
Qed.

Lemma stream_loop_spec hs s :
  py_for (fun handler => b ← is_stream_handler handler; py_when b (handler_setLevel handler INFO_)) hs s =
  (Ret (), set_handlers (foldl (fun m h => alter to_info h m) (ls_handlers s) hs) s).
Proof.
  revert s. induction hs as [|h hs IH]; intros s; [by destruct s|].
  rewrite py_run_for_cons, stream_step_spec, IH. by destruct s.
Qed.

Lemma foldl_alter_lookup (f : handler -> handler) hs (m : gmap nat handler) h :
  (forall x, f (f x) = f x) ->
  foldl (fun m h => alter f h m) m hs !! h = if bool_decide (h ∈ hs) then f <$> m !! h else m !! h.
Proof.
  intros Hf. revert m. induction hs as [|h' hs IH]; intros m; [done|]. simpl. rewrite IH.
  destruct (decide (h' = h)) as [->|Hne].
  - rewrite lookup_alter_eq, (bool_decide_true (h ∈ h :: hs)) by set_solver.
    case_bool_decide; [|done]. destruct (m !! h); simpl; by rewrite ?Hf.
  - rewrite lookup_alter_ne by done.
    assert (Hiff : h ∈ h' :: hs <-> h ∈ hs) by set_solver.
    by rewrite (bool_decide_ext _ _ Hiff).
Qed.

Lemma root_handlers_spec s r :
  ls_loggers s !! "root" = Some r -> root_handlers s = (Ret (lg_handlers r), s).
Proof. unfold root_handlers. by intros ->. Qed.

(** [basicConfig] on a root without handler installs one formatted
    [StreamHandler] and sets the level; on a configured root it does
    nothing. *)
Lemma basicConfig_spec level format s r :
  ls_loggers s !! "root" = Some r ->
  basicConfig level format s =
    (Ret (), if bool_decide (lg_handlers r = []) then
               LState (<["root" := Logger level (lg_propagate r) (lg_filters r) [ls_next s]]>
                         (ls_loggers s))
                      (<[ls_next s := Handler StreamHandler NOTSET (Some format)]> (ls_handlers s))
                      (S (ls_next s)) (ls_now s) (ls_out s)
             else s).
Proof.
  intros Hr. unfold basicConfig. rewrite (py_run_bind_ret _ _ _ _ _ (root_handlers_spec s r Hr)).
  destruct (lg_handlers r) as [|h hs] eqn:Hh; [|done].
  rewrite bool_decide_true by done.
  destruct s as [lg hd nx nw out]. simpl in Hr.
  unfold new_handler, new_object, addHandler, setLevel, modify_logger, mbind, py_mbind, py_bind,
    py_modify, mret, py_mret, py_ret, set_handlers, set_loggers, set_next.
  cbn [ls_handlers ls_loggers ls_next ls_now ls_out].
  rewrite alter_insert_eq, alter_alter_eq, (alter_existing _ _ _ _ Hr). unfold compose.
  rewrite Hh. done.
Qed.

Lemma ensure_logger_ne k k' m : k <> k' -> ensure_logger k m !! k' = m !! k'.
Proof. intros Hne. unfold ensure_logger. destruct (m !! k); [done|]. by rewrite lookup_insert_ne. Qed.

Lemma to_info_stream y : h_class (to_info y) = StreamHandler -> h_level (to_info y) = INFO_.
Proof. by destruct y as [[] l f]. Qed.

(** Lines 12-22 after [basicConfig]: the loop over the root's handlers
    and the module logger. *)
Lemma module_init_run s r1 :
  (basicConfig DEBUG_ FORMAT s).1 = Ret () ->
  ls_loggers (basicConfig DEBUG_ FORMAT s).2 !! "root" = Some r1 ->
  module_init s =
    (Ret "api.src.utils.logging_utils",
     let s1 := (basicConfig DEBUG_ FORMAT s).2 in
     set_loggers (ensure_logger "api.src.utils.logging_utils" (ls_loggers s1))
       (set_handlers (foldl (fun m h => alter to_info h m) (ls_handlers s1) (lg_handlers r1)) s1)).
Proof.
  intros Hb Hr1. unfold module_init.
  rewrite (py_run_bind_ret _ _ _ () (basicConfig DEBUG_ FORMAT s).2)
    by (destruct (basicConfig _ _ s); simpl in *; by subst).
  rewrite (py_run_bind_ret _ _ _ _ _ (root_handlers_spec _ _ Hr1)).
  rewrite (py_run_bind_ret _ _ _ () _ (stream_loop_spec _ _)).
  by rewrite getLogger_spec.
Qed.

(** C31: Importing the module (lines 12-22) leaves every
    [StreamHandler] of the root at [INFO], whatever the root held before;
    and on a root without handler, [basicConfig] installs exactly one
    console handler with the module's format, at [INFO], under a root at
    [DEBUG].  So [DEBUG] records pass the root's level but never reach
    the console. *)
Theorem module_init_console_info s r :
  ls_loggers s !! "root" = Some r ->
  let '(o, s') := module_init s in
  o = Ret "api.src.utils.logging_utils" /\
  (forall rl h x, ls_loggers s' !! "root" = Some rl -> h ∈ lg_handlers rl ->
     ls_handlers s' !! h = Some x -> h_class x = StreamHandler -> h_level x = INFO_) /\
  (lg_handlers r = [] ->
     ls_loggers s' !! "root" = Some (Logger DEBUG_ (lg_propagate r) (lg_filters r) [ls_next s]) /\
     ls_handlers s' !! ls_next s = Some (Handler StreamHandler INFO_ (Some FORMAT))).
Proof.
  intros Hr. pose proof (basicConfig_spec DEBUG_ FORMAT s r Hr) as Hb.
  destruct (decide (lg_handlers r = [])) as [Hnil|Hnil].
  - rewrite bool_decide_true in Hb by done.
    rewrite (module_init_run s (Logger DEBUG_ (lg_propagate r) (lg_filters r) [ls_next s]));
      rewrite Hb; [|done|cbn [ls_loggers snd]; by rewrite lookup_insert_eq].
    cbv zeta; cbn [ls_loggers ls_handlers set_loggers set_handlers snd fst foldl lg_handlers].
    rewrite ensure_logger_ne, lookup_insert_eq by done.
    split_and!; [done| |intros _; split; [done|by rewrite lookup_alter_eq, lookup_insert_eq]].
    intros rl h x [=<-] Hin. simpl in Hin. apply list_elem_of_singleton in Hin as ->.
    rewrite lookup_alter_eq, lookup_insert_eq. by intros [=<-].
  - rewrite bool_decide_false in Hb by done.
    rewrite (module_init_run s r); rewrite Hb; [|done|done].
    cbv zeta; cbn [ls_loggers ls_handlers set_loggers set_handlers snd fst].
    rewrite ensure_logger_ne by done. split_and!; [done| |intros Hc; by destruct Hnil].
    intros rl h x Hrl Hin. rewrite Hr in Hrl. simplify_eq.
    rewrite foldl_alter_lookup by apply to_info_idem. rewrite bool_decide_true by done.
    destruct (ls_handlers s !! h) as [y|]; simpl; [|done]. intros [=<-]. apply to_info_stream.
Qed.

(** ** The hierarchy walk *)

Lemma rfind_dot_lt name hi j : rfind_dot name hi = Some j -> (j < hi)%nat.
Proof.
  induction hi as [|hi IH]; simpl; [done|].
  case_bool_decide; [intros [=<-]; lia|intros Hj; specialize (IH Hj); lia].
Qed.

(** The fuel of the walk is enough: a walk from a dot left of [f1] ends
    within [f1] turns, so more fuel gives the same parent. *)
Lemma parent_loop_fuel f1 f2 ls name i :
  (forall j, i = Some j -> (j < f1)%nat) -> (f1 <= f2)%nat ->
  parent_loop f1 ls name i = parent_loop f2 ls name i.
Proof.
  revert f2 i. induction f1 as [|f IH]; intros f2 [j|] Hi Hle.
  - specialize (Hi j eq_refl). lia.
  - by destruct f2.
  - destruct f2 as [|g]; [lia|]. simpl. case_bool_decide; [|done].
    destruct (ls !! _); [done|]. apply IH; [|lia].
    intros j' Hj'%rfind_dot_lt. specialize (Hi j eq_refl). lia.
  - by destruct f2.
Qed.

Lemma substring_0_length j s : (j <= String.length s)%nat -> String.length (String.substring 0 j s) = j.
Proof.
  revert j. induction s as [|c s IH]; intros j Hj; simpl in *.
  - destruct j; [done|lia].
  - destruct j; [done|]. simpl. rewrite IH; [done|lia].
Qed.

(** A proper prefix found by the walk is a prefix of the name. *)
Lemma substring_prefix j s :
  (j <= String.length s)%nat -> String.prefix (String.substring 0 j s) s = true.
Proof.
  intros Hj. apply String.prefix_correct. by rewrite substring_0_length.
Qed.

(** The walk answers the root or a logger named by a proper prefix. *)
Lemma parent_loop_cases fuel ls name i :
  (forall j, i = Some j -> (j < String.length name)%nat) ->
  parent_loop fuel ls name i = "root" \/
  exists j, (j < String.length name)%nat /\ parent_loop fuel ls name i = String.substring 0 j name /\
            is_Some (ls !! String.substring 0 j name).
Proof.
  revert i. induction fuel as [|f IH]; intros [j|] Hi; simpl; auto.
  case_bool_decide; [|auto].
  destruct (ls !! String.substring 0 j name) eqn:Hs; [right; exists j; eauto|].
  apply IH. intros j' Hj'%rfind_dot_lt. specialize (Hi j eq_refl). lia.
Qed.

Lemma parent_root ls name :
  (forall j, (j < String.length name)%nat -> is_Some (ls !! String.substring 0 j name) ->
             String.substring 0 j name = "root") ->
  parent ls name = "root".
Proof.
  intros Hp. unfold parent.
  destruct (parent_loop_cases (String.length name) ls name (rfind_dot name (String.length name)))
    as [->|(j & Hj & -> & Hs)]; [|done|by apply Hp].
  intros j Hj%rfind_dot_lt. done.
Qed.

Lemma chain_fuel_root f ls : chain_fuel f ls "root" = ["root"].
Proof. by destruct f. Qed.

Lemma chain_top ls name :
  name <> "root" -> parent ls name = "root" -> chain ls name = [name; "root"].
Proof.
  intros Hn Hp. unfold chain. simpl. rewrite (proj2 (String.eqb_neq _ _) Hn), Hp.
  by rewrite chain_fuel_root.
Qed.

(** Every filter keeps the record; a [TimestampFilter] stamps it. *)
Lemma run_filters_spec now fs r :
  run_filters now fs r =
    Some (LogRec (rec_name r) (rec_levelno r) (rec_msg r)
            (if bool_decide (TimestampFilter ∈ fs.*2) then Some now else rec_timestamp r)).
Proof.
  unfold run_filters. revert r. induction fs as [|[fid fc] fs IH]; intros r; simpl.
  - by destruct r.
  - destruct fc; rewrite IH; simpl; f_equal; f_equal.
    + by destruct (bool_decide _).
    + assert (Hiff : TimestampFilter ∈ ProcessFilter :: fs.*2 <-> TimestampFilter ∈ fs.*2)
        by (rewrite elem_of_cons; naive_solver).
      by rewrite (bool_decide_ext _ _ Hiff).
Qed.

(** ** A record's journey after import *)

Definition MODULE_LOGGER : string := "api.src.utils.logging_utils".

(** The logging module after [logging_utils] is imported. *)
Definition imported (t : Z) : lstate :=
  LState (<[MODULE_LOGGER := Logger NOTSET true [] []]> {[ "root" := Logger DEBUG_ true [] [0%nat] ]})
         {[ 0%nat := Handler StreamHandler INFO_ (Some FORMAT) ]} 1 t [].

Lemma module_init_initial t : module_init (initial t) = (Ret MODULE_LOGGER, imported t).
Proof. reflexivity. Qed.

Lemma imported_wf t : ids_wf (imported t).
Proof. apply ids_wfb_sound. reflexivity. Qed.

Lemma foldl_insert_lookup {A} (v : A) hs (m : gmap nat A) h :
  foldl (fun m h => <[h := v]> m) m hs !! h = if bool_decide (h ∈ hs) then Some v else m !! h.
Proof.
  revert m. induction hs as [|h' hs IH]; intros m; [done|]. simpl. rewrite IH.
  destruct (decide (h' = h)) as [->|Hne].
  - rewrite lookup_insert_eq, (bool_decide_true (h ∈ h :: hs)) by set_solver. by case_bool_decide.
  - rewrite lookup_insert_ne by done.
    assert (Hiff : h ∈ h' :: hs <-> h ∈ hs) by set_solver.
    by rewrite (bool_decide_ext _ _ Hiff).
Qed.

Lemma dd_ids_ge n k h : h ∈ dd_ids n k -> (n < h)%nat.
Proof.
  revert n. induction k as [|k IH]; intros n Hin; simpl in *; [by apply elem_of_nil in Hin|].
  apply elem_of_cons in Hin as [->|Hin]; [lia|]. specialize (IH _ Hin). lia.
Qed.

Lemma dd_ids_NoDup n k : NoDup (dd_ids n k).
Proof.
  revert n. induction k as [|k IH]; intros n; simpl; constructor; [|apply IH].
  intros Hin%dd_ids_ge. lia.
Qed.

Lemma dd_ids_length n k : length (dd_ids n k) = k.
Proof. revert n. induction k as [|k IH]; intros n; simpl; [done|by rewrite IH]. Qed.

Section Delivery.
Context `{ProcessLogging}.

(** Import [logging_utils], call [get_logger(name)] [n] times, then log
    one message at [lvl] on the logger. *)
Definition import_and_log (name : string) (n : nat) (lvl : Z) (msg : string) : py lstate unit :=
  _ ← module_init; get_loggers (replicate n name);; logger_log name lvl msg.

(** The state after the [get_logger] calls: the logger holds the [n]
    Datadog handlers, is at [NOTSET], propagates and stamps. *)
Lemma imported_get_loggers name n t :
  (0 < n)%nat -> resolve name = name -> name <> "root" -> name <> MODULE_LOGGER ->
  exists l,
    get_loggers (replicate n name) (imported t) =
      (Ret (), LState (<[name := l]> (ls_loggers (imported t)))
                      (foldl (fun m h => <[h := DATADOG]> m) (ls_handlers (imported t)) (dd_ids 1 n))
                      (1 + 2 * n) t []) /\
    lg_level l = NOTSET /\ lg_propagate l = true /\ lg_handlers l = dd_ids 1 n /\
    TimestampFilter ∈ (lg_filters l).*2.
Proof.
  intros Hn Hres Hroot Hmod. destruct n as [|n]; [lia|].
  destruct (get_logger_spec name (imported t) (imported_wf t)) as (fs & Hfs & Hget).
  rewrite Hres in Hget. unfold ensure_logger in Hget.
  assert (Hnone : ls_loggers (imported t) !! name = None).
  { simpl. rewrite lookup_insert_ne by congruence. by rewrite lookup_singleton_ne. }
  rewrite Hnone, alter_insert_eq in Hget.
  set (l1 := with_handler 2 (with_filters ((1%nat, TimestampFilter) :: fs) (Logger NOTSET true [] []))).
  set (s1 := LState (<[name := l1]> (ls_loggers (imported t)))
               (<[2%nat := DATADOG]> (ls_handlers (imported t))) 3 t []).
  assert (Hwf1 : ids_wf s1).
  { pose proof (ensure_logger_wf name (imported t) (imported_wf t)) as Hw0.
    unfold ensure_logger in Hw0. rewrite Hnone in Hw0.
    pose proof (ids_wf_attach _ name 1 fs DATADOG Hw0 eq_refl Hfs) as Hw.
    cbn [ls_loggers set_loggers ls_handlers ls_now ls_out] in Hw.
    rewrite alter_insert_eq in Hw. exact Hw. }
  destruct (get_loggers_existing name n s1 l1 Hwf1)
    as (l & Hrun & _ & Hlv & Hpr & Hhs & Hts); [by rewrite Hres; apply lookup_insert_eq|].
  assert (Hstep : get_loggers (replicate (S n) name) (imported t) = get_loggers (replicate n name) s1).
  { unfold get_loggers. rewrite replicate_S, py_run_for_cons.
    by rewrite (py_run_bind_ret _ _ _ _ _ Hget). }
  rewrite Hres in Hrun. exists l. rewrite Hstep, Hrun. unfold s1.
  cbn [ls_loggers ls_handlers ls_next ls_now ls_out s1 dd_ids foldl].
  rewrite insert_insert_eq.
  replace (3 + 2 * n)%nat with (1 + 2 * S n)%nat by lia.
  split_and!; [done|done|done|by rewrite Hhs|].
  apply Hts. left. simpl. set_solver.
Qed.

(** Only the root is above a name that does not extend the module's
    own logger name. *)
Lemma imported_parent name l t :
  name <> "root" -> String.prefix MODULE_LOGGER name = false ->
  parent (<[name := l]> (ls_loggers (imported t))) name = "root".
Proof.
  intros Hroot Hpre. apply parent_root. intros j Hj [x Hx].
  apply lookup_insert_Some in Hx as [[Heq _]|[_ Hx]].
  - pose proof (substring_0_length j name) as Hl. rewrite <- Heq in Hl. lia.
  - simpl in Hx. apply lookup_insert_Some in Hx as [[Heq _]|[_ Hx]].
    + pose proof (substring_prefix j name) as Hp. rewrite <- Heq in Hp.
      rewrite Hp in Hpre by lia. discriminate.
    + by apply lookup_singleton_Some in Hx as [<- _].
Qed.

Lemma imported_handlers_lookup n t h :
  foldl (fun m h => <[h := DATADOG]> m) (ls_handlers (imported t)) (dd_ids 1 n) !! h =
  if bool_decide (h ∈ dd_ids 1 n) then Some DATADOG
  else if bool_decide (h = 0%nat) then Some (Handler StreamHandler INFO_ (Some FORMAT)) else None.
Proof.
  rewrite foldl_insert_lookup. case_bool_decide; [done|]. simpl.
  destruct (decide (h = 0%nat)) as [->|Hne].
  - rewrite bool_decide_true by done. apply lookup_singleton_eq.
  - rewrite bool_decide_false by done. by apply lookup_singleton_ne.
Qed.

Lemma effective_level_top ls name l r :
  chain ls name = [name; "root"] -> ls !! name = Some l -> ls !! "root" = Some r ->
  lg_level l = NOTSET -> lg_level r <> NOTSET -> effective_level ls name = lg_level r.
Proof.
  intros Hc Hl Hr Hlv Hrv. unfold effective_level. rewrite Hc. simpl. rewrite Hl, Hr. simpl.
  rewrite Hlv, bool_decide_false by (unfold NOTSET; lia). by rewrite bool_decide_true.
Qed.

(** One record logged on the logger of [imported_get_loggers]. *)
Lemma log_after_imports name n l lvl msg t :
  name <> "root" -> String.prefix MODULE_LOGGER name = false -> (DEBUG_ <= lvl)%Z ->
  lg_level l = NOTSET -> lg_propagate l = true -> lg_handlers l = dd_ids 1 n ->
  TimestampFilter ∈ (lg_filters l).*2 ->
  let s := LState (<[name := l]> (ls_loggers (imported t)))
             (foldl (fun m h => <[h := DATADOG]> m) (ls_handlers (imported t)) (dd_ids 1 n))
             (1 + 2 * n) t [] in
  let r := LogRec name lvl msg (Some t) in
  logger_log name lvl msg s =
    (Ret (), LState (ls_loggers s) (ls_handlers s) (ls_next s) t
               (((fun h => (h, r)) <$> dd_ids 1 n) ++
                (if bool_decide (INFO_ <= lvl)%Z then [(0%nat, r)] else []))%list).
Proof.
  intros Hroot Hpre Hlvl Hlv Hpr Hhs Hts s r.
  assert (Hch : chain (ls_loggers s) name = [name; "root"])
    by (apply chain_top; [done|apply imported_parent; done]).
  assert (HL : ls_loggers s !! name = Some l) by apply lookup_insert_eq.
  assert (HR : ls_loggers s !! "root" = Some (Logger DEBUG_ true [] [0%nat])).
  { simpl. rewrite lookup_insert_ne by congruence. rewrite lookup_insert_ne by done.
    apply lookup_singleton_eq. }
  assert (Heff : effective_level (ls_loggers s) name = DEBUG_).
  { rewrite (effective_level_top _ _ _ _ Hch HL HR Hlv); [done|]. simpl. unfold NOTSET, DEBUG_. lia. }
  assert (HH : forall h, ls_handlers s !! h =
    if bool_decide (h ∈ dd_ids 1 n) then Some DATADOG
    else if bool_decide (h = 0%nat) then Some (Handler StreamHandler INFO_ (Some FORMAT)) else None)
    by apply imported_handlers_lookup.
  assert (Hnow : ls_now s = t) by done. assert (Hout : ls_out s = []) by done.
  clearbody s. unfold logger_log. rewrite Heff, bool_decide_true by lia. rewrite HL, run_filters_spec.
  rewrite bool_decide_true by done. rewrite Hch. simpl call_handlers. rewrite HL, HR, Hpr, Hhs.
  rewrite Hnow, Hout. rewrite filter_all.
  2:{ apply Forall_forall. intros h Hh. rewrite HH, bool_decide_true by done.
      apply bool_decide_true. simpl. unfold NOTSET, DEBUG_ in *. lia. }
  cbn [lg_handlers lg_propagate List.filter]. rewrite HH, bool_decide_false by (intros Hin%dd_ids_ge; lia).
  simpl. rewrite app_nil_r. unfold r. do 3 f_equal. by case_bool_decide.
Qed.

(** C28: After [logging_utils] is imported and [get_logger(name)] has
    been called [n] times, a message logged on the logger at [DEBUG] or
    above is delivered to [n] distinct Datadog handlers, once each,
    stamped with the current time; the console handler of the root gets
    it once, and only from [INFO] up.  Calling [get_logger] again on a
    name multiplies the Datadog deliveries. *)
Theorem get_logger_delivery name n lvl msg t :
  (0 < n)%nat -> name <> "" -> name <> "root" -> String.prefix MODULE_LOGGER name = false ->
  (DEBUG_ <= lvl)%Z ->
  let r := LogRec name lvl msg (Some t) in
  let '(o, s') := import_and_log name n lvl msg (initial t) in
  o = Ret () /\
  ls_out s' = (((fun h => (h, r)) <$> dd_ids 1 n) ++
               (if bool_decide (INFO_ <= lvl)%Z then [(0%nat, r)] else []))%list /\
  length (dd_ids 1 n) = n /\ NoDup (dd_ids 1 n) /\
  Forall (fun h => ls_handlers s' !! h = Some DATADOG) (dd_ids 1 n).
Proof.
  intros Hn Hempty Hroot Hpre Hlvl r.
  assert (Hres : resolve name = name).
  { unfold resolve. by rewrite (proj2 (String.eqb_neq _ _) Hempty), (proj2 (String.eqb_neq _ _) Hroot). }
  assert (Hmod : name <> MODULE_LOGGER) by (intros ->; by vm_compute in Hpre).
  destruct (imported_get_loggers name n t Hn Hres Hroot Hmod) as (l & Hrun & Hlv & Hpr & Hhs & Hts).
  unfold import_and_log.
  rewrite (py_run_bind_ret _ _ _ _ _ (module_init_initial t)), (py_run_bind_ret _ _ _ _ _ Hrun).
  rewrite log_after_imports by done. cbn [ls_out ls_handlers].
  unfold mbind, py_mbind, py_bind, mret, py_mret, py_ret. cbn [ls_out ls_handlers].
  split_and!; [done|done|apply dd_ids_length|apply dd_ids_NoDup|].
  apply Forall_forall. intros h Hh. by rewrite imported_handlers_lookup, bool_decide_true.
Qed.

End Delivery.

(** ** Witnesses *)

(** A [setup_process_logging] that attaches nothing. *)
#[local] Instance no_process_logging : ProcessLogging.
Proof.
  refine {| setup_process_logging := fun _ => py_ret () |}.
  intros k s. exists []. split; [constructor|]. unfold py_ret. f_equal.
  rewrite (alter_id (with_filters [])); [by destruct s|].
  intros l _. unfold with_filters. rewrite app_nil_r. by destruct l.
Defined.

Definition HANDLER_LOGGER : string := "api.src.socket.handlers.handle_get_next_evaluation".

Lemma get_logger_ids_wf_witness :
  ids_wf (initial 0) /\
  let '(o, s') := get_logger HANDLER_LOGGER (initial 0) in
  o = Ret (resolve HANDLER_LOGGER) /\ ids_wf s' /\
  exists h, ls_handlers (initial 0) !! h = None /\
    ls_handlers s' !! h = Some (Handler DatadogLogHandler NOTSET None) /\
    lg_handlers <$> ls_loggers s' !! resolve HANDLER_LOGGER =
      Some (default [] (lg_handlers <$> ls_loggers (initial 0) !! resolve HANDLER_LOGGER) ++ [h])%list.
Proof.
  assert (Hwf : ids_wf (initial 0)) by (apply ids_wfb_sound; reflexivity).
  split; [exact Hwf|]. exact (get_logger_ids_wf HANDLER_LOGGER (initial 0) Hwf).
Defined.

Lemma module_init_console_info_witness :
  ls_handlers (module_init (initial 0)).2 !! 0%nat = Some (Handler StreamHandler INFO_ (Some FORMAT)).
Proof.
  pose proof (module_init_console_info (initial 0) (Logger WARNING true [] []) eq_refl) as H.
  destruct (module_init (initial 0)) as [o s'].
  destruct H as (_ & _ & H). apply (H eq_refl).
Defined.

Lemma get_logger_delivery_witness :
  ls_out (import_and_log HANDLER_LOGGER 2 DEBUG_ "Attempting to get next evaluation" (initial 0)).2 =
    [(2%nat, LogRec HANDLER_LOGGER DEBUG_ "Attempting to get next evaluation" (Some 0%Z));
     (4%nat, LogRec HANDLER_LOGGER DEBUG_ "Attempting to get next evaluation" (Some 0%Z))].
Proof.
  pose proof (get_logger_delivery HANDLER_LOGGER 2 DEBUG_ "Attempting to get next evaluation" 0)
    as H.
  destruct (import_and_log _ _ _ _ _) as [o s']. cbn [snd].
  destruct H as (_ & -> & _); [lia|discriminate|discriminate|reflexivity|unfold DEBUG_; lia|].
  reflexivity.
Defined.

End Logging.
