(* ===== verification/PyStr.v ===== *)
(** * PyStr: the Python [str] methods the miner uses

    [str.isspace], [lstrip()], [rstrip()], [strip()] and [startswith] on
    strings of code points below 256 ([String.string], one [ascii] per
    code point, read as Latin-1).  Python's [isspace] holds for the
    characters 9-13, 28-32, 133 (NEL) and 160 (NBSP) in that range.
    [rstrip] is defined by one structural recursion; the lemmas give the
    facts the miner's patch normalisation needs: [rstrip] is idempotent,
    ignores appended whitespace, leaves no trailing whitespace, and is a
    prefix of its argument. *)

From S2P Require Import Prelude.
From Stdlib Require Import Ascii.

Module PyStr.

Definition isspace (c : ascii) : bool :=
  let n := nat_of_ascii c in
  (((9 <=? n) && (n <=? 13)) || ((28 <=? n) && (n <=? 32)) || (n =? 133) || (n =? 160))%nat.

Fixpoint lstrip (s : string) : string :=
  match s with
  | EmptyString => EmptyString
  | String c s' => if isspace c then lstrip s' else s
  end.

Fixpoint rstrip (s : string) : string :=
  match s with
  | EmptyString => EmptyString
  | String c s' =>
      let r := rstrip s' in
      if isspace c && String.eqb r "" then "" else String c r
  end.

Definition strip (s : string) : string := rstrip (lstrip s).

Definition startswith (s p : string) : bool := String.prefix p s.

(** The newline character (a Rocq string literal has no escapes). *)
Definition nl : string := String (ascii_of_nat 10%nat) EmptyString.

(** No trailing whitespace: empty or ending in a non-space character. *)
Fixpoint no_trailing_space (s : string) : Prop :=
  match s with
  | EmptyString => True
  | String c EmptyString => isspace c = false
  | String _ s' => no_trailing_space s'
  end.

(** ** [str], [repr] and [json.dumps] of JSON-like values *)

Definition chr (n : nat) : string := String (ascii_of_nat n) EmptyString.

(** The double quote, which a Rocq string literal spells only doubled. *)
Definition dq : string := chr 34.

Definition hex_digit (n : nat) : ascii :=
  ascii_of_nat (if (n <? 10)%nat then (48 + n)%nat else (87 + n)%nat).

Definition hex2 (n : nat) : string :=
  String (hex_digit (n / 16)) (String (hex_digit (n mod 16)) EmptyString).

(** [json.dumps] (with [ensure_ascii]) of one character of a string. *)
Definition json_escape_char (c : ascii) : string :=
  let n := nat_of_ascii c in
  if (n =? 34)%nat then "\" +:+ dq
  else if (n =? 92)%nat then "\\"
  else if (n =? 10)%nat then "\n"
  else if (n =? 13)%nat then "\r"
  else if (n =? 9)%nat then "\t"
  else if (n =? 8)%nat then "\b"
  else if (n =? 12)%nat then "\f"
  else if ((n <? 32) || (127 <? n))%nat then "\u00" +:+ hex2 n
  else String c EmptyString.

Fixpoint string_flat_map (f : ascii -> string) (s : string) : string :=
  match s with
  | EmptyString => EmptyString
  | String c s' => f c +:+ string_flat_map f s'
  end.

Definition json_quote (s : string) : string := dq +:+ string_flat_map json_escape_char s +:+ dq.

(** Characters [str.isprintable] accepts among code points below 256. *)
Definition isprintable (c : ascii) : bool :=
  let n := nat_of_ascii c in
  (((32 <=? n) && (n <=? 126)) || ((161 <=? n) && negb (n =? 173)))%nat.

Fixpoint has_char (c : ascii) (s : string) : bool :=
  match s with
  | EmptyString => false
  | String c' s' => if ascii_dec c c' then true else has_char c s'
  end.

(** [repr(s)] of a string: single quotes unless the string holds a single
    quote and no double quote. *)
Definition repr_str (s : string) : string :=
  let q := if has_char (ascii_of_nat 39) s && negb (has_char (ascii_of_nat 34) s)
           then dq else "'" in
  let esc c :=
    let n := nat_of_ascii c in
    if (n =? 92)%nat then "\\"
    else if String.eqb (String c EmptyString) q then "\" +:+ q
    else if (n =? 9)%nat then "\t"
    else if (n =? 10)%nat then "\n"
    else if (n =? 13)%nat then "\r"
    else if isprintable c then String c EmptyString
    else "\x" +:+ hex2 n in
  q +:+ string_flat_map esc s +:+ q.

(** [repr(float)] of the decimal [m / 10^e], in positional notation (the
    form Python uses for magnitudes in [1e-4, 1e16)): trailing zeros of
    the fraction are dropped and an integral value prints as [n.0]. *)
Fixpoint dec_norm (m : Z) (e : nat) : Z * nat :=
  match e with
  | O => (m, O)
  | S e' => if Z.eqb (Z.rem m 10) 0 then dec_norm (Z.quot m 10) e' else (m, e)
  end.

Definition float_repr (m : Z) (e : nat) : string :=
  let '(m', e') := dec_norm m e in
  let sign := if Z.ltb m' 0 then "-" else "" in
  let ds := pretty (Z.abs m') in
  let ds := String.concat "" (replicate (S e' - String.length ds) "0") +:+ ds in
  let k := (String.length ds - e')%nat in
  match e' with
  | O => sign +:+ ds +:+ ".0"
  | _ => sign +:+ String.substring 0 k ds +:+ "." +:+ String.substring k e' ds
  end.

(** [repr(v)] of the Python value decoded from a JSON value. *)
Fixpoint py_repr (v : json) : string :=
  match v with
  | JNull => "None"
  | JBool b => if b then "True" else "False"
  | JNum z => pretty z
  | JDec m e => float_repr m e
  | JStr s => repr_str s
  | JList l => "[" +:+ String.concat ", " (map py_repr l) +:+ "]"
  | JObj f => "{" +:+ String.concat ", " (map (fun '(k, x) => repr_str k +:+ ": " +:+ py_repr x) f) +:+ "}"
  end.

(** [str(v)], as an f-string prints it: a string is itself. *)
Definition py_str (v : json) : string :=
  match v with JStr s => s | _ => py_repr v end.

Definition indent (n : nat) : string := String.concat "" (replicate n " ").

(** [json.dumps(v, indent=2)] at nesting depth [d]. *)
Fixpoint json_dumps_at (d : nat) (v : json) : string :=
  match v with
  | JNull => "null"
  | JBool b => if b then "true" else "false"
  | JNum z => pretty z
  | JDec m e => float_repr m e
  | JStr s => json_quote s
  | JList [] => "[]"
  | JList l =>
      "[" +:+ nl +:+
      String.concat ("," +:+ nl) (map (fun x => indent (2 * S d) +:+ json_dumps_at (S d) x) l) +:+
      nl +:+ indent (2 * d) +:+ "]"
  | JObj [] => "{}"
  | JObj f =>
      "{" +:+ nl +:+
      String.concat ("," +:+ nl)
        (map (fun '(k, x) => indent (2 * S d) +:+ json_quote k +:+ ": " +:+ json_dumps_at (S d) x) f) +:+
      nl +:+ indent (2 * d) +:+ "}"
  end.

Definition json_dumps_indent2 (v : json) : string := json_dumps_at 0 v.

Definition type_name (v : json) : string :=
  match v with
  | JNull => "NoneType"
  | JBool _ => "bool"
  | JNum _ => "int"
  | JDec _ _ => "float"
  | JStr _ => "str"
  | JList _ => "list"
  | JObj _ => "dict"
  end.

(** [v.get(k)]: a dict answers [None] for a missing key; any other value
    has no [get] attribute. *)
Definition json_get {S} (v : json) (k : string) : py S json :=
  match v with
  | JObj f => py_ret (py_dict_get f k)
  | _ => py_raise (Exception ("'" +:+ type_name v +:+ "' object has no attribute 'get'"))
  end.

(** ** Lemmas *)

Lemma rstrip_cons c s :
  rstrip (String c s) = if isspace c && String.eqb (rstrip s) "" then "" else String c (rstrip s).
Proof. reflexivity. Qed.

Lemma eqb_app_nonempty s r : r <> "" -> String.eqb (s ++ r) "" = false.
Proof. intros Hr. apply String.eqb_neq. destruct r; [done|]. destruct s; discriminate. Qed.

Lemma rstrip_app s t :
  rstrip (s ++ t) = if String.eqb (rstrip t) "" then rstrip s else s ++ rstrip t.
Proof.
  induction s as [|c s IH].
  - change ("" ++ t) with t. simpl. destruct (rstrip t); reflexivity.
  - change (String c s ++ t) with (String c (s ++ t)). rewrite !rstrip_cons, IH. destruct (String.eqb_spec (rstrip t) "") as [Ht|Ht]; [done|].
    rewrite eqb_app_nonempty by done. by rewrite andb_false_r.
Qed.

Lemma rstrip_idem s : rstrip (rstrip s) = rstrip s.
Proof.
  induction s as [|c s IH]; [done|]. rewrite rstrip_cons.
  destruct (isspace c && String.eqb (rstrip s) "") eqn:Hc; [done|].
  by rewrite rstrip_cons, IH, Hc.
Qed.

Lemma rstrip_space_tail s c :
  isspace c = true -> rstrip (s ++ String c "") = rstrip s.
Proof. intros Hc. rewrite rstrip_app. simpl. by rewrite Hc. Qed.

Lemma isspace_nl : isspace (ascii_of_nat 10%nat) = true.
Proof. reflexivity. Qed.

Lemma rstrip_no_trailing_space s : no_trailing_space (rstrip s).
Proof.
  induction s as [|c s IH]; [done|]. rewrite rstrip_cons.
  destruct (isspace c) eqn:Hc; destruct (String.eqb_spec (rstrip s) "") as [He|He];
    simpl; try done; try (rewrite He; done);
    destruct (rstrip s); done.
Qed.

Lemma rstrip_of_no_trailing_space s : no_trailing_space s -> rstrip s = s.
Proof.
  induction s as [|c s IH]; [done|]. intros H. rewrite rstrip_cons.
  destruct s as [|c' s'].
  - simpl in H. by rewrite H.
  - rewrite IH by done. rewrite (proj2 (String.eqb_neq _ _)) by discriminate.
    by rewrite andb_false_r.
Qed.

Lemma rstrip_prefix s : exists w, s = rstrip s ++ w.
Proof.
  induction s as [|c s [w IH]]; [by exists ""|]. rewrite rstrip_cons.
  destruct (isspace c && String.eqb (rstrip s) "") eqn:Hc.
  - exists (String c s). done.
  - exists w. change (String c (rstrip s) ++ w) with (String c (rstrip s ++ w)). by rewrite <- IH.
Qed.

Lemma lstrip_rstrip s : lstrip (rstrip s) = rstrip (lstrip s).
Proof.
  induction s as [|c s IH]; [done|]. rewrite rstrip_cons. simpl.
  destruct (isspace c) eqn:Hc; simpl.
  - destruct (String.eqb_spec (rstrip s) "") as [He|He]; simpl; [|by rewrite Hc].
    rewrite <- IH, He. done.
  - rewrite Hc. simpl. done.
Qed.

Lemma append_assoc a b c : (a ++ b) ++ c = a ++ (b ++ c).
Proof. induction a as [|x a IH]; [done|]. change (String x ((a ++ b) ++ c) = String x (a ++ b ++ c)); by rewrite IH. Qed.

Lemma append_nil_r a : a ++ "" = a.
Proof. induction a as [|x a IH]; [done|]. change (String x (a ++ "") = String x a). by rewrite IH. Qed.

Lemma prefix_app p y : String.prefix p (p ++ y) = true.
Proof. induction p as [|c p IH]; [by destruct y|]. simpl. destruct (ascii_dec c c); [done|congruence]. Qed.

Lemma prefix_inv p x : String.prefix p x = true -> exists y, x = p ++ y.
Proof.
  revert x. induction p as [|c p IH]; intros x H; [by exists x|].
  destruct x as [|c' x]; [discriminate|]. simpl in H.
  destruct (ascii_dec c c') as [<-|]; [|discriminate].
  destruct (IH x H) as [y ->]. by exists y.
Qed.

(** A prefix that does not end in whitespace survives [rstrip]. *)
Lemma startswith_rstrip x p :
  no_trailing_space p -> startswith (rstrip x) p = startswith x p.
Proof.
  intros Hp. unfold startswith. apply eq_bool_prop_intro. split; intros H.
  - apply Is_true_eq_true, prefix_inv in H as [z Hz].
    destruct (rstrip_prefix x) as [w Hw]. rewrite Hw, Hz, append_assoc.
    apply Is_true_eq_left, prefix_app.
  - apply Is_true_eq_true, prefix_inv in H as [y ->]. rewrite rstrip_app.
    apply Is_true_eq_left. destruct (String.eqb (rstrip y) ""); [|apply prefix_app].
    rewrite rstrip_of_no_trailing_space by done.
    rewrite <- (append_nil_r p) at 2. apply prefix_app.
Qed.

Lemma lstrip_app s t :
  lstrip (s ++ t) = if String.eqb (lstrip s) "" then lstrip t else lstrip s ++ t.
Proof.
  induction s as [|c s IH]; [done|].
  change (String c s ++ t) with (String c (s ++ t)). simpl.
  destruct (isspace c); [done|]. done.
Qed.

Lemma rstrip_nl_tail s : rstrip (s ++ nl) = rstrip s.
Proof. apply rstrip_space_tail, isspace_nl. Qed.

(** [strip] does not see the normalisation [s.rstrip() + "\n"]. *)
Lemma strip_rstrip_nl s : strip (rstrip s ++ nl) = strip s.
Proof.
  unfold strip. rewrite lstrip_app, lstrip_rstrip.
  destruct (String.eqb_spec (rstrip (lstrip s)) "") as [He|He].
  - rewrite He. reflexivity.
  - rewrite rstrip_nl_tail. apply rstrip_idem.
Qed.

(** The normalisation is idempotent. *)
Lemma rstrip_nl_idem s : rstrip (rstrip s ++ nl) ++ nl = rstrip s ++ nl.
Proof. by rewrite rstrip_nl_tail, rstrip_idem. Qed.

Lemma string_snoc s : s <> "" -> exists x c, s = x ++ String c "".
Proof.
  induction s as [|c s IH]; intros Hne; [done|]. destruct (decide (s = "")) as [->|Hs].
  - by exists "", c.
  - destruct (IH Hs) as (x & d & ->). by exists (String c x), d.
Qed.

Lemma has_char_app c a b : has_char c (a ++ b) = has_char c a || has_char c b.
Proof.
  induction a as [|d a IH]; [done|].
  change (has_char c (String d (a ++ b)) = has_char c (String d a) || has_char c b).
  simpl. destruct (ascii_dec c d); [done|apply IH].
Qed.

Lemma length_append a b : String.length (a ++ b) = (String.length a + String.length b)%nat.
Proof. induction a as [|c a IH]; [done|]. change (S (String.length (a ++ b)) = S (String.length a + String.length b))%nat. by rewrite IH. Qed.

(** The last character of [x ++ String c ""] is [c]. *)
Lemma substring_last x c :
  String.substring (String.length (x ++ String c "") - 1) 1 (x ++ String c "") = String c "".
Proof.
  rewrite length_append. simpl. rewrite Nat.add_sub.
  induction x as [|d x IH]; [done|]. exact IH.
Qed.

Lemma concat_app (sep : string) ps qs :
  ps <> [] -> qs <> [] ->
  String.concat sep (ps ++ qs)%list = String.concat sep ps ++ sep ++ String.concat sep qs.
Proof.
  intros Hps Hqs. induction ps as [|p [|p2 ps] IH]; [done| |].
  - simpl. by destruct qs.
  - change (p ++ sep ++ String.concat sep ((p2 :: ps) ++ qs)%list =
            (p ++ sep ++ String.concat sep (p2 :: ps)) ++ sep ++ String.concat sep qs).
    rewrite IH by done. by rewrite !append_assoc.
Qed.

End PyStr.
