(* ===== verification/Lifecycle.v ===== *)
(** * Lifecycle: the agent-version state machine (AgentStateMachine)

    Modelled from spec section 4.2: [api/src/backend/agent_machine.py]
    and the persistence queries it calls are not part of the sources, and
    [scoring.py] only calls them.  The store of agent versions is a
    [gmap] from version id to [agent_version]; every operation is a total
    function returning either an error of the spec's taxonomy or the new
    store, so that a failed operation leaves the store unchanged.  The
    machine itself is the labelled relation [lstep], and [reachable] is
    its reflexive-transitive closure from the empty store. *)

From S2P Require Import Prelude.
From Stdlib Require Import Sorted.

Module Lifecycle.

(** ** Data *)

Inductive agent_status :=
| awaiting_screening
| screening
| evaluating
| approved
| rejected
| banned.

#[export] Instance agent_status_eq_dec : EqDecision agent_status.
Proof. solve_decision. Defined.

Record agent_version := AgentVersion {
  version_id : string;
  miner_hotkey : string;
  status : agent_status;
  created_at : Z
}.

#[export] Instance agent_version_eq_dec : EqDecision agent_version.
Proof. solve_decision. Defined.

Definition set_status (s : agent_status) (v : agent_version) : agent_version :=
  {| version_id := version_id v; miner_hotkey := miner_hotkey v;
     status := s; created_at := created_at v |}.

Abbreviation vstore := (gmap string agent_version).

(** ** The transition table *)

Definition terminal (s : agent_status) : bool :=
  match s with rejected | banned => true | _ => false end.

Inductive edge : agent_status -> agent_status -> Prop :=
| edge_pick_up : edge awaiting_screening screening
| edge_screen_pass : edge screening evaluating
| edge_screen_fail : edge screening rejected
| edge_eval_pass : edge evaluating approved
| edge_eval_fail : edge evaluating rejected
| edge_re_evaluate : edge approved awaiting_screening
| edge_ban s : terminal s = false -> edge s banned.

Definition edgeb (a b : agent_status) : bool :=
  match a, b with
  | awaiting_screening, screening
  | screening, evaluating
  | screening, rejected
  | evaluating, approved
  | evaluating, rejected
  | approved, awaiting_screening => true
  | (awaiting_screening | screening | evaluating | approved), banned => true
  | _, _ => false
  end.

(** ** Operations *)

(** One table-checked transition of one version. *)
Definition transition (vid : string) (to : agent_status) (m : vstore)
    : core_error + vstore :=
  match m !! vid with
  | None => inl NotFound
  | Some v =>
      if edgeb (status v) to then inr (<[vid := set_status to v]> m)
      else inl InvalidTransition
  end.

(** [ban_agent]: every version owned by the agent is forced to [banned],
    whatever its state. *)
Definition ban_version (agent_id : string) (v : agent_version) : agent_version :=
  if decide (miner_hotkey v = agent_id) then set_status banned v else v.

Definition ban_agent (agent_id : string) (m : vstore) : vstore :=
  ban_version agent_id <$> m.

(** [approve_version]: [NotFound] for an unknown version, [InvalidTransition]
    for a banned one; an approved version stays approved, any other goes
    through the table's edge to [approved]. *)
Definition approve_version (vid : string) (m : vstore) : core_error + vstore :=
  match m !! vid with
  | None => inl NotFound
  | Some v =>
      match status v with
      | banned => inl InvalidTransition
      | approved => inr m
      | _ => transition vid approved m
      end
  end.

(** [re_evaluate_approved_agents]: select every approved version, move
    each back to [awaiting_screening], return the selected versions. *)
Definition reset_approved (v : agent_version) : agent_version :=
  if decide (status v = approved) then set_status awaiting_screening v else v.

Definition approved_versions (m : vstore) : list agent_version :=
  snd <$> filter (fun kv => status kv.2 = approved) (map_to_list m).

Definition re_evaluate_approved_agents (m : vstore) : list agent_version * vstore :=
  (approved_versions m, reset_approved <$> m).

(** A new version enters the machine in [awaiting_screening] under a fresh
    id (done by the upload path of the persistence layer). *)
Definition create_version (v : agent_version) (m : vstore) : core_error + vstore :=
  match m !! version_id v with
  | Some _ => inl InvalidTransition
  | None =>
      if decide (status v = awaiting_screening)
      then inr (<[version_id v := v]> m) else inl InvalidTransition
  end.

(** ** The machine *)

Inductive op :=
| OpCreate (v : agent_version)
| OpTransition (vid : string) (to : agent_status)
| OpBan (agent_id : string)
| OpApprove (vid : string)
| OpReEvaluate.

Definition exec_op (o : op) (m : vstore) : core_error + vstore :=
  match o with
  | OpCreate v => create_version v m
  | OpTransition vid to => transition vid to m
  | OpBan a => inr (ban_agent a m)
  | OpApprove vid => approve_version vid m
  | OpReEvaluate => inr (re_evaluate_approved_agents m).2
  end.

(** A failed operation is rejected and leaves the store as it was. *)
Definition apply_op (o : op) (m : vstore) : vstore :=
  match exec_op o m with inr m' => m' | inl _ => m end.

Inductive lstep : vstore -> op -> vstore -> Prop :=
| lstep_ok o m m' : exec_op o m = inr m' -> lstep m o m'
| lstep_err o m e : exec_op o m = inl e -> lstep m o m.

Inductive reachable : vstore -> Prop :=
| reachable_empty : reachable ∅
| reachable_step m o m' : reachable m -> lstep m o m' -> reachable m'.

(** The store is well formed when each version is stored under its id. *)
Definition store_wf (m : vstore) : Prop :=
  map_Forall (fun k v => version_id v = k) m.

(** What one operation may do to one existing version: its identity is
    kept and its status stays, follows an edge of the table, or (by
    [ban_agent] of its owner) becomes [banned]. *)
Definition same_identity (v v' : agent_version) : Prop :=
  version_id v' = version_id v /\ miner_hotkey v' = miner_hotkey v /\
  created_at v' = created_at v.

Definition allowed_change (o : op) (v v' : agent_version) : Prop :=
  same_identity v v' /\
  (status v' = status v \/ edge (status v) (status v') \/
   (o = OpBan (miner_hotkey v) /\ status v' = banned)).

(** Runs of the machine: the stores seen along a list of operations, and
    the status of one version id in each. *)
Fixpoint run (m : vstore) (os : list op) : list vstore :=
  m :: match os with
       | [] => []
       | o :: os' => run (apply_op o m) os'
       end.

Definition observed (k : string) (ms : list vstore) : list (option agent_status) :=
  (fun m => status <$> m !! k) <$> ms.

(** Two consecutive observations of a version: absent then created in
    [awaiting_screening], or a status followed by itself, a table edge,
    or [banned]. *)
Definition may_follow (o o' : option agent_status) : Prop :=
  match o, o' with
  | None, None => True
  | None, Some s' => s' = awaiting_screening
  | Some s, Some s' => s' = s \/ edge s s' \/ s' = banned
  | Some _, None => False
  end.

(** ** Lemmas *)

Lemma edgeb_spec a b : reflect (edge a b) (edgeb a b).
Proof.
  destruct a, b; simpl;
    first [ constructor; constructor; reflexivity
          | constructor; inversion 1; discriminate ].
Qed.

#[export] Instance edge_dec a b : Decision (edge a b).
Proof. destruct (edgeb_spec a b); [left | right]; done. Defined.

Lemma edge_not_from_banned s : ~ edge banned s.
Proof. inversion 1; discriminate. Qed.

Lemma same_identity_refl v : same_identity v v.
Proof. repeat split. Qed.

Lemma same_identity_set_status s v : same_identity v (set_status s v).
Proof. repeat split. Qed.

#[export] Hint Resolve same_identity_refl same_identity_set_status : coord.

Lemma status_set_status s v : status (set_status s v) = s.
Proof. reflexivity. Qed.

Lemma transition_inr vid to m m' :
  transition vid to m = inr m' ->
  exists v, m !! vid = Some v /\ edge (status v) to /\
            m' = <[vid := set_status to v]> m.
Proof.
  unfold transition. destruct (m !! vid) as [v|] eqn:Hv; [|discriminate].
  destruct (edgeb_spec (status v) to); intros H; simplify_eq; eauto.
Qed.

Lemma approve_version_inr vid m m' :
  approve_version vid m = inr m' ->
  m' = m \/ transition vid approved m = inr m'.
Proof.
  unfold approve_version. destruct (m !! vid) as [v|]; [|discriminate].
  destruct (status v); intros H; simplify_eq; auto.
Qed.

Lemma create_version_inr v m m' :
  create_version v m = inr m' ->
  m !! version_id v = None /\ status v = awaiting_screening /\
  m' = <[version_id v := v]> m.
Proof.
  unfold create_version. destruct (m !! version_id v); [discriminate|].
  case_decide; intros Hr; simplify_eq; auto.
Qed.

Lemma lookup_ban_agent a m k :
  ban_agent a m !! k = ban_version a <$> m !! k.
Proof. apply lookup_fmap. Qed.

Lemma lookup_reset_approved m k :
  (re_evaluate_approved_agents m).2 !! k = reset_approved <$> m !! k.
Proof. apply lookup_fmap. Qed.

Lemma elem_of_approved_versions m v :
  v ∈ approved_versions m <-> exists k, m !! k = Some v /\ status v = approved.
Proof.
  unfold approved_versions. rewrite list_elem_of_fmap. split.
  - intros [[k v'] [-> Hin]]. apply list_elem_of_filter in Hin as [Hs Hin].
    apply elem_of_map_to_list in Hin. eauto.
  - intros (k & Hk & Hs). exists (k, v). split; [done|].
    apply list_elem_of_filter. split; [done|]. by apply elem_of_map_to_list.
Qed.

Lemma allowed_change_same o v : allowed_change o v v.
Proof. split; auto with coord. Qed.

Lemma allowed_change_edge o v s :
  edge (status v) s -> allowed_change o v (set_status s v).
Proof. split; auto with coord. Qed.

#[export] Hint Resolve allowed_change_same allowed_change_edge : coord.

Lemma allowed_change_ban_version a v : allowed_change (OpBan a) v (ban_version a v).
Proof.
  unfold ban_version. case_decide; [|auto with coord].
  split; [auto with coord|]. subst. right; right; auto.
Qed.

Lemma allowed_change_reset o v : allowed_change o v (reset_approved v).
Proof.
  unfold reset_approved. case_decide as Hs; [|auto with coord].
  apply allowed_change_edge. rewrite Hs. constructor.
Qed.

#[export] Hint Resolve allowed_change_ban_version allowed_change_reset : coord.

(** A transition at [vid] changes [vid] along an edge and nothing else. *)
Lemma transition_lookup o vid to m m' k v :
  transition vid to m = inr m' -> m !! k = Some v ->
  exists v', m' !! k = Some v' /\ allowed_change o v v'.
Proof.
  intros Ht Hk. apply transition_inr in Ht as (w & Hw & He & ->).
  destruct (decide (vid = k)) as [<-|Hne].
  - rewrite lookup_insert_eq. simplify_eq. eauto with coord.
  - rewrite lookup_insert_ne by done. eauto with coord.
Qed.

Lemma transition_fresh vid to m m' k :
  transition vid to m = inr m' -> m !! k = None -> m' !! k = None.
Proof.
  intros Ht Hk. apply transition_inr in Ht as (w & Hw & _ & ->).
  rewrite lookup_insert_ne; congruence.
Qed.

Lemma apply_op_lstep o m : lstep m o (apply_op o m).
Proof.
  unfold apply_op. destruct (exec_op o m) eqn:He.
  - by eapply lstep_err. - by apply lstep_ok.
Qed.

Lemma set_status_same v : set_status (status v) v = v.
Proof. by destruct v. Qed.

(** ** The transition discipline *)

(** one step of the machine (any operation, successful or rejected)
    keeps every existing version, with its identity, and changes its
    status only along an edge of the table of spec section 4.2, or to
    [banned] by a ban of its owner. *)
Theorem lstep_allowed_change m o m' k v :
  lstep m o m' -> m !! k = Some v ->
  exists v', m' !! k = Some v' /\ allowed_change o v v'.
Proof.
  intros Hs Hk. destruct Hs as [o m m' Hx|o m e Hx]; [|eauto with coord].
  destruct o as [w|vid to|a|vid|]; simpl in Hx.
  - apply create_version_inr in Hx as (Hn & _ & ->).
    rewrite lookup_insert_ne by congruence. eauto with coord.
  - eauto using transition_lookup.
  - simplify_eq. rewrite lookup_ban_agent, Hk. eauto with coord.
  - apply approve_version_inr in Hx as [->|Hx]; eauto using transition_lookup with coord.
  - simplify_eq. rewrite lookup_fmap, Hk. eauto with coord.
Qed.

(** A version appears in the store only by [create_version], under its
    own id and in [awaiting_screening]. *)
Lemma lstep_new_entry m o m' k v' :
  lstep m o m' -> m !! k = None -> m' !! k = Some v' ->
  o = OpCreate v' /\ status v' = awaiting_screening /\ version_id v' = k.
Proof.
  intros Hs Hk Hk'. destruct Hs as [o m m' Hx|o m e Hx]; [|congruence].
  destruct o as [w|vid to|a|vid|]; simpl in Hx.
  - apply create_version_inr in Hx as (Hn & Hw & ->).
    destruct (decide (version_id w = k)) as [<-|Hne].
    + rewrite lookup_insert_eq in Hk'. by simplify_eq.
    + rewrite lookup_insert_ne in Hk' by done. congruence.
  - erewrite transition_fresh in Hk' by eauto. discriminate.
  - simplify_eq. by rewrite lookup_ban_agent, Hk in Hk'.
  - apply approve_version_inr in Hx as [->|Hx]; [congruence|].
    erewrite transition_fresh in Hk' by eauto. discriminate.
  - simplify_eq. by rewrite lookup_fmap, Hk in Hk'.
Qed.

(** well-formedness (each version stored under its own id) is an
    invariant: every step of the machine preserves it. *)
Theorem lstep_preserves_wf m o m' :
  store_wf m -> lstep m o m' -> store_wf m'.
Proof.
  intros Hwf Hs k v' Hk'. destruct (m !! k) as [v|] eqn:Hk.
  - destruct (lstep_allowed_change _ _ _ _ _ Hs Hk) as (v'' & Hk'' & (Hid & _) & _).
    simplify_eq. rewrite Hid. exact (Hwf k v Hk).
  - by destruct (lstep_new_entry _ _ _ _ _ Hs Hk Hk') as (_ & _ & ?).
Qed.

Corollary reachable_store_wf m : reachable m -> store_wf m.
Proof.
  induction 1; [apply map_Forall_empty|]. eauto using lstep_preserves_wf.
Qed.

(** [banned] is absorbing: once a version is banned no operation of
    the machine takes it out of [banned] (unbanning is not part of this
    API, spec section 4.2). *)
Theorem banned_absorbing m o m' k v :
  lstep m o m' -> m !! k = Some v -> status v = banned ->
  exists v', m' !! k = Some v' /\ status v' = banned.
Proof.
  intros Hs Hk Hb.
  destruct (lstep_allowed_change _ _ _ _ _ Hs Hk) as (v' & Hk' & _ & Hc).
  exists v'. split; [done|]. rewrite Hb in Hc.
  destruct Hc as [?|[Hc|[_ ?]]]; [done| |done].
  by apply edge_not_from_banned in Hc.
Qed.

Lemma lstep_may_follow m o m' k :
  lstep m o m' -> may_follow (status <$> m !! k) (status <$> m' !! k).
Proof.
  intros Hs. destruct (m !! k) as [v|] eqn:Hk.
  - destruct (lstep_allowed_change _ _ _ _ _ Hs Hk) as (v' & -> & _ & Hc).
    simpl. destruct Hc as [?|[?|[_ ?]]]; auto.
  - destruct (m' !! k) as [v'|] eqn:Hk'; simpl; [|done].
    by destruct (lstep_new_entry _ _ _ _ _ Hs Hk Hk') as (_ & ? & _).
Qed.

Lemma may_follow_refl (o : option agent_status) : may_follow o o.
Proof. destruct o; simpl; auto. Qed.

Lemma observed_run_head m os k :
  exists tl, observed k (run m os) = (status <$> m !! k) :: tl.
Proof. destruct os; eexists; reflexivity. Qed.

(** along any run of the machine, the statuses observed for a version
    id form a walk: the version is created in [awaiting_screening], and
    each later observation is the same status, an edge of the table, or
    [banned] (spec section 8, first property). *)
Theorem run_walk m os k : LocallySorted may_follow (observed k (run m os)).
Proof.
  revert m. induction os as [|o os IH]; intros m; [constructor|].
  simpl. destruct (observed_run_head (apply_op o m) os k) as [tl Htl].
  specialize (IH (apply_op o m)). unfold observed in IH, Htl |- *.
  rewrite Htl in IH |- *. constructor; [done|].
  apply (lstep_may_follow _ o), apply_op_lstep.
Qed.

(** ** Administrative operations *)

(** Every stored version of the agent [a] is banned. *)
Definition all_banned (a : string) (m : vstore) : Prop :=
  forall k v, m !! k = Some v -> miner_hotkey v = a -> status v = banned.

(** A step that creates no version keeps an agent banned: its versions
    stay banned ([banned] is absorbing) and no new one appears. *)
Lemma lstep_all_banned a m o m' :
  all_banned a m -> lstep m o m' -> (forall v, o <> OpCreate v) -> all_banned a m'.
Proof.
  intros Hb Hs Ho k v' Hk' Ha. destruct (m !! k) as [v|] eqn:Hk.
  - destruct (lstep_allowed_change _ _ _ _ _ Hs Hk) as (v'' & Hk'' & (_ & Hm & _) & Hc).
    rewrite Hk' in Hk''. injection Hk'' as <-. rewrite Hm in Ha. specialize (Hb k v Hk Ha).
    rewrite Hb in Hc. destruct Hc as [?|[Hc|[_ ?]]]; [done| |done].
    by apply edge_not_from_banned in Hc.
  - destruct (lstep_new_entry _ _ _ _ _ Hs Hk Hk') as (-> & _). by destruct (Ho v').
Qed.

(** [ban_agent a] bans every version owned by [a], whatever its
    status, leaves every version of another agent unchanged, and adds no
    version (spec section 8, second property). *)
Theorem ban_agent_spec a m k :
  (forall v, m !! k = Some v -> miner_hotkey v = a ->
             ban_agent a m !! k = Some (set_status banned v)) /\
  (forall v, m !! k = Some v -> miner_hotkey v <> a ->
             ban_agent a m !! k = Some v) /\
  (m !! k = None -> ban_agent a m !! k = None).
Proof.
  rewrite lookup_ban_agent. unfold ban_version.
  split; [|split]; intros; simplify_option_eq; done.
Qed.

Lemma ban_agent_all_banned a m : all_banned a (ban_agent a m).
Proof.
  intros k v Hk Ha. rewrite lookup_ban_agent in Hk.
  destruct (m !! k) as [v0|]; [|done]. injection Hk as <-. unfold ban_version in *.
  destruct (decide (miner_hotkey v0 = a)) as [_|Hne]; [apply status_set_status|done].
Qed.

Lemma reset_approved_idem v : reset_approved (reset_approved v) = reset_approved v.
Proof. unfold reset_approved. repeat case_decide; simplify_eq/=; done. Qed.

Lemma reset_approved_not_approved v : status (reset_approved v) <> approved.
Proof. unfold reset_approved. case_decide; simpl; congruence. Qed.

(** [re_evaluate_approved_agents] returns exactly the versions that
    are [approved] at call time, moves each of them (and only them) back
    to [awaiting_screening], and leaves no version [approved]. *)
Theorem re_evaluate_spec m :
  (forall v, v ∈ (re_evaluate_approved_agents m).1 <->
             exists k, m !! k = Some v /\ status v = approved) /\
  (forall k v, m !! k = Some v -> status v = approved ->
     (re_evaluate_approved_agents m).2 !! k = Some (set_status awaiting_screening v)) /\
  (forall k v, m !! k = Some v -> status v <> approved ->
     (re_evaluate_approved_agents m).2 !! k = Some v) /\
  (forall k v, (re_evaluate_approved_agents m).2 !! k = Some v -> status v <> approved).
Proof.
  split; [apply elem_of_approved_versions|].
  simpl. setoid_rewrite lookup_fmap. unfold reset_approved.
  split; [|split]; intros k v Hk; [intros Hs|intros Hs|]; rewrite ?Hk; simpl.
  - by rewrite decide_True.
  - by rewrite decide_False.
  - destruct (m !! k) as [w|]; simplify_eq/=.
    apply (reset_approved_not_approved w).
Qed.

(** re-evaluation is idempotent: a second call made right after the
    first returns the empty set and changes nothing (spec section 8,
    third property). *)
Theorem re_evaluate_idempotent m :
  let m1 := (re_evaluate_approved_agents m).2 in
  re_evaluate_approved_agents m1 = ([], m1).
Proof.
  simpl. unfold re_evaluate_approved_agents. f_equal.
  - apply elem_of_nil_inv. intros v Hv.
    apply elem_of_approved_versions in Hv as (k & Hk & Hs).
    rewrite lookup_fmap in Hk. destruct (m !! k) as [w|]; simplify_eq/=.
    by apply (reset_approved_not_approved w).
  - rewrite <- map_fmap_compose. apply map_fmap_ext. intros. apply reset_approved_idem.
Qed.

(** [approve_version] fails with [NotFound] on an unknown version and
    with [InvalidTransition] on a banned one or on one whose status has no
    edge to [approved]; an evaluating or approved version ends approved,
    and nothing else changes. *)
Theorem approve_version_spec vid m :
  (m !! vid = None -> approve_version vid m = inl NotFound) /\
  (forall v, m !! vid = Some v ->
     (status v = evaluating \/ status v = approved) ->
     approve_version vid m = inr (<[vid := set_status approved v]> m)) /\
  (forall v, m !! vid = Some v ->
     status v <> evaluating -> status v <> approved ->
     approve_version vid m = inl InvalidTransition).
Proof.
  unfold approve_version, transition.
  split; [|split]; [by intros ->| |]; intros v Hv; rewrite Hv.
  - intros [Hs|Hs]; rewrite Hs; simpl; [done|].
    rewrite <- Hs, set_status_same. by rewrite insert_id.
  - intros Hs1 Hs2. destruct (status v); simpl; congruence.
Qed.

(** ** Witnesses on a concrete store *)

Definition demo_store : vstore :=
  <["v1" := AgentVersion "v1" "alice" approved 1]>
  (<["v2" := AgentVersion "v2" "alice" evaluating 2]>
  (<["v3" := AgentVersion "v3" "bob" rejected 3]> ∅)).

Lemma lstep_allowed_change_witness :
  exists v', apply_op (OpBan "bob") demo_store !! "v3" = Some v' /\
             allowed_change (OpBan "bob") (AgentVersion "v3" "bob" rejected 3) v'.
Proof.
  apply (lstep_allowed_change demo_store (OpBan "bob")).
  - apply apply_op_lstep.
  - reflexivity.
Defined.

Lemma lstep_preserves_wf_witness :
  store_wf (apply_op (OpTransition "v2" rejected) demo_store).
Proof.
  apply (lstep_preserves_wf demo_store (OpTransition "v2" rejected)).
  - unfold store_wf. apply (bool_decide_unpack _). vm_compute. reflexivity.
  - apply apply_op_lstep.
Defined.

Lemma banned_absorbing_witness :
  exists v', apply_op OpReEvaluate (ban_agent "alice" demo_store) !! "v1" = Some v' /\
             status v' = banned.
Proof.
  apply (banned_absorbing (ban_agent "alice" demo_store) OpReEvaluate _ "v1"
           (set_status banned (AgentVersion "v1" "alice" approved 1))).
  - apply apply_op_lstep.
  - reflexivity.
  - reflexivity.
Defined.

Lemma ban_agent_spec_witness :
  ban_agent "alice" demo_store !! "v2" =
    Some (set_status banned (AgentVersion "v2" "alice" evaluating 2)) /\
  ban_agent "alice" demo_store !! "v3" = Some (AgentVersion "v3" "bob" rejected 3).
Proof.
  split.
  - apply (proj1 (ban_agent_spec "alice" demo_store "v2")); reflexivity.
  - apply (proj1 (proj2 (ban_agent_spec "alice" demo_store "v3"))); [reflexivity|].
    discriminate.
Defined.

Lemma re_evaluate_spec_witness :
  (re_evaluate_approved_agents demo_store).2 !! "v1" =
    Some (set_status awaiting_screening (AgentVersion "v1" "alice" approved 1)) /\
  (re_evaluate_approved_agents demo_store).2 !! "v2" =
    Some (AgentVersion "v2" "alice" evaluating 2).
Proof.
  split.
  - apply (proj1 (proj2 (re_evaluate_spec demo_store))); reflexivity.
  - apply (proj1 (proj2 (proj2 (re_evaluate_spec demo_store)))); [reflexivity|].
    discriminate.
Defined.

Lemma approve_version_spec_witness :
  approve_version "v2" demo_store =
    inr (<["v2" := set_status approved (AgentVersion "v2" "alice" evaluating 2)]> demo_store) /\
  approve_version "v3" demo_store = inl InvalidTransition /\
  approve_version "v9" demo_store = inl NotFound.
Proof.
  split; [|split].
  - apply (proj1 (proj2 (approve_version_spec "v2" demo_store))); [reflexivity|].
    left; reflexivity.
  - apply (proj2 (proj2 (approve_version_spec "v3" demo_store))
             (AgentVersion "v3" "bob" rejected 3)); [reflexivity|discriminate|discriminate].
  - apply (proj1 (approve_version_spec "v9" demo_store)). reflexivity.
Defined.

Example demo_walk :
  observed "v2" (run demo_store [OpTransition "v2" approved; OpReEvaluate; OpBan "alice"]) =
    [Some evaluating; Some approved; Some awaiting_screening; Some banned].
Proof. reflexivity. Qed.

End Lifecycle.
