(* ===== verification/Evaluations.v ===== *)
(** * Evaluations: the pending-evaluation store and its atomic assignment

    Modelled from spec sections 3, 4.3 and 5: the persistence query
    [get_next_evaluation_for_validator] (api/src/backend/queries/) is not
    part of the sources; [handle_get_next_evaluation.py] only calls it.
    Evaluations are kept as a list in creation order.  A request selects
    the oldest pending evaluation and assigns it to the requesting
    validator in one step: the step is the compare-and-swap of spec
    section 5, and concurrent requests are modelled as the sequence of
    their atomic steps in some interleaving ([dispatch_run]). *)

From S2P Require Import Prelude.

Module Evaluations.

Inductive eval_state :=
| Pending
| Assigned (validator_hotkey : string)
| Complete.

#[export] Instance eval_status_eq_dec : EqDecision eval_state.
Proof. solve_decision. Defined.

Record evaluation := Evaluation {
  evaluation_id : string;
  eval_version_id : string;
  eval_status : eval_state;
  eval_created_at : Z
}.

#[export] Instance evaluation_eq_dec : EqDecision evaluation.
Proof. solve_decision. Defined.

Definition is_pending (e : evaluation) : bool :=
  match eval_status e with Pending => true | _ => false end.

Definition set_eval_status (s : eval_state) (e : evaluation) : evaluation :=
  {| evaluation_id := evaluation_id e; eval_version_id := eval_version_id e;
     eval_status := s; eval_created_at := eval_created_at e |}.

(** The oldest pending evaluation; among equally old ones, the first. *)
Fixpoint oldest_pending (l : list evaluation) : option evaluation :=
  match l with
  | [] => None
  | e :: l' =>
      let r := oldest_pending l' in
      if is_pending e then
        match r with
        | Some e' => if Z.leb (eval_created_at e) (eval_created_at e') then Some e else Some e'
        | None => Some e
        end
      else r
  end.

(** The compare-and-swap: an evaluation with id [eid] is assigned only if
    it is still pending. *)
Definition assign_one (eid hk : string) (e : evaluation) : evaluation :=
  if bool_decide (evaluation_id e = eid) && is_pending e
  then set_eval_status (Assigned hk) e else e.

Definition assign_eval (eid hk : string) (l : list evaluation) : list evaluation :=
  assign_one eid hk <$> l.

(** [get_next_evaluation_for_validator]: [None] when nothing is pending. *)
Definition get_next_evaluation_for_validator (hk : string) (l : list evaluation)
    : option evaluation * list evaluation :=
  match oldest_pending l with
  | None => (None, l)
  | Some e => (Some (set_eval_status (Assigned hk) e),
               assign_eval (evaluation_id e) hk l)
  end.

(** An interleaving of requests, one atomic step each: the answers in
    order, and the final store. *)
Fixpoint dispatch_run (hks : list string) (l : list evaluation)
    : list (option evaluation) * list evaluation :=
  match hks with
  | [] => ([], l)
  | hk :: hks' =>
      let '(r, l1) := get_next_evaluation_for_validator hk l in
      let '(rs, l2) := dispatch_run hks' l1 in
      (r :: rs, l2)
  end.

Definition pending_ids (l : list evaluation) : list string :=
  evaluation_id <$> filter (fun e => is_pending e = true) l.

Definition answered_ids (rs : list (option evaluation)) : list string :=
  evaluation_id <$> omap id rs.

(** ** Lemmas *)

Section OldestPending.
Implicit Types (l : list evaluation) (e : evaluation).

Lemma oldest_pending_None l :
  oldest_pending l = None -> forall e, e ∈ l -> is_pending e = false.
Proof.
  induction l as [|x l IH]; intros H e Hin; [by apply elem_of_nil in Hin|].
  simpl in H. destruct (is_pending x) eqn:Hx.
  - destruct (oldest_pending l); [case_match|]; discriminate.
  - apply elem_of_cons in Hin as [->|Hin]; auto.
Qed.

Lemma oldest_pending_None_intro l :
  (forall e, e ∈ l -> is_pending e = false) -> oldest_pending l = None.
Proof.
  induction l as [|x l IH]; intros H; simpl; [done|].
  rewrite H by left. apply IH. intros e ?. apply H. by right.
Qed.

Lemma oldest_pending_spec l e :
  oldest_pending l = Some e ->
  e ∈ l /\ is_pending e = true /\
  forall e', e' ∈ l -> is_pending e' = true -> (eval_created_at e <= eval_created_at e')%Z.
Proof.
  revert e. induction l as [|x l IH]; intros e H; [discriminate|]. simpl in H.
  destruct (is_pending x) eqn:Hx; destruct (oldest_pending l) as [y|] eqn:Hy.
  - destruct (IH y eq_refl) as (Hin & Hp & Hmin).
    destruct (Z.leb_spec (eval_created_at x) (eval_created_at y)); simplify_eq.
    + split_and!; [left|done|]. intros e' [->|Hin']%elem_of_cons Hp'; [lia|].
      specialize (Hmin e' Hin' Hp'). lia.
    + split_and!; [by right|done|]. intros e' [->|Hin']%elem_of_cons Hp'; [lia|].
      by apply Hmin.
  - simplify_eq. split_and!; [left|done|].
    intros e' [->|Hin']%elem_of_cons Hp'; [lia|].
    by rewrite (oldest_pending_None l Hy e' Hin') in Hp'.
  - destruct (IH e H) as (Hin & Hp & Hmin). split_and!; [by right|done|].
    intros e' [->|Hin']%elem_of_cons Hp'; [congruence|]. by apply Hmin.
  - discriminate.
Qed.

End OldestPending.

Lemma is_pending_assign_one eid hk e :
  is_pending (assign_one eid hk e) = is_pending e && negb (bool_decide (evaluation_id e = eid)).
Proof.
  unfold assign_one. destruct (bool_decide _) eqn:Hb, (is_pending e) eqn:Hp; simpl;
    rewrite ?Hp; done.
Qed.

Lemma evaluation_id_assign_one eid hk e : evaluation_id (assign_one eid hk e) = evaluation_id e.
Proof. unfold assign_one. by destruct (_ && _). Qed.

Lemma elem_of_pending_ids x l :
  x ∈ pending_ids l <-> exists e, e ∈ l /\ is_pending e = true /\ evaluation_id e = x.
Proof.
  unfold pending_ids. rewrite list_elem_of_fmap. setoid_rewrite list_elem_of_filter.
  naive_solver.
Qed.

(** After assigning [eid], the pending ids are the old ones but [eid]. *)
Lemma pending_ids_assign_eval eid hk l x :
  x ∈ pending_ids (assign_eval eid hk l) <-> x ∈ pending_ids l /\ x <> eid.
Proof.
  rewrite !elem_of_pending_ids. unfold assign_eval. setoid_rewrite list_elem_of_fmap.
  split.
  - intros (? & (e & -> & Hin) & Hp & Hid).
    rewrite is_pending_assign_one in Hp. rewrite evaluation_id_assign_one in Hid.
    apply andb_prop in Hp as [Hp Hn]. apply negb_true_iff, bool_decide_eq_false in Hn.
    split; [eauto|congruence].
  - intros [(e & Hin & Hp & Hid) Hne]. exists (assign_one eid hk e).
    rewrite is_pending_assign_one, evaluation_id_assign_one, Hp.
    split_and!; [eauto| |done]. simpl. by rewrite bool_decide_eq_false_2 by congruence.
Qed.

Lemma get_next_Some hk l r l' :
  get_next_evaluation_for_validator hk l = (Some r, l') ->
  exists e, oldest_pending l = Some e /\ r = set_eval_status (Assigned hk) e /\
            l' = assign_eval (evaluation_id e) hk l.
Proof.
  unfold get_next_evaluation_for_validator.
  destruct (oldest_pending l) eqn:Ho; intros H; simplify_eq; eauto.
Qed.

Lemma get_next_None hk l l' :
  get_next_evaluation_for_validator hk l = (None, l') ->
  l' = l /\ forall e, e ∈ l -> is_pending e = false.
Proof.
  unfold get_next_evaluation_for_validator.
  destruct (oldest_pending l) eqn:Ho; intros H; simplify_eq.
  eauto using oldest_pending_None.
Qed.

Lemma answered_ids_cons_Some r rs :
  answered_ids (Some r :: rs) = evaluation_id r :: answered_ids rs.
Proof. reflexivity. Qed.

Lemma answered_ids_cons_None rs : answered_ids (None :: rs) = answered_ids rs.
Proof. reflexivity. Qed.

Lemma oldest_pending_pending_id l e :
  oldest_pending l = Some e -> evaluation_id e ∈ pending_ids l.
Proof.
  intros (Hin & Hp & _)%oldest_pending_spec. apply elem_of_pending_ids. eauto.
Qed.

(** Exclusive assignment: in any interleaving of requests, no evaluation
    is handed out twice, and only pending evaluations are handed out. *)
Theorem dispatch_run_exclusive hks l :
  NoDup (answered_ids (dispatch_run hks l).1) /\
  forall x, x ∈ answered_ids (dispatch_run hks l).1 -> x ∈ pending_ids l.
Proof.
  revert l. induction hks as [|hk hks IH]; intros l; simpl.
  { split; [constructor|]. intros x Hx. by apply elem_of_nil in Hx. }
  destruct (get_next_evaluation_for_validator hk l) as [[r|] l1] eqn:G;
    destruct (dispatch_run hks l1) as [rs l2] eqn:D; simpl;
    specialize (IH l1); rewrite D in IH; destruct IH as [Hnd Hsub]; simpl in *.
  - apply get_next_Some in G as (e & Ho & -> & ->).
    rewrite answered_ids_cons_Some. simpl. split.
    + constructor; [|done]. intros Hin.
      by apply Hsub, pending_ids_assign_eval in Hin as [_ ?].
    + intros x [->|Hx]%elem_of_cons; [by apply oldest_pending_pending_id|].
      by apply Hsub, pending_ids_assign_eval in Hx as [? _].
  - apply get_next_None in G as [-> _]. by rewrite answered_ids_cons_None.
Qed.

End Evaluations.
