(* ===== verification/Registry.v ===== *)
(** * Registry: the live validator connections (ConnectionRegistry)

    Modelled from spec section 4.1: [api/src/socket/websocket_manager.py]
    ([WebSocketManager]) is not part of the sources; [scoring.py] calls
    its [send_to_all_validators].  The registry maps a validator hotkey to
    a channel id, and the channels themselves live in a separate store, so
    that closing the channel replaced by a reconnection is a change of the
    shared channel object (what the old handler still holds), not of the
    map.  A channel that the peer dropped stays registered but closed until
    its handler deregisters it; sending to it fails. *)

From S2P Require Import Prelude.

Module Registry.

Record channel := Channel {
  chan_owner : string;
  chan_open : bool;
  chan_outbox : list json
}.

Record registry := Registry {
  conns : gmap string nat;
  chans : gmap nat channel;
  next_chan : nat
}.

Definition empty_registry : registry := Registry ∅ ∅ 0.

Definition close_chan (c : channel) : channel :=
  Channel (chan_owner c) false (chan_outbox c).

Definition deliver (msg : json) (c : channel) : channel :=
  Channel (chan_owner c) (chan_open c) (chan_outbox c ++ [msg]).

(** [register(hotkey, channel)]: a fresh open channel replaces any entry
    for the hotkey; the previous channel is closed. *)
Definition close_opt (o : option nat) (cs : gmap nat channel) : gmap nat channel :=
  match o with Some id => alter close_chan id cs | None => cs end.

Definition register (hk : string) (r : registry) : registry :=
  let cs := close_opt (conns r !! hk) (chans r) in
  {| conns := <[hk := next_chan r]> (conns r);
     chans := <[next_chan r := Channel hk true []]> cs;
     next_chan := S (next_chan r) |}.

(** [deregister(hotkey)], called when the connection ends: the entry goes
    and its channel is closed; idempotent. *)
Definition deregister (hk : string) (r : registry) : registry :=
  let cs := close_opt (conns r !! hk) (chans r) in
  {| conns := delete hk (conns r); chans := cs; next_chan := next_chan r |}.

(** The peer of channel [id] went away (a network event). *)
Definition drop_channel (id : nat) (r : registry) : registry :=
  {| conns := conns r; chans := alter close_chan id (chans r); next_chan := next_chan r |}.

Definition open_at (cs : gmap nat channel) (id : nat) : bool :=
  match cs !! id with Some c => chan_open c | None => false end.

Definition live (r : registry) (hk : string) : bool :=
  match conns r !! hk with
  | Some id => open_at (chans r) id
  | None => false
  end.

Definition deliver_open (msg : json) (c : channel) : channel :=
  if chan_open c then deliver msg c else c.

(** [send_to(hotkey, message)]: [NotConnected] unless the hotkey has a
    live channel; otherwise the message is queued on it. *)
Definition send_to (hk : string) (msg : json) (r : registry) : core_error + registry :=
  match conns r !! hk with
  | None => inl NotConnected
  | Some id =>
      match chans r !! id with
      | Some c =>
          if chan_open c
          then inr {| conns := conns r; chans := <[id := deliver msg c]> (chans r);
                      next_chan := next_chan r |}
          else inl NotConnected
      | None => inl NotConnected
      end
  end.

(** [websocket.send_text(...)] on the connection object [id] a handler
    was given: [NotConnected] once that connection is closed, whichever
    hotkey it was registered for. *)
Definition send_on (id : nat) (msg : json) (r : registry) : core_error + registry :=
  match chans r !! id with
  | Some c =>
      if chan_open c
      then inr {| conns := conns r; chans := <[id := deliver msg c]> (chans r);
                  next_chan := next_chan r |}
      else inl NotConnected
  | None => inl NotConnected
  end.

(** One isolated send per registered (hotkey, channel): a failure is
    recorded and the next send goes on. *)
Fixpoint send_all (msg : json) (ts : list (string * nat)) (cs : gmap nat channel)
    : gmap nat channel * list string :=
  match ts with
  | [] => (cs, [])
  | (hk, id) :: ts' =>
      match cs !! id with
      | Some c =>
          if chan_open c then send_all msg ts' (<[id := deliver msg c]> cs)
          else let '(cs', fails) := send_all msg ts' cs in (cs', hk :: fails)
      | None => let '(cs', fails) := send_all msg ts' cs in (cs', hk :: fails)
      end
  end.

(** [broadcast(message)]: the new registry and the hotkeys whose send
    failed (each logged once by the caller). *)
Definition broadcast (msg : json) (r : registry) : registry * list string :=
  let '(cs, fails) := send_all msg (map_to_list (conns r)) (chans r) in
  ({| conns := conns r; chans := cs; next_chan := next_chan r |}, fails).

(** Well-formedness: a registered channel exists and belongs to its
    hotkey, every channel id is below the id counter, and every open
    channel is the one registered for its owner (so a hotkey has at most
    one live channel). *)
Definition reg_wf (r : registry) : Prop :=
  (forall hk id, conns r !! hk = Some id ->
     exists c, chans r !! id = Some c /\ chan_owner c = hk) /\
  (forall id c, chans r !! id = Some c -> id < next_chan r) /\
  (forall id c, chans r !! id = Some c -> chan_open c = true ->
     conns r !! chan_owner c = Some id).

(** ** Lemmas *)

Lemma empty_registry_wf : reg_wf empty_registry.
Proof. split_and!; intros *; rewrite ?lookup_empty; discriminate. Qed.

Lemma send_to_live hk msg r :
  live r hk = true -> exists r', send_to hk msg r = inr r'.
Proof.
  unfold live, open_at, send_to. destruct (conns r !! hk) as [id|]; [|discriminate].
  destruct (chans r !! id) as [c|]; [|discriminate]. intros ->. eauto.
Qed.

Lemma send_to_not_live hk msg r :
  live r hk = false -> send_to hk msg r = inl NotConnected.
Proof.
  unfold live, open_at, send_to. destruct (conns r !! hk) as [id|]; [|done].
  destruct (chans r !! id) as [c|]; [|done]. by intros ->.
Qed.

Lemma send_on_open id msg r :
  open_at (chans r) id = true ->
  exists c, chans r !! id = Some c /\
    send_on id msg r = inr {| conns := conns r; chans := <[id := deliver msg c]> (chans r);
                              next_chan := next_chan r |}.
Proof.
  unfold open_at, send_on. destruct (chans r !! id) as [c|]; [|discriminate]. intros ->. eauto.
Qed.

Lemma send_on_closed id msg r :
  open_at (chans r) id = false -> send_on id msg r = inl NotConnected.
Proof. unfold open_at, send_on. destruct (chans r !! id) as [c|]; [|done]. by intros ->. Qed.

(** A send on the live channel of a hotkey is the send to that hotkey. *)
Lemma send_to_send_on hk id msg r :
  conns r !! hk = Some id -> send_to hk msg r = send_on id msg r.
Proof. unfold send_to. by intros ->. Qed.

Lemma close_opt_lookup o cs id c :
  close_opt o cs !! id = Some c ->
  exists c0, cs !! id = Some c0 /\ chan_owner c = chan_owner c0 /\
             (chan_open c = true -> c = c0 /\ o <> Some id).
Proof.
  destruct o as [old|]; simpl; [|intros; exists c; naive_solver].
  destruct (decide (old = id)) as [<-|Hne].
  - rewrite lookup_alter_eq.
    destruct (cs !! old) as [c0|]; intros; simplify_eq/=. exists c0. naive_solver.
  - rewrite lookup_alter_ne by done. intros Hc. exists c. naive_solver.
Qed.

Lemma close_opt_is_Some o cs id c0 :
  cs !! id = Some c0 ->
  exists c, close_opt o cs !! id = Some c /\ chan_owner c = chan_owner c0.
Proof.
  intros Hc0. destruct o as [old|]; simpl; [|eauto].
  destruct (decide (old = id)) as [<-|Hne].
  - rewrite lookup_alter_eq, Hc0. simpl. eauto.
  - rewrite lookup_alter_ne by done. eauto.
Qed.

Lemma register_wf hk r : reg_wf r -> reg_wf (register hk r).
Proof.
  intros (H1 & H2 & H3). split_and!; simpl.
  - intros hk' id Hid. destruct (decide (hk = hk')) as [<-|Hne].
    + rewrite lookup_insert_eq in Hid. simplify_eq. rewrite lookup_insert_eq. eauto.
    + rewrite lookup_insert_ne in Hid by done.
      destruct (H1 _ _ Hid) as (c0 & Hc0 & Ho).
      destruct (close_opt_is_Some (conns r !! hk) _ _ _ Hc0) as (c & Hc & Hoc).
      exists c. rewrite lookup_insert_ne by (apply H2 in Hc0; lia). by rewrite Hoc.
  - intros id c Hc. destruct (decide (next_chan r = id)) as [<-|Hne]; [lia|].
    rewrite lookup_insert_ne in Hc by done.
    destruct (close_opt_lookup _ _ _ _ Hc) as (c0 & Hc0 & _). apply H2 in Hc0. lia.
  - intros id c Hc Hopen. destruct (decide (next_chan r = id)) as [<-|Hne].
    + rewrite lookup_insert_eq in Hc. simplify_eq/=. by rewrite lookup_insert_eq.
    + rewrite lookup_insert_ne in Hc by done.
      destruct (close_opt_lookup _ _ _ _ Hc) as (c0 & Hc0 & Ho & Hop).
      destruct (Hop Hopen) as [-> Hnot]. rewrite lookup_insert_ne; [by apply H3|].
      intros Heq. apply Hnot. rewrite Heq. by apply H3.
Qed.

Lemma deregister_wf hk r : reg_wf r -> reg_wf (deregister hk r).
Proof.
  intros (H1 & H2 & H3). split_and!; simpl.
  - intros hk' id Hid. destruct (decide (hk = hk')) as [<-|Hne].
    + by rewrite lookup_delete_eq in Hid.
    + rewrite lookup_delete_ne in Hid by done.
      destruct (H1 _ _ Hid) as (c0 & Hc0 & Ho).
      destruct (close_opt_is_Some (conns r !! hk) _ _ _ Hc0) as (c & Hc & Hoc).
      exists c. by rewrite Hoc.
  - intros id c Hc. destruct (close_opt_lookup _ _ _ _ Hc) as (c0 & Hc0 & _).
    by apply H2 in Hc0.
  - intros id c Hc Hopen. destruct (close_opt_lookup _ _ _ _ Hc) as (c0 & Hc0 & _ & Hop).
    destruct (Hop Hopen) as [-> Hnot]. rewrite lookup_delete_ne; [by apply H3|].
    intros Heq. apply Hnot. rewrite Heq. by apply H3.
Qed.

Lemma drop_channel_wf id r : reg_wf r -> reg_wf (drop_channel id r).
Proof.
  intros (H1 & H2 & H3). split_and!; simpl.
  - intros hk' id' Hid. destruct (H1 _ _ Hid) as (c0 & Hc0 & Ho).
    destruct (close_opt_is_Some (Some id) _ _ _ Hc0) as (c & Hc & Hoc).
    exists c. by rewrite Hoc.
  - intros id' c Hc. destruct (close_opt_lookup (Some id) _ _ _ Hc) as (c0 & Hc0 & _).
    by apply H2 in Hc0.
  - intros id' c Hc Hopen.
    destruct (close_opt_lookup (Some id) _ _ _ Hc) as (c0 & Hc0 & _ & Hop).
    destruct (Hop Hopen) as [-> _]. by apply H3.
Qed.

(** Two channel stores with the same channels up to their outboxes. *)
Definition same_shape (cs cs' : gmap nat channel) : Prop :=
  forall id, (cs' !! id = None <-> cs !! id = None) /\
    forall c', cs' !! id = Some c' ->
      exists c, cs !! id = Some c /\ chan_owner c' = chan_owner c /\ chan_open c' = chan_open c.

Lemma same_shape_refl cs : same_shape cs cs.
Proof. intros id. split; [done|]. eauto. Qed.

Lemma same_shape_trans cs1 cs2 cs3 :
  same_shape cs1 cs2 -> same_shape cs2 cs3 -> same_shape cs1 cs3.
Proof.
  intros H12 H23 id. destruct (H12 id) as [N12 S12], (H23 id) as [N23 S23].
  split; [by rewrite N23|]. intros c3 Hc3.
  destruct (S23 c3 Hc3) as (c2 & Hc2 & -> & ->). destruct (S12 c2 Hc2) as (c1 & ? & -> & ->).
  eauto.
Qed.

Lemma same_shape_deliver cs id c msg :
  cs !! id = Some c -> same_shape cs (<[id := deliver msg c]> cs).
Proof.
  intros Hc id'. destruct (decide (id = id')) as [<-|Hne].
  - rewrite lookup_insert_eq, Hc. split; [done|]. intros c' ?; simplify_eq. eauto.
  - rewrite lookup_insert_ne by done. split; [done|]. eauto.
Qed.

Lemma reg_wf_same_shape cn cs cs' n :
  same_shape cs cs' -> reg_wf (Registry cn cs n) -> reg_wf (Registry cn cs' n).
Proof.
  intros Hs (H1 & H2 & H3). split_and!; simpl in *.
  - intros hk id Hid. destruct (H1 _ _ Hid) as (c & Hc & Ho).
    destruct (cs' !! id) as [c'|] eqn:Hc'.
    + destruct (proj2 (Hs id) c' Hc') as (c0 & ? & Ho' & _). simplify_eq. eauto.
    + apply (proj1 (Hs id)) in Hc'. congruence.
  - intros id c' Hc'. destruct (proj2 (Hs id) c' Hc') as (c & Hc & _). eauto.
  - intros id c' Hc' Hop. destruct (proj2 (Hs id) c' Hc') as (c & Hc & -> & Ho).
    apply (H3 id c Hc). congruence.
Qed.



Lemma send_on_wf id msg r r' : reg_wf r -> send_on id msg r = inr r' -> reg_wf r'.
Proof.
  unfold send_on. destruct (chans r !! id) as [c|] eqn:Hc; [|discriminate].
  destruct (chan_open c); intros Hwf ?; simplify_eq.
  destruct r as [cn cs n]. eapply reg_wf_same_shape; [|exact Hwf].
  by apply same_shape_deliver.
Qed.

Lemma send_to_wf hk msg r r' : reg_wf r -> send_to hk msg r = inr r' -> reg_wf r'.
Proof.
  destruct (conns r !! hk) as [id|] eqn:Hid; [|unfold send_to; rewrite Hid; discriminate].
  rewrite (send_to_send_on _ _ _ _ Hid). apply send_on_wf.
Qed.

Lemma send_all_shape msg ts cs : same_shape cs (send_all msg ts cs).1.
Proof.
  revert cs. induction ts as [|[hk id] ts IH]; intros cs; simpl; [apply same_shape_refl|].
  destruct (cs !! id) as [c|] eqn:Hc; [destruct (chan_open c)|].
  - eapply same_shape_trans; [by apply same_shape_deliver|]. apply IH.
  - specialize (IH cs). destruct (send_all msg ts cs); exact IH.
  - specialize (IH cs). destruct (send_all msg ts cs); exact IH.
Qed.

Lemma send_all_untouched msg ts cs id :
  id ∉ ts.*2 -> (send_all msg ts cs).1 !! id = cs !! id.
Proof.
  revert cs. induction ts as [|[hk id0] ts IH]; intros cs Hid; simpl; [done|].
  rewrite fmap_cons, not_elem_of_cons in Hid. destruct Hid as [Hne Hid].
  destruct (cs !! id0) as [c|] eqn:Hc; [destruct (chan_open c)|].
  - rewrite IH by done. by rewrite lookup_insert_ne.
  - specialize (IH cs Hid). by destruct (send_all msg ts cs).
  - specialize (IH cs Hid). by destruct (send_all msg ts cs).
Qed.

Lemma send_all_touched msg ts cs id :
  NoDup ts.*2 -> id ∈ ts.*2 -> (send_all msg ts cs).1 !! id = deliver_open msg <$> cs !! id.
Proof.
  revert cs. induction ts as [|[hk id0] ts IH]; intros cs Hnd Hid; simpl;
    [by apply elem_of_nil in Hid|].
  rewrite fmap_cons, NoDup_cons in Hnd. destruct Hnd as [Hnin Hnd].
  rewrite fmap_cons, elem_of_cons in Hid.
  destruct (decide (id = id0)) as [->|Hne].
  - destruct (cs !! id0) as [c|] eqn:Hc; [destruct (chan_open c) eqn:Ho|].
    + rewrite send_all_untouched, lookup_insert_eq by done. simpl.
      unfold deliver_open. by rewrite Ho.
    + pose proof (send_all_untouched msg ts cs id0 Hnin) as Hu.
      destruct (send_all msg ts cs). simpl in *. rewrite Hu, Hc. simpl.
      unfold deliver_open. by rewrite Ho.
    + pose proof (send_all_untouched msg ts cs id0 Hnin) as Hu.
      destruct (send_all msg ts cs). simpl in *. by rewrite Hu, Hc.
  - destruct Hid as [?|Hid]; [done|].
    destruct (cs !! id0) as [c|] eqn:Hc; [destruct (chan_open c)|].
    + rewrite IH by done. by rewrite lookup_insert_ne.
    + specialize (IH cs Hnd Hid). by destruct (send_all msg ts cs).
    + specialize (IH cs Hnd Hid). by destruct (send_all msg ts cs).
Qed.

Lemma open_at_deliver cs id0 c msg id :
  id <> id0 -> open_at (<[id0 := deliver msg c]> cs) id = open_at cs id.
Proof. intros Hne. unfold open_at. by rewrite lookup_insert_ne. Qed.

Lemma send_all_fails msg ts cs hk :
  NoDup ts.*2 ->
  hk ∈ (send_all msg ts cs).2 <-> exists id, (hk, id) ∈ ts /\ open_at cs id = false.
Proof.
  revert cs. induction ts as [|[hk0 id0] ts IH]; intros cs Hnd; simpl.
  { split; [intros Hin; by apply elem_of_nil in Hin|]. intros (id & Hin & _).
    by apply elem_of_nil in Hin. }
  rewrite fmap_cons, NoDup_cons in Hnd. destruct Hnd as [Hnin Hnd].
  assert (Hother : forall id, (hk, id) ∈ ts -> id <> id0).
  { intros id Hin ->. apply Hnin. apply list_elem_of_fmap. by exists (hk, id0). }
  destruct (cs !! id0) as [c|] eqn:Hc; [destruct (chan_open c) eqn:Ho|].
  - rewrite IH by done. setoid_rewrite elem_of_cons. split.
    + intros (id & Hin & Hop). exists id. rewrite open_at_deliver in Hop by eauto. eauto.
    + intros (id & [Heq|Hin] & Hop).
      * simplify_eq. unfold open_at in Hop. rewrite Hc in Hop. congruence.
      * exists id. rewrite open_at_deliver by eauto. eauto.
  - specialize (IH cs Hnd). destruct (send_all msg ts cs) as [cs' f]. simpl in *.
    rewrite elem_of_cons, IH. setoid_rewrite elem_of_cons. split.
    + intros [->|(id & Hin & Hop)]; [exists id0; unfold open_at; rewrite Hc; eauto|eauto].
    + intros (id & [Heq|Hin] & Hop); [simplify_eq; by left|right; eauto].
  - specialize (IH cs Hnd). destruct (send_all msg ts cs) as [cs' f]. simpl in *.
    rewrite elem_of_cons, IH. setoid_rewrite elem_of_cons. split.
    + intros [->|(id & Hin & Hop)]; [exists id0; unfold open_at; rewrite Hc; eauto|eauto].
    + intros (id & [Heq|Hin] & Hop); [simplify_eq; by left|right; eauto].
Qed.

Lemma send_all_fails_sub msg ts cs hk :
  hk ∈ (send_all msg ts cs).2 -> hk ∈ ts.*1.
Proof.
  revert cs. induction ts as [|[hk0 id0] ts IH]; intros cs; simpl;
    [intros Hin; by apply elem_of_nil in Hin|].
  rewrite elem_of_cons.
  destruct (cs !! id0) as [c|]; [destruct (chan_open c)|]; [eauto| |];
    specialize (IH cs); destruct (send_all msg ts cs); simpl in *;
    rewrite elem_of_cons; intuition auto.
Qed.

Lemma send_all_fails_NoDup msg ts cs : NoDup ts.*1 -> NoDup (send_all msg ts cs).2.
Proof.
  revert cs. induction ts as [|[hk0 id0] ts IH]; intros cs Hnd; simpl; [constructor|].
  rewrite fmap_cons, NoDup_cons in Hnd. destruct Hnd as [Hnin Hnd].
  destruct (cs !! id0) as [c|]; [destruct (chan_open c)|]; [by apply IH| |];
    pose proof (send_all_fails_sub msg ts cs hk0) as Hsub;
    specialize (IH cs Hnd); destruct (send_all msg ts cs); simpl in *;
    constructor; auto.
Qed.

Lemma elem_of_conn_ids (m : gmap string nat) id :
  id ∈ (map_to_list m).*2 <-> exists hk, m !! hk = Some id.
Proof.
  rewrite list_elem_of_fmap. split.
  - intros ([hk id'] & -> & Hin%elem_of_map_to_list). eauto.
  - intros (hk & Hhk). exists (hk, id). split; [done|]. by apply elem_of_map_to_list.
Qed.

Lemma conn_ids_NoDup r : reg_wf r -> NoDup (map_to_list (conns r)).*2.
Proof.
  intros (H1 & _ & _). apply NoDup_fmap_2_strong; [|apply NoDup_map_to_list].
  intros [hk1 id1] [hk2 id2] Hin1%elem_of_map_to_list Hin2%elem_of_map_to_list Heq.
  simpl in *. subst.
  destruct (H1 _ _ Hin1) as (c1 & Hc1 & Ho1), (H1 _ _ Hin2) as (c2 & Hc2 & Ho2).
  congruence.
Qed.

(** [broadcast] under the registry invariant: the invariant holds after
    it; the message is queued exactly once on every live registered
    channel; a closed registered channel and any unregistered channel are
    left as they were; the failures are exactly the registered hotkeys
    without a live channel, each reported once. *)
Theorem broadcast_spec msg r :
  reg_wf r ->
  let '(r', fails) := broadcast msg r in
  reg_wf r' /\ conns r' = conns r /\
  (forall hk id, conns r !! hk = Some id -> chans r' !! id = deliver_open msg <$> chans r !! id) /\
  (forall id, (forall hk, conns r !! hk <> Some id) -> chans r' !! id = chans r !! id) /\
  (forall hk, hk ∈ fails <-> is_Some (conns r !! hk) /\ live r hk = false) /\
  NoDup fails.
Proof.
  intros Hwf. unfold broadcast.
  pose proof (conn_ids_NoDup r Hwf) as Hnd.
  pose proof (send_all_shape msg (map_to_list (conns r)) (chans r)) as Hsh.
  pose proof (send_all_touched msg (map_to_list (conns r)) (chans r)) as Ht.
  pose proof (send_all_untouched msg (map_to_list (conns r)) (chans r)) as Hu.
  pose proof (send_all_fails msg (map_to_list (conns r)) (chans r)) as Hf.
  pose proof (send_all_fails_NoDup msg (map_to_list (conns r)) (chans r)
                (NoDup_fst_map_to_list _)) as Hfnd.
  destruct (send_all msg (map_to_list (conns r)) (chans r)) as [cs fails]. simpl in *.
  split_and!; [|done| | | |done].
  - destruct r as [cn cs0 n]. eapply reg_wf_same_shape; [exact Hsh|exact Hwf].
  - intros hk id Hid. apply Ht; [done|]. apply elem_of_conn_ids. eauto.
  - intros id Hnone. apply Hu. rewrite elem_of_conn_ids. intros [hk ?]. by apply (Hnone hk).
  - intros hk. rewrite Hf by done. unfold live. split.
    + intros (id & Hin%elem_of_map_to_list & Hop). rewrite Hin. eauto.
    + intros [[id Hid] Hl]. rewrite Hid in Hl. exists id.
      split; [by apply elem_of_map_to_list|done].
Qed.

End Registry.
