(* ===== verification/Consensus.v ===== *)
(** * Consensus: the top-agent selection (ConsensusEngine)

    Modelled from spec section 4.4 and from the docstring of
    [weight_receiving_agent] (scoring.py, lines 35-39): the query
    [get_top_agent] (api/src/backend/queries/agents.py) is not part of the
    sources.  Scores are rationals ([Q]) rather than floats, so the
    3% band is computed exactly.  The steps of the algorithm are one
    definition each: latest score per (version, validator), approved
    versions scored by at least two distinct validators, the maximum
    average, the band within 3% of it, the oldest version of the band.
    [top_agent_spec] is the relational specification of the result, and
    [top_agent_refines] shows that the function implements it. *)

From S2P Require Import Prelude Lifecycle.
From Stdlib Require Import QArith Lqa.

Module Consensus.
Import Lifecycle.

Record score_row := ScoreRow {
  sr_version_id : string;
  sr_validator : string;
  sr_score : Q;
  sr_at : Z
}.

Record top_agent_record := TopAgent {
  top_version_id : string;
  top_miner_hotkey : string
}.

#[export] Instance top_agent_record_eq_dec : EqDecision top_agent_record.
Proof. solve_decision. Defined.

(** Step 1: the latest score of one validator for one version (on equal
    timestamps the earlier row is kept). *)
Fixpoint latest_score (vid val : string) (rows : list score_row) : option (Z * Q) :=
  match rows with
  | [] => None
  | r :: rows' =>
      let rest := latest_score vid val rows' in
      if decide (sr_version_id r = vid /\ sr_validator r = val) then
        match rest with
        | Some (t, q) => if Z.ltb (sr_at r) t then Some (t, q) else Some (sr_at r, sr_score r)
        | None => Some (sr_at r, sr_score r)
        end
      else rest
  end.

(** The distinct validators that scored a version. *)
Definition validators_of (vid : string) (rows : list score_row) : list string :=
  remove_dups (sr_validator <$> filter (fun r => sr_version_id r = vid) rows).

Definition latest_scores (vid : string) (rows : list score_row) : list Q :=
  omap (fun val => snd <$> latest_score vid val rows) (validators_of vid rows).

(** The aggregate score of a version: the mean of its latest scores. *)
Definition aggregate (qs : list Q) : Q :=
  fold_right Qplus 0 qs / inject_Z (Z.of_nat (length qs)).

Record candidate := Candidate {
  cand_version : agent_version;
  cand_score : Q
}.

(** Step 2: approved versions with at least two distinct validators. *)
Definition candidate_of (rows : list score_row) (v : agent_version) : option candidate :=
  if decide (status v = approved) then
    if Nat.leb 2 (length (validators_of (version_id v) rows))
    then Some (Candidate v (aggregate (latest_scores (version_id v) rows)))
    else None
  else None.

Definition candidates (m : vstore) (rows : list score_row) : list candidate :=
  omap (candidate_of rows) (map_to_list m).*2.

(** Step 3: the maximum aggregate. *)
Definition max_step (acc : Q) (c : candidate) : Q :=
  if Qle_bool acc (cand_score c) then cand_score c else acc.

Definition max_score (cs : list candidate) : Q :=
  match cs with
  | [] => 0
  | c :: cs' => fold_left max_step cs' (cand_score c)
  end.

(** Step 4: within 3% (relative) of the maximum. *)
Definition in_band (smax : Q) (c : candidate) : bool :=
  Qle_bool (smax - cand_score c) ((3 # 100) * smax).

(** Step 5: the oldest candidate (the first one on equal timestamps). *)
Fixpoint oldest (cs : list candidate) : option candidate :=
  match cs with
  | [] => None
  | c :: cs' =>
      match oldest cs' with
      | Some o => if Z.leb (created_at (cand_version c)) (created_at (cand_version o))
                  then Some c else Some o
      | None => Some c
      end
  end.

Definition record_of (c : candidate) : top_agent_record :=
  TopAgent (version_id (cand_version c)) (miner_hotkey (cand_version c)).

(** [get_top_agent]: [None] when no version qualifies. *)
Definition top_agent (m : vstore) (rows : list score_row) : option top_agent_record :=
  let cs := candidates m rows in
  record_of <$> oldest (filter (fun c => in_band (max_score cs) c = true) cs).

(** ** The specification of the top agent *)

(** A version qualifies when it is stored, approved and scored by at
    least two distinct validators. *)
Definition qualifies (m : vstore) (rows : list score_row) (v : agent_version) : Prop :=
  (exists k, m !! k = Some v) /\ status v = approved /\
  (2 <= length (validators_of (version_id v) rows))%nat.

Definition score_of (rows : list score_row) (v : agent_version) : Q :=
  aggregate (latest_scores (version_id v) rows).

(** Spec section 4.4: [None] when nothing qualifies; otherwise the record
    of a qualifying version within 3% of the best aggregate, and no older
    than any other qualifying version within the band. *)
Definition top_agent_spec (m : vstore) (rows : list score_row)
    (o : option top_agent_record) : Prop :=
  match o with
  | None => forall v, ~ qualifies m rows v
  | Some t => exists v smax,
      qualifies m rows v /\ t = TopAgent (version_id v) (miner_hotkey v) /\
      (forall w, qualifies m rows w -> score_of rows w <= smax) /\
      (exists w, qualifies m rows w /\ score_of rows w == smax) /\
      smax - score_of rows v <= (3 # 100) * smax /\
      (forall w, qualifies m rows w -> smax - score_of rows w <= (3 # 100) * smax ->
         (created_at v <= created_at w)%Z)
  end.

(** ** Lemmas *)

Section Selection.
Implicit Types (cs : list candidate) (c : candidate).

Lemma fold_step_ge_acc cs acc : acc <= fold_left max_step cs acc.
Proof.
  revert acc. induction cs as [|c cs IH]; intros acc; simpl; [apply Qle_refl|].
  eapply Qle_trans; [|apply IH]. unfold max_step.
  destruct (Qle_bool acc (cand_score c)) eqn:H; [by apply Qle_bool_iff|apply Qle_refl].
Qed.

Lemma fold_step_ge_elem cs acc c :
  c ∈ cs -> cand_score c <= fold_left max_step cs acc.
Proof.
  revert acc. induction cs as [|c' cs IH]; intros acc Hin; simpl;
    [by apply elem_of_nil in Hin|].
  apply elem_of_cons in Hin as [<-|Hin]; [|by apply IH].
  eapply Qle_trans; [|apply fold_step_ge_acc]. unfold max_step.
  destruct (Qle_bool acc (cand_score c)) eqn:H; [apply Qle_refl|].
  apply Qlt_le_weak, Qnot_le_lt. by rewrite <- Qle_bool_iff, H.
Qed.

Lemma fold_step_in cs acc :
  fold_left max_step cs acc = acc \/ exists c, c ∈ cs /\ fold_left max_step cs acc = cand_score c.
Proof.
  revert acc. induction cs as [|c cs IH]; intros acc; simpl; [by left|].
  destruct (IH (max_step acc c)) as [->|(c' & Hin & ->)].
  - unfold max_step. destruct (Qle_bool _ _); [right; exists c; split; [left|]|left]; done.
  - right. exists c'. split; [by right|done].
Qed.

Lemma max_score_ge cs c : c ∈ cs -> cand_score c <= max_score cs.
Proof.
  destruct cs as [|c0 cs]; [intros Hin; by apply elem_of_nil in Hin|].
  intros [->|Hin]%elem_of_cons; simpl; [apply fold_step_ge_acc|by apply fold_step_ge_elem].
Qed.

Lemma max_score_in cs : cs <> [] -> exists c, c ∈ cs /\ max_score cs = cand_score c.
Proof.
  destruct cs as [|c0 cs]; [done|]. intros _. simpl.
  destruct (fold_step_in cs (cand_score c0)) as [->|(c & Hin & ->)].
  - exists c0. split; [left|done].
  - exists c. split; [by right|done].
Qed.

Lemma oldest_spec cs c :
  oldest cs = Some c ->
  c ∈ cs /\ forall c', c' ∈ cs -> (created_at (cand_version c) <= created_at (cand_version c'))%Z.
Proof.
  revert c. induction cs as [|c0 cs IH]; intros c H; simpl in H; [discriminate|].
  destruct (oldest cs) as [o|] eqn:Ho.
  - destruct (IH o eq_refl) as [Hin Hmin].
    destruct (Z.leb_spec (created_at (cand_version c0)) (created_at (cand_version o)));
      simplify_eq; (split; [by constructor|]); intros c' [->|Hin']%elem_of_cons;
      try lia; specialize (Hmin c' Hin'); lia.
  - destruct cs as [|c1 cs]; [|simpl in Ho; repeat case_match; discriminate].
    simplify_eq. split; [left|]. intros c' [->|Hin]%elem_of_cons; [lia|].
    by apply elem_of_nil in Hin.
Qed.

Lemma oldest_None cs : oldest cs = None -> cs = [].
Proof. destruct cs; simpl; [done|]. repeat case_match; discriminate. Qed.
End Selection.

Lemma candidate_of_Some rows v c :
  candidate_of rows v = Some c <->
  status v = approved /\ (2 <= length (validators_of (version_id v) rows))%nat /\
  c = Candidate v (aggregate (latest_scores (version_id v) rows)).
Proof.
  unfold candidate_of. case_decide; [|naive_solver].
  destruct (Nat.leb_spec 2 (length (validators_of (version_id v) rows)));
    split; intros; destruct_and?; simplify_eq; try lia; done.
Qed.

Lemma elem_of_candidates m rows c :
  c ∈ candidates m rows <-> exists k v, m !! k = Some v /\ candidate_of rows v = Some c.
Proof.
  unfold candidates. rewrite list_elem_of_omap. setoid_rewrite list_elem_of_fmap.
  split.
  - intros (v & ([k v'] & -> & Hin%elem_of_map_to_list) & Hc). eauto.
  - intros (k & v & Hk & Hc). exists v. split; [|done]. exists (k, v).
    split; [done|]. by apply elem_of_map_to_list.
Qed.

Lemma elem_of_candidates_qualifies m rows c :
  c ∈ candidates m rows <->
  exists v, qualifies m rows v /\ c = Candidate v (score_of rows v).
Proof.
  rewrite elem_of_candidates. setoid_rewrite candidate_of_Some. unfold qualifies, score_of.
  naive_solver.
Qed.

Lemma latest_score_row vid val rows t q :
  latest_score vid val rows = Some (t, q) -> exists r, r ∈ rows /\ sr_score r = q.
Proof.
  induction rows as [|r rows IH]; simpl; [discriminate|].
  case_decide; [|intros Hr; destruct (IH Hr) as (r' & ? & ?); exists r'; split; [by right|done]].
  destruct (latest_score vid val rows) as [[t' q']|] eqn:Hl; [case_match|]; intros Hr; simplify_eq.
  - destruct (IH eq_refl) as (r' & ? & ?). exists r'. split; [by right|done].
  - exists r. split; [left|done].
  - exists r. split; [left|done].
Qed.

Lemma latest_scores_rows vid rows q :
  q ∈ latest_scores vid rows -> exists r, r ∈ rows /\ sr_score r = q.
Proof.
  unfold latest_scores. rewrite list_elem_of_omap. intros (val & _ & Hq).
  destruct (latest_score vid val rows) as [[t q']|] eqn:Hl; simplify_eq/=.
  by eapply latest_score_row.
Qed.

Lemma aggregate_nonneg qs : (forall q, q ∈ qs -> 0 <= q) -> 0 <= aggregate qs.
Proof.
  intros Hq. unfold aggregate, Qdiv. apply Qmult_le_0_compat.
  - clear -Hq. induction qs as [|q qs IH]; simpl; [apply Qle_refl|].
    assert (0 <= q) by (apply Hq; left). assert (0 <= fold_right Qplus 0 qs).
    { apply IH. intros q' ?. apply Hq. by right. }
    lra.
  - apply Qinv_le_0_compat. unfold Qle. simpl. lia.
Qed.

Lemma score_of_nonneg rows v :
  (forall r, r ∈ rows -> 0 <= sr_score r) -> 0 <= score_of rows v.
Proof.
  intros Hr. apply aggregate_nonneg. intros q (r & Hin & <-)%latest_scores_rows.
  by apply Hr.
Qed.

(** [top_agent] implements its specification, for nonnegative scores
    (with all scores negative the band around the maximum is empty). *)
Theorem top_agent_refines m rows :
  (forall r, r ∈ rows -> 0 <= sr_score r) ->
  top_agent_spec m rows (top_agent m rows).
Proof.
  intros Hnn. unfold top_agent.
  set (cs := candidates m rows).
  destruct (oldest (filter _ cs)) as [c|] eqn:Ho; simpl.
  - destruct (oldest_spec _ _ Ho) as [Hin Hmin].
    apply list_elem_of_filter in Hin as [Hband Hin].
    apply elem_of_candidates_qualifies in Hin as (v & Hq & ->).
    exists v, (max_score cs). split_and!; [done|done| | | |].
    + intros w Hw. apply (max_score_ge cs (Candidate w (score_of rows w))).
      apply elem_of_candidates_qualifies. eauto.
    + destruct (max_score_in cs) as (c' & Hc' & Heq).
      { intros Hnil. assert (Hv : Candidate v (score_of rows v) ∈ cs).
        { apply elem_of_candidates_qualifies. eauto. }
        rewrite Hnil in Hv. by apply elem_of_nil in Hv. }
      apply elem_of_candidates_qualifies in Hc' as (w & Hw & ->).
      exists w. split; [done|]. by rewrite Heq.
    + by apply Qle_bool_iff.
    + intros w Hw Hb. apply (Hmin (Candidate w (score_of rows w))).
      apply list_elem_of_filter. split; [by apply Qle_bool_iff|].
      apply elem_of_candidates_qualifies. eauto.
  - apply oldest_None in Ho. intros v Hv.
    destruct (max_score_in cs) as (c' & Hc' & Heq).
    { intros Hnil. assert (Hin : Candidate v (score_of rows v) ∈ cs).
      { apply elem_of_candidates_qualifies. eauto. }
      rewrite Hnil in Hin. by apply elem_of_nil in Hin. }
    assert (Hf : c' ∈ filter (fun c => in_band (max_score cs) c = true) cs).
    { apply list_elem_of_filter. split; [|done]. apply Qle_bool_iff.
      rewrite Heq. pose proof Hc' as Hc''.
      apply elem_of_candidates_qualifies in Hc'' as (w & _ & ->).
      pose proof (score_of_nonneg rows w Hnn). simpl. lra. }
    rewrite Ho in Hf. by apply elem_of_nil in Hf.
Qed.

(** ** The examples of spec section 8 *)

Definition ex_versions : vstore :=
  <["v1" := AgentVersion "v1" "miner1" approved 1]>
  (<["v2" := AgentVersion "v2" "miner2" approved 2]> ∅).

(** [v2] has a single validator: excluded by the two-validator rule. *)
Definition ex_rows_single : list score_row :=
  [ScoreRow "v1" "valA" (90 # 100) 10; ScoreRow "v1" "valB" (92 # 100) 11;
   ScoreRow "v2" "valA" (95 # 100) 12].

Example top_agent_two_validator_rule :
  top_agent ex_versions ex_rows_single = Some (TopAgent "v1" "miner1").
Proof. vm_compute. reflexivity. Qed.

(** Aggregates 0.95 and 0.965 are within 3%: the older [v1] wins. *)
Definition ex_rows_band : list score_row :=
  [ScoreRow "v1" "valA" (95 # 100) 10; ScoreRow "v1" "valB" (95 # 100) 11;
   ScoreRow "v2" "valA" (97 # 100) 12; ScoreRow "v2" "valB" (96 # 100) 13].

Example top_agent_band_oldest :
  top_agent ex_versions ex_rows_band = Some (TopAgent "v1" "miner1").
Proof. vm_compute. reflexivity. Qed.

End Consensus.
