(* ===== verification/World.v ===== *)
(** * World: the state of the API process and the calls its handlers make

    The handlers of [api/src] run against one world: the agent versions
    (Lifecycle), the evaluations (Evaluations), the scores read by the
    consensus query (Consensus), the validator connections (Registry),
    the process environment ([os.getenv]), the log and a clock advanced
    by [asyncio.sleep].  Every call into the persistence layer raises an
    [Exception] when the world carries an upstream failure
    ([w_db_fault]); nothing else of the layer fails.  The consensus
    policy is reached through the [TopAgentPolicy] interface. *)

From S2P Require Import Prelude PyStr Lifecycle Evaluations Registry Consensus.
From Stdlib Require Import QArith.

Module World.
Import PyStr Lifecycle Evaluations Registry Consensus.

Record world := World {
  w_versions : vstore;
  w_evals : list evaluation;
  w_scores : list score_row;
  w_registry : registry;
  w_env : gmap string string;
  w_db_fault : option string;
  w_logs : list log_record;
  w_clock : Z
}.

Definition set_versions (m : vstore) (w : world) : world :=
  World m (w_evals w) (w_scores w) (w_registry w) (w_env w) (w_db_fault w) (w_logs w) (w_clock w).
Definition set_evals (l : list evaluation) (w : world) : world :=
  World (w_versions w) l (w_scores w) (w_registry w) (w_env w) (w_db_fault w) (w_logs w) (w_clock w).
Definition set_registry (r : registry) (w : world) : world :=
  World (w_versions w) (w_evals w) (w_scores w) r (w_env w) (w_db_fault w) (w_logs w) (w_clock w).
Definition add_log (rec : log_record) (w : world) : world :=
  World (w_versions w) (w_evals w) (w_scores w) (w_registry w) (w_env w) (w_db_fault w)
    (w_logs w ++ [rec]) (w_clock w).
Definition set_logs (ls : list log_record) (w : world) : world :=
  World (w_versions w) (w_evals w) (w_scores w) (w_registry w) (w_env w) (w_db_fault w)
    ls (w_clock w).
Definition set_clock (t : Z) (w : world) : world :=
  World (w_versions w) (w_evals w) (w_scores w) (w_registry w) (w_env w) (w_db_fault w)
    (w_logs w) t.

(** ** Effects *)

Definition log (lvl : level) (msg : string) : py world unit := py_modify (add_log (lvl, msg)).

Definition getenv (name : string) : py world (option string) :=
  fun w => (Ret (w_env w !! name), w).

(** A persistence call: raises on an upstream failure, otherwise runs
    [f] on the world. *)
Definition db_call {A} (f : world -> A * world) : py world A :=
  fun w => match w_db_fault w with
           | Some msg => (Raise (Exception msg), w)
           | None => let '(a, w') := f w in (Ret a, w')
           end.

Definition core_error_message (e : core_error) : string :=
  match e with
  | NotFound => "NotFound"
  | InvalidTransition => "InvalidTransition"
  | NotConnected => "NotConnected"
  | UpstreamFailure => "UpstreamFailure"
  end.

(** A persistence call that may reject the request with an error of the
    state machine, raised as an exception. *)
Definition db_update (f : vstore -> core_error + vstore) : py world unit :=
  fun w => match w_db_fault w with
           | Some msg => (Raise (Exception msg), w)
           | None => match f (w_versions w) with
                     | inl e => (Raise (Exception (core_error_message e)), w)
                     | inr m => (Ret tt, set_versions m w)
                     end
           end.

Definition get_next_evaluation_for_validator' (hk : string) : py world (option evaluation) :=
  db_call (fun w => let '(r, l) := get_next_evaluation_for_validator hk (w_evals w) in
                    (r, set_evals l w)).

Definition get_agent_by_version_id (vid : string) : py world (option agent_version) :=
  db_call (fun w => (w_versions w !! vid, w)).

(** [await websocket.send_text(json.dumps(message))] on the connection
    object [websocket] (a channel of the registry): raises once that
    connection is closed. *)
Definition send_text (websocket : nat) (msg : json) : py world unit :=
  fun w => match send_on websocket msg (w_registry w) with
           | inl _ => (Raise (Exception "websocket is not connected"), w)
           | inr r => (Ret tt, set_registry r w)
           end.

(** [asyncio.sleep(seconds)] *)
Definition sleep (seconds : Z) : py world unit := py_modify (fun w => set_clock (w_clock w + seconds) w).

(** ** JSON of the persisted records ([model_dump(mode='json')]) *)

Definition agent_status_str (s : agent_status) : string :=
  match s with
  | awaiting_screening => "awaiting_screening"
  | screening => "screening"
  | evaluating => "evaluating"
  | approved => "approved"
  | rejected => "rejected"
  | banned => "banned"
  end.

Definition agent_version_json (v : agent_version) : json :=
  JObj [("version_id", JStr (version_id v)); ("miner_hotkey", JStr (miner_hotkey v));
        ("status", JStr (agent_status_str (status v))); ("created_at", JNum (created_at v))].

Definition top_agent_json (t : top_agent_record) : list (string * json) :=
  [("miner_hotkey", JStr (top_miner_hotkey t)); ("version_id", JStr (top_version_id t))].

(** ** The consensus policy interface *)

(** What the weight-setting code needs from the selection policy (spec
    section 9: the policy sits behind a narrow interface): a selection
    function whose answer is always a qualifying version. *)
Class TopAgentPolicy := {
  select_top : vstore -> list score_row -> option top_agent_record;
  select_top_qualifies : forall m rows t, select_top m rows = Some t ->
    exists v, qualifies m rows v /\ t = TopAgent (version_id v) (miner_hotkey v)
}.

Lemma top_agent_qualifies m rows t :
  top_agent m rows = Some t ->
  exists v, qualifies m rows v /\ t = TopAgent (version_id v) (miner_hotkey v).
Proof.
  unfold top_agent. destruct (oldest _) as [c|] eqn:Ho; intros H; simplify_eq/=.
  destruct (oldest_spec _ _ Ho) as [Hin _].
  apply list_elem_of_filter in Hin as [_ Hin].
  apply elem_of_candidates_qualifies in Hin as (v & Hq & ->). eauto.
Qed.

(** The 3%-band, oldest-wins policy of [get_top_agent]. *)
#[export] Instance three_percent_policy : TopAgentPolicy :=
  {| select_top := top_agent; select_top_qualifies := top_agent_qualifies |}.

Definition get_top_agent `{TopAgentPolicy} : py world (option top_agent_record) :=
  db_call (fun w => (select_top (w_versions w) (w_scores w), w)).

Definition failure_log (hk : string) : log_record := (ERROR, "Failed to send to validator " +:+ hk).

(** [WebSocketManager.send_to_all_validators(event, data)]: the message is
    the event merged with the data; every failed send is logged. *)
Definition send_to_all_validators (event : string) (data : list (string * json))
    : py world unit :=
  fun w =>
    let '(r, fails) := broadcast (JObj (("event", JStr event) :: data)) (w_registry w) in
    (Ret tt, foldl (fun w' hk => add_log (failure_log hk) w') (set_registry r w) fails).

#[global] Arguments send_to_all_validators : simpl never.

(** ** Lemmas *)

Lemma foldl_add_log (f : string -> log_record) (l : list string) w :
  foldl (fun w' hk => add_log (f hk) w') w l = set_logs (w_logs w ++ (f <$> l))%list w.
Proof.
  revert w. induction l as [|hk l IH]; intros w; simpl.
  - destruct w; simpl. by rewrite app_nil_r.
  - rewrite IH. unfold set_logs, add_log. simpl. by rewrite <- app_assoc.
Qed.

(** [send_to_all_validators] under the registry invariant: only the
    registry and the log change; every live registered channel gets the
    message once, the others keep their state, and exactly one failure
    is logged per registered hotkey without a live channel. *)
Lemma send_to_all_validators_spec event data w :
  reg_wf (w_registry w) ->
  let msg := JObj (("event", JStr event) :: data) in
  let '(o, w') := send_to_all_validators event data w in
  o = Ret () /\ w_versions w' = w_versions w /\ w_evals w' = w_evals w /\
  w_scores w' = w_scores w /\ w_env w' = w_env w /\ w_db_fault w' = w_db_fault w /\
  w_clock w' = w_clock w /\
  reg_wf (w_registry w') /\ conns (w_registry w') = conns (w_registry w) /\
  (forall hk id, conns (w_registry w) !! hk = Some id ->
     chans (w_registry w') !! id = deliver_open msg <$> chans (w_registry w) !! id) /\
  (forall id, (forall hk, conns (w_registry w) !! hk <> Some id) ->
     chans (w_registry w') !! id = chans (w_registry w) !! id) /\
  exists fails, NoDup fails /\
    (forall hk, hk ∈ fails <->
       is_Some (conns (w_registry w) !! hk) /\ live (w_registry w) hk = false) /\
    w_logs w' = (w_logs w ++ (failure_log <$> fails))%list.
Proof.
  intros Hwf. unfold send_to_all_validators.
  pose proof (broadcast_spec (JObj (("event", JStr event) :: data)) _ Hwf) as Hb.
  destruct (broadcast _ _) as [r fails].
  destruct Hb as (Hwf' & Hc & Hd & Hu & Hfails & Hnd).
  rewrite (foldl_add_log failure_log). simpl. split_and!; try done. eauto.
Qed.

End World.
