(* ===== verification/Dispatcher.v ===== *)
(** * Dispatcher: the [get-next-evaluation] websocket handler

    [api/src/socket/handlers/handle_get_next_evaluation.py], line by line.
    Each [logger] call is a [log] effect whose message is evaluated first,
    as Python evaluates an f-string argument before the call: on line 37
    the argument reads [socket_message['evaluation_id']], which raises
    [KeyError] when the message is the bare [{"event": "evaluation"}] of
    lines 23-26.  The [try]/[except Exception] of lines 20/43 is [py_try]:
    whatever is raised, the handler answers with the error message, and
    the side effects performed before the raise (the assignment made by
    the persistence query, the log) stay. *)

From S2P Require Import Prelude Logging PyStr Lifecycle Evaluations Registry Consensus World.

Module Dispatcher.
Import PyStr Lifecycle Evaluations Registry Consensus World.

(** Line 10: the module's logger, made at import by
    [get_logger(__name__)] of [api/src/utils/logging_utils.py] (the
    [Logging] model); the handler's log calls, modelled as [log] on the
    world, are made on it. *)
Definition logger `{Logging.ProcessLogging} : py Logging.lstate string :=
  Logging.get_logger "api.src.socket.handlers.handle_get_next_evaluation".

Definition error_message : list (string * json) :=
  [("event", JStr "error"); ("message", JStr "Failed to get next evaluation")].

(** The message of lines 30-34. *)
Definition evaluation_message (ev : evaluation) (av : option agent_version)
    : list (string * json) :=
  [("event", JStr "evaluation");
   ("evaluation_id", JStr (evaluation_id ev));
   ("agent_version", match av with Some v => agent_version_json v | None => JNull end)].

(** Lines 13-45.  [websocket] is the connection object the socket loop
    passes in (a channel of the registry); [response_json], the request
    as received, is not read by the handler. *)
Definition handle_get_next_evaluation (websocket : nat) (validator_hotkey : string)
    (response_json : list (string * json)) : py world json :=
  py_try
    (log DEBUG ("Attempting to get next evaluation for validator " +:+ validator_hotkey +:+ ".");;
     evaluation ← get_next_evaluation_for_validator' validator_hotkey;
     socket_message ←
       match evaluation with
       | None =>
           log DEBUG ("No next evaluation found for validator " +:+ validator_hotkey +:+ ".");;
           log INFO ("Informed validator with hotkey " +:+ validator_hotkey
                     +:+ " that there are no more evaluations available for it.");;
           mret [("event", JStr "evaluation")]
       | Some ev =>
           agent_version ← get_agent_by_version_id (eval_version_id ev);
           log DEBUG ("Found next evaluation for validator " +:+ validator_hotkey
                      +:+ ". Evaluation ID: " +:+ evaluation_id ev +:+ ".");;
           let socket_message := evaluation_message ev agent_version in
           eid ← py_getitem socket_message "evaluation_id";
           log INFO ("Platform socket will send requested evaluation " +:+ py_str eid
                     +:+ " to validator with hotkey " +:+ validator_hotkey);;
           mret socket_message
       end;
     eid ← py_getitem socket_message "evaluation_id";
     log DEBUG ("Attempting to send requested evaluation " +:+ py_str eid
                +:+ " to validator with hotkey " +:+ validator_hotkey +:+ ".");;
     send_text websocket (JObj socket_message);;
     eid' ← py_getitem socket_message "evaluation_id";
     log DEBUG ("Successfully sent requested evaluation " +:+ py_str eid'
                +:+ " to validator with hotkey " +:+ validator_hotkey +:+ ".");;
     mret (JObj socket_message))
    (fun e =>
       log ERROR ("Error getting next evaluation for validator " +:+ validator_hotkey
                  +:+ ": " +:+ exn_str e);;
       mret (JObj error_message)).

(** A [get-next-evaluation] request as the socket loop hands it over:
    the connection it came on, the validator's hotkey and the message. *)
Record request := Request {
  req_websocket : nat; req_hotkey : string; req_json : list (string * json) }.

(** Requests of several validators, handled one after the other (one
    interleaving of their tasks): the answers and the final world. *)
Fixpoint handle_run (rqs : list request) (w : world) : list json * world :=
  match rqs with
  | [] => ([], w)
  | rq :: rqs' =>
      let '(o, w1) := handle_get_next_evaluation (req_websocket rq) (req_hotkey rq)
                        (req_json rq) w in
      let '(js, w2) := handle_run rqs' w1 in
      ((match o with Ret j => j | Raise _ => JNull end) :: js, w2)
  end.

(** The evaluation id carried by an answer, if any. *)
Definition answer_id (j : json) : option string :=
  match j with
  | JObj d => match dict_get "evaluation_id" d with Some (JStr s) => Some s | _ => None end
  | _ => None
  end.

(** ** Running the handler *)

Lemma evaluation_message_id ev av :
  dict_get "evaluation_id" (evaluation_message ev av) = Some (JStr (evaluation_id ev)).
Proof. reflexivity. Qed.

Lemma bare_message_no_id : dict_get "evaluation_id" [("event", JStr "evaluation")] = None.
Proof. reflexivity. Qed.

(** Symbolic execution of the handler: unfold it and the effects it calls
    down to the [match]es on the world. *)
Ltac destruct_send :=
  match goal with |- context [send_on ?a ?b ?c] => destruct (send_on a b c) eqn:? end.

Ltac run_handler :=
  unfold handle_get_next_evaluation, get_next_evaluation_for_validator',
    get_agent_by_version_id, db_call, get_next_evaluation_for_validator, send_text,
    log, py_getitem;
  py_unfold.

Ltac handler_simpl :=
  simpl; rewrite ?evaluation_message_id, ?bare_message_no_id; simpl.

Lemma answer_id_error : answer_id (JObj error_message) = None.
Proof. reflexivity. Qed.

Lemma answer_id_evaluation ev av :
  answer_id (JObj (evaluation_message ev av)) = Some (evaluation_id ev).
Proof. reflexivity. Qed.

(** One request, with a working persistence layer: the evaluations change
    exactly as the atomic assignment changes them, and the answer carries
    either no evaluation id or the id of the evaluation just assigned. *)
Lemma handle_step ws hk rj w :
  w_db_fault w = None ->
  let '(o, w') := handle_get_next_evaluation ws hk rj w in
  w_db_fault w' = None /\
  w_evals w' = (get_next_evaluation_for_validator hk (w_evals w)).2 /\
  exists j, o = Ret j /\
    (answer_id j = None \/
     answer_id j = evaluation_id <$> (get_next_evaluation_for_validator hk (w_evals w)).1).
Proof.
  intros Hf. run_handler. rewrite Hf. unfold get_next_evaluation_for_validator.
  destruct (oldest_pending (w_evals w)) as [e|] eqn:Ho; simpl; rewrite ?Hf; handler_simpl;
    [destruct_send|]; simpl; rewrite ?Hf;
    (split_and!; [done|done|]); eexists; (split; [reflexivity|]); auto.
Qed.

Lemma omap_answer_NoDup (js : list json) (rs : list (option evaluation)) :
  Forall2 (fun j r => answer_id j = None \/ answer_id j = evaluation_id <$> r) js rs ->
  NoDup (answered_ids rs) ->
  NoDup (omap answer_id js) /\
  forall x, x ∈ omap answer_id js -> x ∈ answered_ids rs.
Proof.
  induction 1 as [|j r js rs Hjr Hall IH]; intros Hnd; [split; [constructor|done]|].
  destruct r as [r|]; simpl in *.
  - rewrite answered_ids_cons_Some, NoDup_cons in Hnd. destruct Hnd as [Hnin Hnd].
    destruct (IH Hnd) as [IHnd IHsub].
    destruct Hjr as [Hj|Hj]; rewrite Hj; simpl.
    + split; [done|]. intros x Hx. rewrite answered_ids_cons_Some. right. by apply IHsub.
    + split; [constructor; [intros Hin; apply Hnin, IHsub, Hin|done]|].
      intros x [->|Hx]%elem_of_cons; rewrite answered_ids_cons_Some; [left|right; by apply IHsub].
  - rewrite answered_ids_cons_None in Hnd |- *. destruct (IH Hnd) as [IHnd IHsub].
    destruct Hjr as [Hj|Hj]; rewrite Hj; simpl; auto.
Qed.

Lemma handle_run_dispatch_run rqs w :
  w_db_fault w = None ->
  Forall2 (fun j r => answer_id j = None \/ answer_id j = evaluation_id <$> r)
    (handle_run rqs w).1 (dispatch_run (req_hotkey <$> rqs) (w_evals w)).1.
Proof.
  revert w. induction rqs as [|[ws hk rj] rqs IH]; intros w Hf; simpl; [constructor|].
  pose proof (handle_step ws hk rj w Hf) as Hstep.
  destruct (handle_get_next_evaluation ws hk rj w) as [o w1].
  destruct Hstep as (Hf1 & Hev & j & -> & Hj).
  destruct (get_next_evaluation_for_validator hk (w_evals w)) as [r l1]. simpl in *.
  specialize (IH w1 Hf1). rewrite Hev in IH.
  destruct (handle_run rqs w1) as [js w2], (dispatch_run _ l1) as [rs l2].
  simpl in *. by constructor.
Qed.

(** ** Properties of the handler *)

(** C2: With a working persistence layer, a pending evaluation and
    an open connection, the handler assigns the oldest pending evaluation
    to the validator, queues exactly one message on the connection it was
    handed (the evaluation id and the resolved agent version, [null] when
    the version is missing) and returns that message; the agent versions
    are not touched. *)
Theorem handle_dispatches_oldest ws hk rj w e :
  w_db_fault w = None -> oldest_pending (w_evals w) = Some e ->
  open_at (chans (w_registry w)) ws = true ->
  let msg := evaluation_message (set_eval_status (Assigned hk) e)
                                (w_versions w !! eval_version_id e) in
  let '(o, w') := handle_get_next_evaluation ws hk rj w in
  o = Ret (JObj msg) /\
  w_evals w' = assign_eval (evaluation_id e) hk (w_evals w) /\
  send_on ws (JObj msg) (w_registry w) = inr (w_registry w') /\
  w_versions w' = w_versions w.
Proof.
  intros Hf Ho Hl. run_handler. rewrite Hf. unfold get_next_evaluation_for_validator.
  rewrite Ho. simpl. rewrite Hf. handler_simpl.
  destruct (send_on_open ws (JObj (evaluation_message (set_eval_status (Assigned hk) e)
              (w_versions w !! eval_version_id e))) _ Hl) as (c & _ & ->).
  simpl. split_and!; done.
Qed.

(** C3 (a defect of the handler): when no evaluation is pending
    and the persistence layer works, line 37 reads
    [socket_message['evaluation_id']] of the bare [{"event": "evaluation"}]
    message, the [KeyError] is caught, and the validator gets nothing on
    its connection while the handler returns the error message, instead
    of answering [{"event": "evaluation"}] (spec sections 4.3 and 6). *)
Theorem handle_no_pending_is_error ws hk rj w :
  w_db_fault w = None -> (forall e, e ∈ w_evals w -> is_pending e = false) ->
  let '(o, w') := handle_get_next_evaluation ws hk rj w in
  o = Ret (JObj error_message) /\
  w_registry w' = w_registry w /\ w_evals w' = w_evals w /\
  last (w_logs w') =
    Some (ERROR, "Error getting next evaluation for validator " +:+ hk +:+ ": 'evaluation_id'").
Proof.
  intros Hf Hp. apply oldest_pending_None_intro in Hp.
  run_handler. rewrite Hf. unfold get_next_evaluation_for_validator.
  rewrite Hp. handler_simpl. split_and!; [done|done|done|]. by rewrite last_snoc.
Qed.

(** C25: When the persistence layer fails, the handler answers
    with the error message and changes neither the evaluations, the
    connections nor the agent versions; the failure is logged. *)
Theorem handle_upstream_failure ws hk rj w m :
  w_db_fault w = Some m ->
  let '(o, w') := handle_get_next_evaluation ws hk rj w in
  o = Ret (JObj error_message) /\
  w_evals w' = w_evals w /\ w_registry w' = w_registry w /\ w_versions w' = w_versions w /\
  last (w_logs w') =
    Some (ERROR, "Error getting next evaluation for validator " +:+ hk +:+ ": " +:+ m).
Proof.
  intros Hf. run_handler. rewrite Hf. simpl. split_and!; [done..|]. by rewrite last_snoc.
Qed.

(** C26: When the connection the handler was handed is closed,
    the send of line 38 raises and the handler answers with the error
    message, but the assignment made by the query stays (spec section 5:
    a validator disconnecting mid-assignment does not roll the assignment
    back). *)
Theorem handle_send_failure_keeps_assignment ws hk rj w e :
  w_db_fault w = None -> oldest_pending (w_evals w) = Some e ->
  open_at (chans (w_registry w)) ws = false ->
  let '(o, w') := handle_get_next_evaluation ws hk rj w in
  o = Ret (JObj error_message) /\
  w_evals w' = assign_eval (evaluation_id e) hk (w_evals w) /\
  w_registry w' = w_registry w.
Proof.
  intros Hf Ho Hl. run_handler. rewrite Hf. unfold get_next_evaluation_for_validator.
  rewrite Ho. simpl. rewrite Hf. handler_simpl.
  rewrite send_on_closed by done. simpl. split_and!; done.
Qed.

(** C30: Whatever the world, the handler returns (the [try] of
    lines 20/43 catches everything) and its answer is a JSON object:
    either an [evaluation] event or the error message. *)
Theorem handle_answer_shape ws hk rj w :
  exists d, (handle_get_next_evaluation ws hk rj w).1 = Ret (JObj d) /\
    (dict_get "event" d = Some (JStr "evaluation") \/ d = error_message).
Proof.
  run_handler. destruct (w_db_fault w) as [m|]; simpl; [by eexists; split; [|right]|].
  unfold get_next_evaluation_for_validator.
  destruct (oldest_pending (w_evals w)); simpl; handler_simpl;
    [destruct (w_db_fault _); simpl; [by eexists; split; [|right]|]; handler_simpl; destruct_send|];
    simpl; (eexists; split; [reflexivity|]); auto.
Qed.

(** C1: Whatever the interleaving of requests from any
    validators, no evaluation id is handed out twice, and every id handed
    out belonged to an evaluation that was pending at the start (spec
    sections 4.3, 5 and 8: exactly one concurrent caller wins a pending
    evaluation). *)
Theorem handle_run_exclusive rqs w :
  w_db_fault w = None ->
  NoDup (omap answer_id (handle_run rqs w).1) /\
  forall x, x ∈ omap answer_id (handle_run rqs w).1 -> x ∈ pending_ids (w_evals w).
Proof.
  intros Hf. destruct (dispatch_run_exclusive (req_hotkey <$> rqs) (w_evals w)) as [Hnd Hsub].
  destruct (omap_answer_NoDup _ _ (handle_run_dispatch_run rqs w Hf) Hnd) as [H1 H2].
  split; [done|]. intros x Hx. by apply Hsub, H2.
Qed.

(** ** Witnesses *)

Definition demo_world : world :=
  World (<["v1" := AgentVersion "v1" "miner1" evaluating 1]> ∅)
    [Evaluation "e1" "v1" Pending 5; Evaluation "e2" "v9" Pending 7]
    [] (register "valB" (register "valA" empty_registry)) ∅ None [] 0.

(** Validator [valA] holds connection 0 and [valB] connection 1. *)
Definition demo_requests : list request :=
  [Request 0 "valA" [("event", JStr "get-next-evaluation")];
   Request 1 "valB" [("event", JStr "get-next-evaluation")];
   Request 0 "valA" [("event", JStr "get-next-evaluation")]].

Lemma handle_dispatches_oldest_witness :
  (handle_get_next_evaluation 0 "valA" [] demo_world).1 =
    Ret (JObj (evaluation_message (Evaluation "e1" "v1" (Assigned "valA") 5)
                 (Some (AgentVersion "v1" "miner1" evaluating 1)))).
Proof.
  pose proof (handle_dispatches_oldest 0 "valA" [] demo_world (Evaluation "e1" "v1" Pending 5)
                eq_refl eq_refl eq_refl) as H.
  simpl in H. destruct (handle_get_next_evaluation 0 "valA" [] demo_world) as [o w'].
  destruct H as [-> _]. reflexivity.
Defined.

Definition drained_world : world :=
  (handle_get_next_evaluation 1 "valB" []
     (handle_get_next_evaluation 0 "valA" [] demo_world).2).2.

Lemma handle_no_pending_is_error_witness :
  (handle_get_next_evaluation 0 "valA" [] drained_world).1 = Ret (JObj error_message).
Proof.
  pose proof (handle_no_pending_is_error 0 "valA" [] drained_world eq_refl) as H.
  destruct (handle_get_next_evaluation 0 "valA" [] drained_world) as [o w'].
  destruct H as [-> _]; [|reflexivity].
  intros e Hin. vm_compute in Hin. repeat (apply elem_of_cons in Hin as [->|Hin]; [reflexivity|]).
  by apply elem_of_nil in Hin.
Defined.

Lemma handle_upstream_failure_witness :
  (handle_get_next_evaluation 0 "valA" []
     (World ∅ [] [] empty_registry ∅ (Some "db down") [] 0)).1
    = Ret (JObj error_message).
Proof.
  pose proof (handle_upstream_failure 0 "valA" []
                (World ∅ [] [] empty_registry ∅ (Some "db down") [] 0) "db down" eq_refl) as H.
  destruct (handle_get_next_evaluation _ _ _ _) as [o w']. by destruct H as [-> _].
Defined.

Lemma handle_send_failure_keeps_assignment_witness :
  w_evals (handle_get_next_evaluation 7 "valC" [] demo_world).2 =
    assign_eval "e1" "valC" (w_evals demo_world).
Proof.
  pose proof (handle_send_failure_keeps_assignment 7 "valC" [] demo_world
                (Evaluation "e1" "v1" Pending 5) eq_refl eq_refl eq_refl) as H.
  destruct (handle_get_next_evaluation 7 "valC" [] demo_world) as [o w']. simpl.
  by destruct H as (_ & H & _).
Defined.

Lemma handle_run_exclusive_witness :
  NoDup (omap answer_id (handle_run demo_requests demo_world).1).
Proof. apply (handle_run_exclusive demo_requests demo_world). reflexivity. Defined.

Example demo_run_answers :
  omap answer_id (handle_run demo_requests demo_world).1 = ["e1"; "e2"].
Proof. vm_compute. reflexivity. Qed.

End Dispatcher.
