(* ===== verification/Scoring.v ===== *)
(** * Scoring: the administrative endpoints and the weight-setting loop

    [api/src/endpoints/scoring.py], function by function.  An endpoint is
    a [py world json] computation: it returns the JSON body or raises
    [HTTPException]; [http_response] is what FastAPI makes of either.
    The persistence calls ([db_ban_agent], [approve_agent_version],
    [get_top_agent]) and the state machine's
    [re_evaluate_approved_agents] run the Lifecycle and Consensus models
    on the world, and raise on an upstream failure.  The [while True]
    loop of [run_weight_setting_loop] is unrolled a given number of
    iterations ([fuel]): the loop never returns, so its model with fuel
    [n] is the behaviour of its first [n] iterations. *)

From S2P Require Import Prelude Lifecycle Registry Consensus World.
From Stdlib Require Import QArith Sorted.

Module Scoring.
Import Lifecycle Registry Consensus World.

(** ** Calls into the persistence layer and the state machine *)

Definition db_ban_agent (agent_id : string) : py world unit :=
  db_update (fun m => inr (Lifecycle.ban_agent agent_id m)).

Definition approve_agent_version (version_id : string) : py world unit :=
  db_update (Lifecycle.approve_version version_id).

Definition sm_re_evaluate_approved_agents : py world (list agent_version) :=
  db_call (fun w => let '(aff, m) := re_evaluate_approved_agents (w_versions w) in
                    (aff, set_versions m w)).

Definition message (s : string) : json := JObj [("message", JStr s)].

(** [password != os.getenv(name)]: an unset variable never matches. *)
Definition password_ok (password : string) (env : option string) : bool :=
  bool_decide (Some password = env).

Section Endpoints.
Context `{TopAgentPolicy}.

(** Lines 34-42. *)
Definition weight_receiving_agent : py world (option top_agent_record) := get_top_agent.

(** Lines 16-25. *)
Definition tell_validators_to_set_weights : py world unit :=
  top_agent ← weight_receiving_agent;
  match top_agent with
  | None => log INFO "No top agent found, skipping weight update"
  | Some t =>
      send_to_all_validators "set-weights" (top_agent_json t);;
      log INFO ("Sent updated top agent to all validators: " +:+ top_miner_hotkey t)
  end.

(** Lines 27-30, the first [fuel] iterations of the loop. *)
Fixpoint run_weight_setting_loop (fuel : nat) (minutes : Z) : py world unit :=
  match fuel with
  | O => mret ()
  | S n =>
      tell_validators_to_set_weights;;
      sleep (minutes * 60);;
      run_weight_setting_loop n minutes
  end.

(** Lines 56-58. *)
Definition trigger_weight_set : py world json :=
  tell_validators_to_set_weights;;
  mret (message "Successfully triggered weight update").
End Endpoints.

(** Lines 44-53. *)
Definition ban_agent (agent_id ban_password : string) : py world json :=
  pw ← getenv "BAN_PASSWORD";
  if negb (password_ok ban_password pw)
  then py_raise (HTTPException 401 "Invalid ban password. Fuck you.")
  else py_try
         (db_ban_agent agent_id;;
          mret (message "Agent banned successfully"))
         (fun e =>
            log ERROR ("Error banning agent " +:+ agent_id +:+ ": " +:+ exn_str e);;
            py_raise (HTTPException 500
              "Failed to ban agent due to internal server error. Please try again later.")).

(** Lines 60-70. *)
Definition approve_version (version_id approval_password : string) : py world json :=
  pw ← getenv "APPROVAL_PASSWORD";
  if negb (password_ok approval_password pw)
  then py_raise (HTTPException 401 "Invalid approval password. fucker")
  else py_try
         (approve_agent_version version_id;;
          mret (message ("Successfully approved " +:+ version_id)))
         (fun e =>
            log ERROR ("Error approving version " +:+ version_id +:+ ": " +:+ exn_str e);;
            py_raise (HTTPException 500
              "Failed to approve version due to internal server error. Please try again later.")).

(** Lines 72-101. *)
Definition re_eval_approved (approval_password : string) : py world json :=
  pw ← getenv "APPROVAL_PASSWORD";
  if negb (password_ok approval_password pw)
  then py_raise (HTTPException 401 "Invalid approval password")
  else py_try
         (log INFO "Starting re-evaluation of approved agents";;
          agents_to_re_evaluate ← sm_re_evaluate_approved_agents;
          match agents_to_re_evaluate with
          | [] =>
              log INFO "No approved agents found for re-evaluation";;
              mret (JObj [("message", JStr "No approved agents found for re-evaluation");
                          ("agents", JList [])])
          | _ =>
              let n := pretty (length agents_to_re_evaluate) in
              log INFO ("Successfully initiated re-evaluation for " +:+ n +:+ " approved agents");;
              mret (JObj [("message", JStr ("Successfully initiated re-evaluation for " +:+ n
                                             +:+ " approved agents"));
                          ("agents", JList (agent_version_json <$> agents_to_re_evaluate))])
          end)
         (fun e =>
            log ERROR ("Error re-evaluating approved agents: " +:+ exn_str e);;
            py_raise (HTTPException 500 "Error initiating re-evaluation of approved agents")).

(** What FastAPI sends back: the body with status 200, an
    [HTTPException] as its status with [{"detail": ...}], anything else
    as a 500. *)
Definition http_response (c : py world json) (w : world) : (Z * json) * world :=
  match c w with
  | (Ret j, w') => ((200%Z, j), w')
  | (Raise (HTTPException code detail), w') => ((code, JObj [("detail", JStr detail)]), w')
  | (Raise _, w') => ((500%Z, JObj [("detail", JStr "Internal Server Error")]), w')
  end.

(** ** The router (lines 103-120) *)

(** The dependencies a route declares; [verify_request] is the request
    authentication of [api.src.utils.auth], outside this file. *)
Inductive dependency := verify_request.

(** An endpoint function as FastAPI calls it: its parameters are bound
    from the query string; [None] when a required one is missing (the
    request is answered 422 without calling the function). *)
Definition endpoint_fn := list (string * string) -> option (py world json).

(** [request.query_params[name]]: the last value given for the name. *)
Definition query_get (q : list (string * string)) (name : string) : option string :=
  last (omap (fun '(k, v) => if String.eqb k name then Some v else None) q).

(** [weight_receiving_agent] returns a [TopAgentHotkey] or [None]. *)
Definition top_agent_response (t : option top_agent_record) : json :=
  match t with Some t => JObj (top_agent_json t) | None => JNull end.

Definition weight_receiving_agent_fn : endpoint_fn :=
  fun _ => Some (t ← weight_receiving_agent; mret (top_agent_response t)).

Definition ban_agent_fn : endpoint_fn :=
  fun q => agent_id ← query_get q "agent_id"; ban_password ← query_get q "ban_password";
           Some (ban_agent agent_id ban_password).

Definition approve_version_fn : endpoint_fn :=
  fun q => version_id ← query_get q "version_id";
           approval_password ← query_get q "approval_password";
           Some (approve_version version_id approval_password).

Definition trigger_weight_set_fn : endpoint_fn := fun _ => Some trigger_weight_set.

Definition re_eval_approved_fn : endpoint_fn :=
  fun q => approval_password ← query_get q "approval_password";
           Some (re_eval_approved approval_password).

(** Lines 105-111. *)
Definition routes : list (string * endpoint_fn * list string) :=
  [("/check-top-agent", weight_receiving_agent_fn, ["GET"]);
   ("/ban-agent", ban_agent_fn, ["POST"]);
   ("/approve-version", approve_version_fn, ["POST"]);
   ("/trigger-weight-update", trigger_weight_set_fn, ["POST"]);
   ("/re-eval-approved", re_eval_approved_fn, ["POST"])].

Record api_route := ApiRoute {
  route_path : string; route_endpoint : endpoint_fn; route_tags : list string;
  route_dependencies : list dependency; route_methods : list string }.

(** [router.add_api_route(...)] appends a route. *)
Definition add_api_route (path : string) (endpoint : endpoint_fn) (tags : list string)
    (dependencies : list dependency) (methods : list string) (router : list api_route)
    : list api_route :=
  router ++ [ApiRoute path endpoint tags dependencies methods].

(** Lines 103 and 113-120: [router = APIRouter()] and the loop over
    [routes]. *)
Definition router : list api_route :=
  foldl (fun r '(path, endpoint, methods) =>
           add_api_route path endpoint ["scoring"] [verify_request] methods r)
        [] routes.

(** Serving a request as FastAPI's [solve_dependencies] does: the first
    route with the path and the method ([None] is FastAPI's 404); the
    route's dependencies run first, each of which may raise; then the
    endpoint's parameters are bound from the query string, and a missing
    one answers 422 (the inner [None]) without calling the endpoint. *)
Definition serve (run_dependency : dependency -> py world unit)
    (method path : string) (q : list (string * string)) : option (py world (option json)) :=
  match List.find (fun r => String.eqb (route_path r) path &&
                            existsb (String.eqb method) (route_methods r)) router with
  | None => None
  | Some r =>
      Some (foldr (fun d k => run_dependency d;; k)
              (match route_endpoint r q with
               | Some c => j ← c; mret (Some j)
               | None => mret None
               end)
              (route_dependencies r))
  end.

(** The administrative requests, as a client sends them. *)
Inductive admin_request :=
  | BanReq (agent_id ban_password : string)
  | ApproveReq (version_id approval_password : string)
  | ReEvalReq (approval_password : string).

Definition admin_endpoint (r : admin_request) : py world json :=
  match r with
  | BanReq a pw => ban_agent a pw
  | ApproveReq vid pw => approve_version vid pw
  | ReEvalReq pw => re_eval_approved pw
  end.

(** The worlds seen along a sequence of administrative requests. *)
Fixpoint admin_run (rs : list admin_request) (w : world) : list world :=
  w :: match rs with
       | [] => []
       | r :: rs' => admin_run rs' (http_response (admin_endpoint r) w).2
       end.

(** ** Running the endpoints *)

Ltac run_endpoint :=
  unfold http_response, ban_agent, approve_version, re_eval_approved, getenv,
    db_ban_agent, approve_agent_version, sm_re_evaluate_approved_agents, db_update,
    db_call, log;
  py_unfold.

Lemma password_ok_true pw env : password_ok pw env = true <-> env = Some pw.
Proof. unfold password_ok. rewrite bool_decide_eq_true. split; congruence. Qed.

Lemma password_ok_refl pw : password_ok pw (Some pw) = true.
Proof. by apply password_ok_true. Qed.

(** Pass the password check given the environment equation [Hpw]. *)
Ltac pass_auth Hpw := rewrite Hpw, password_ok_refl; simpl.

Lemma password_ok_false pw env : env <> Some pw -> password_ok pw env = false.
Proof. intros Hne. unfold password_ok. apply bool_decide_eq_false_2. congruence. Qed.

(** C17: A request with a wrong password (or with the password
    variable unset) is rejected with 401 and its specific message, and
    the world is left exactly as it was (spec section 7). *)
Theorem admin_bad_password_rejected a vid pw w :
  (w_env w !! "BAN_PASSWORD" <> Some pw ->
   http_response (ban_agent a pw) w =
     ((401%Z, JObj [("detail", JStr "Invalid ban password. Fuck you.")]), w)) /\
  (w_env w !! "APPROVAL_PASSWORD" <> Some pw ->
   http_response (approve_version vid pw) w =
     ((401%Z, JObj [("detail", JStr "Invalid approval password. fucker")]), w)) /\
  (w_env w !! "APPROVAL_PASSWORD" <> Some pw ->
   http_response (re_eval_approved pw) w =
     ((401%Z, JObj [("detail", JStr "Invalid approval password")]), w)).
Proof.
  split_and!; intros Hne; run_endpoint; by rewrite password_ok_false.
Qed.

(** C8: With the right password and a working persistence layer the ban
    endpoint answers 200, bans every version of the agent whatever its
    state, and leaves the other agents' versions and the set of versions
    unchanged (spec sections 4.2 and 8). *)
Theorem ban_agent_endpoint_spec a pw w :
  w_db_fault w = None -> w_env w !! "BAN_PASSWORD" = Some pw ->
  let '(resp, w') := http_response (ban_agent a pw) w in
  resp = (200%Z, message "Agent banned successfully") /\
  forall k,
    (forall v, w_versions w !! k = Some v -> miner_hotkey v = a ->
       w_versions w' !! k = Some (set_status banned v)) /\
    (forall v, w_versions w !! k = Some v -> miner_hotkey v <> a ->
       w_versions w' !! k = Some v) /\
    (w_versions w !! k = None -> w_versions w' !! k = None).
Proof.
  intros Hf Hpw. run_endpoint. pass_auth Hpw. rewrite Hf. simpl.
  split; [done|]. intros k. apply ban_agent_spec.
Qed.

(** C16 (a divergence from spec section 7): approving a version
    that is evaluating or already approved answers 200 and leaves it
    approved; approving an unknown version, or a banned one, is rejected
    by the state machine, but the endpoint turns the rejection into a
    generic 500 "internal server error" instead of surfacing [NotFound]
    or [InvalidTransition] to the administrator; the versions are then
    unchanged. *)
Theorem approve_version_endpoint_spec vid pw w :
  w_db_fault w = None -> w_env w !! "APPROVAL_PASSWORD" = Some pw ->
  let '(resp, w') := http_response (approve_version vid pw) w in
  (forall v, w_versions w !! vid = Some v ->
     status v = evaluating \/ status v = approved ->
     resp = (200%Z, message ("Successfully approved " +:+ vid)) /\
     w_versions w' = <[vid := set_status approved v]> (w_versions w)) /\
  ((w_versions w !! vid = None \/
    exists v, w_versions w !! vid = Some v /\ status v <> evaluating /\ status v <> approved) ->
   resp = (500%Z, JObj [("detail", JStr
     "Failed to approve version due to internal server error. Please try again later.")]) /\
   w_versions w' = w_versions w).
Proof.
  intros Hf Hpw. run_endpoint. pass_auth Hpw. rewrite Hf. simpl.
  destruct (approve_version_spec vid (w_versions w)) as (Hnone & Hok & Hbad).
  destruct (Lifecycle.approve_version vid (w_versions w)) as [e|m] eqn:Ha; simpl; split.
  - intros v Hv Hs. specialize (Hok v Hv Hs). discriminate.
  - by intros _.
  - intros v Hv Hs. specialize (Hok v Hv Hs). by simplify_eq.
  - intros [Hv|(v & Hv & Hs1 & Hs2)];
      [specialize (Hnone Hv)|specialize (Hbad v Hv Hs1 Hs2)]; discriminate.
Qed.

(** C24: When the persistence layer fails, each
    administrative endpoint answers 500 with a fixed message that does not
    contain the failure's diagnostic, logs the diagnostic, and leaves the
    versions unchanged (spec section 7). *)
Theorem admin_upstream_failure a vid pw w m :
  w_db_fault w = Some m ->
  (w_env w !! "BAN_PASSWORD" = Some pw ->
   let '(resp, w') := http_response (ban_agent a pw) w in
   resp = (500%Z, JObj [("detail", JStr
     "Failed to ban agent due to internal server error. Please try again later.")]) /\
   w_versions w' = w_versions w /\
   last (w_logs w') = Some (ERROR, "Error banning agent " +:+ a +:+ ": " +:+ m)) /\
  (w_env w !! "APPROVAL_PASSWORD" = Some pw ->
   let '(resp, w') := http_response (approve_version vid pw) w in
   resp = (500%Z, JObj [("detail", JStr
     "Failed to approve version due to internal server error. Please try again later.")]) /\
   w_versions w' = w_versions w /\
   last (w_logs w') = Some (ERROR, "Error approving version " +:+ vid +:+ ": " +:+ m)) /\
  (w_env w !! "APPROVAL_PASSWORD" = Some pw ->
   let '(resp, w') := http_response (re_eval_approved pw) w in
   resp = (500%Z, JObj [("detail", JStr "Error initiating re-evaluation of approved agents")]) /\
   w_versions w' = w_versions w /\
   last (w_logs w') = Some (ERROR, "Error re-evaluating approved agents: " +:+ m)).
Proof.
  intros Hf. split_and!; intros Hpw; run_endpoint; pass_auth Hpw; rewrite Hf; simpl;
    (split_and!; [done|done|]); by rewrite last_snoc.
Qed.

Lemma re_eval_approved_ok pw w :
  w_db_fault w = None -> w_env w !! "APPROVAL_PASSWORD" = Some pw ->
  exists body w',
    http_response (re_eval_approved pw) w = ((200%Z, JObj body), w') /\
    dict_get "agents" body =
      Some (JList (agent_version_json <$> approved_versions (w_versions w))) /\
    (approved_versions (w_versions w) = [] ->
       body = [("message", JStr "No approved agents found for re-evaluation");
               ("agents", JList [])]) /\
    w_versions w' = (re_evaluate_approved_agents (w_versions w)).2 /\
    w_env w' = w_env w /\ w_db_fault w' = None.
Proof.
  intros Hf Hpw. run_endpoint. pass_auth Hpw. rewrite Hf. simpl.
  destruct (approved_versions (w_versions w)) as [|v vs]; simpl; eexists _, _;
    (split; [reflexivity|]); split_and!; done.
Qed.

(** C9: With the right password and a working persistence layer,
    re-evaluation answers 200 with exactly the versions approved at call
    time, moves each of them back to [awaiting_screening] and leaves every
    other version as it was; a second call made right after answers that
    no approved agent was found, with an empty list (spec section 8). *)
Theorem re_eval_endpoint_spec pw w :
  w_db_fault w = None -> w_env w !! "APPROVAL_PASSWORD" = Some pw ->
  let '(resp1, w1) := http_response (re_eval_approved pw) w in
  let '(resp2, w2) := http_response (re_eval_approved pw) w1 in
  (exists body, resp1 = (200%Z, JObj body) /\
     dict_get "agents" body =
       Some (JList (agent_version_json <$> approved_versions (w_versions w)))) /\
  (forall v, v ∈ approved_versions (w_versions w) <->
     exists k, w_versions w !! k = Some v /\ status v = approved) /\
  (forall k v, w_versions w !! k = Some v -> status v = approved ->
     w_versions w1 !! k = Some (set_status awaiting_screening v)) /\
  (forall k v, w_versions w !! k = Some v -> status v <> approved ->
     w_versions w1 !! k = Some v) /\
  resp2 = (200%Z, JObj [("message", JStr "No approved agents found for re-evaluation");
                        ("agents", JList [])]).
Proof.
  intros Hf Hpw.
  destruct (re_eval_approved_ok pw w Hf Hpw) as (b1 & w1 & -> & Hb1 & _ & Hv1 & He1 & Hf1).
  rewrite <- He1 in Hpw.
  destruct (re_eval_approved_ok pw w1 Hf1 Hpw) as (b2 & w2 & -> & _ & Hb2 & _).
  destruct (re_evaluate_spec (w_versions w)) as (Hin & Hmove & Hkeep & _).
  split_and!; [eauto|done| | |].
  - intros k v Hk Hs. rewrite Hv1. by apply Hmove.
  - intros k v Hk Hs. rewrite Hv1. by apply Hkeep.
  - rewrite Hb2; [done|]. rewrite Hv1.
    exact (f_equal fst (re_evaluate_idempotent (w_versions w))).
Qed.

(** ** The weight-setting tick and loop *)

Definition set_weights_message (t : top_agent_record) : json :=
  JObj (("event", JStr "set-weights") :: top_agent_json t).

(** C11: [weight_receiving_agent] (the [get_top_agent] query with
    the 3%-band policy) answers without touching the world, and its answer
    meets the specification of spec section 4.4: [None] when no version
    qualifies, otherwise a qualifying version within 3% of the best
    average and the oldest such. *)
Theorem weight_receiving_agent_spec w :
  w_db_fault w = None -> (forall r, r ∈ w_scores w -> 0 <= sr_score r)%Q ->
  exists o, weight_receiving_agent w = (Ret o, w) /\
            top_agent_spec (w_versions w) (w_scores w) o.
Proof.
  intros Hf Hnn. unfold weight_receiving_agent, get_top_agent, db_call. rewrite Hf.
  eexists. split; [reflexivity|]. by apply top_agent_refines.
Qed.

Section WeightSetting.
Context `{TopAgentPolicy}.

Ltac run_tick :=
  unfold tell_validators_to_set_weights, weight_receiving_agent, get_top_agent, db_call, log;
  py_unfold.

(** One tick of the weight-setting loop, against the policy interface. *)
Lemma tell_validators_tick w :
  w_db_fault w = None -> reg_wf (w_registry w) ->
  let '(o, w') := tell_validators_to_set_weights w in
  o = Ret () /\ w_versions w' = w_versions w /\ w_scores w' = w_scores w /\
  w_db_fault w' = None /\ w_clock w' = w_clock w /\ reg_wf (w_registry w') /\
  conns (w_registry w') = conns (w_registry w) /\
  match select_top (w_versions w) (w_scores w) with
  | None => w_registry w' = w_registry w /\
            w_logs w' = (w_logs w ++ [(INFO, "No top agent found, skipping weight update")])%list
  | Some t =>
      (exists v, qualifies (w_versions w) (w_scores w) v /\
                 t = TopAgent (version_id v) (miner_hotkey v)) /\
      (forall hk id, conns (w_registry w) !! hk = Some id ->
         chans (w_registry w') !! id =
           deliver_open (set_weights_message t) <$> chans (w_registry w) !! id) /\
      (forall id, (forall hk, conns (w_registry w) !! hk <> Some id) ->
         chans (w_registry w') !! id = chans (w_registry w) !! id) /\
      exists fails, NoDup fails /\
        (forall hk, hk ∈ fails <->
           is_Some (conns (w_registry w) !! hk) /\ live (w_registry w) hk = false) /\
        w_logs w' = (w_logs w ++ (failure_log <$> fails) ++
          [(INFO, "Sent updated top agent to all validators: " +:+ top_miner_hotkey t)])%list
  end.
Proof.
  intros Hf Hwf. run_tick. rewrite Hf. simpl.
  destruct (select_top (w_versions w) (w_scores w)) as [t|] eqn:Hs; simpl;
    [|split_and!; done].
  pose proof (send_to_all_validators_spec "set-weights" (top_agent_json t) w Hwf) as Hb.
  destruct (send_to_all_validators _ _ w) as [o w1].
  destruct Hb as (-> & Hv & _ & Hsc & _ & Hf1 & Hc & Hwf1 & Hcn & Hd & Hu & fails & Hnd & Hfl & Hl).
  simpl. rewrite Hv, Hsc, Hf1, Hc, Hcn. split_and!; try done.
  - eauto using select_top_qualifies.
  - exists fails. split_and!; try done. rewrite Hl. by rewrite <- app_assoc.
Qed.

(** C10: One weight-setting tick, proved against the policy
    interface.  With no top agent nothing is sent; otherwise the
    selected version qualifies (approved, at least two validators),
    every live validator connection receives the [set-weights] message
    exactly once, the other channels are untouched, and exactly one
    failure is logged per registered validator without a live
    connection (spec sections 4.1, 4.5 and 8). *)
Theorem tell_validators_spec w :
  w_db_fault w = None -> reg_wf (w_registry w) ->
  let '(o, w') := tell_validators_to_set_weights w in
  o = Ret () /\ w_versions w' = w_versions w /\ w_scores w' = w_scores w /\
  w_db_fault w' = None /\ w_clock w' = w_clock w /\ reg_wf (w_registry w') /\
  conns (w_registry w') = conns (w_registry w) /\
  match select_top (w_versions w) (w_scores w) with
  | None => w_registry w' = w_registry w /\
            w_logs w' = (w_logs w ++ [(INFO, "No top agent found, skipping weight update")])%list
  | Some t =>
      (exists v, qualifies (w_versions w) (w_scores w) v /\
                 t = TopAgent (version_id v) (miner_hotkey v)) /\
      (forall hk id, conns (w_registry w) !! hk = Some id ->
         chans (w_registry w') !! id =
           deliver_open (set_weights_message t) <$> chans (w_registry w) !! id) /\
      (forall id, (forall hk, conns (w_registry w) !! hk <> Some id) ->
         chans (w_registry w') !! id = chans (w_registry w) !! id) /\
      exists fails, NoDup fails /\
        (forall hk, hk ∈ fails <->
           is_Some (conns (w_registry w) !! hk) /\ live (w_registry w) hk = false) /\
        w_logs w' = (w_logs w ++ (failure_log <$> fails) ++
          [(INFO, "Sent updated top agent to all validators: " +:+ top_miner_hotkey t)])%list
  end.
Proof. apply tell_validators_tick. Qed.


(** C12: With a working persistence layer, [n] iterations of the
    weight-setting loop return normally, advance the clock by [n]
    intervals, leave the agent versions and the registrations as they
    were, and append to every live validator connection exactly [n]
    [set-weights] messages for the top agent (none when there is no top
    agent). *)
Theorem weight_loop_spec n minutes w :
  w_db_fault w = None -> reg_wf (w_registry w) ->
  let '(o, w') := run_weight_setting_loop n minutes w in
  o = Ret () /\ w_clock w' = (w_clock w + Z.of_nat n * (minutes * 60))%Z /\
  w_versions w' = w_versions w /\ conns (w_registry w') = conns (w_registry w) /\
  reg_wf (w_registry w') /\
  forall hk id c, conns (w_registry w) !! hk = Some id ->
    chans (w_registry w) !! id = Some c -> chan_open c = true ->
    chans (w_registry w') !! id =
      Some (Channel (chan_owner c) true
              (chan_outbox c ++ match select_top (w_versions w) (w_scores w) with
                                | Some t => replicate n (set_weights_message t)
                                | None => []
                                end)%list).
Proof.
  revert w. induction n as [|n IH]; intros w Hf Hwf; simpl.
  { split_and!; try done; [lia|]. intros hk id c _ Hc Ho. rewrite Hc.
    destruct c; simpl in *; subst. destruct (select_top _ _); by rewrite app_nil_r. }
  pose proof (tell_validators_tick w Hf Hwf) as Ht. py_unfold.
  destruct (tell_validators_to_set_weights w) as [o w1].
  destruct Ht as (-> & Hv & Hsc & Hf1 & Hcl & Hwf1 & Hcn & Hsel).
  specialize (IH (set_clock (w_clock w1 + minutes * 60) w1) Hf1 Hwf1).
  destruct (run_weight_setting_loop n minutes _) as [o2 w2].
  destruct IH as (-> & Hcl2 & Hv2 & Hcn2 & Hwf2 & Hch2). simpl in *.
  split_and!; [done|rewrite Hcl2, Hcl; lia|congruence|congruence|done|].
  intros hk id c Hid Hc Ho. rewrite Hv, Hsc in Hch2.
  destruct (select_top (w_versions w) (w_scores w)) as [t|] eqn:Hs.
  - destruct Hsel as (_ & Hd & _). specialize (Hd hk id Hid). rewrite Hc in Hd.
    simpl in Hd. unfold deliver_open in Hd. rewrite Ho in Hd.
    rewrite (Hch2 hk id (deliver (set_weights_message t) c)); [|congruence|done|done].
    destruct c; simpl in *; subst. by rewrite <- app_assoc.
  - destruct Hsel as [Hr _]. rewrite (Hch2 hk id c); [|congruence|congruence|done].
    done.
Qed.

(** C13 (a divergence from spec section 4.5): an upstream
    failure in the first tick escapes [run_weight_setting_loop], which
    has no [try]: the loop ends with the exception, without broadcasting
    and without sleeping, where the spec requires it to log the failure
    and go on with the next interval. *)
Theorem weight_loop_dies_on_failure n minutes w m :
  w_db_fault w = Some m ->
  let '(o, w') := run_weight_setting_loop (S n) minutes w in
  o = Raise (Exception m) /\ w_registry w' = w_registry w /\ w_clock w' = w_clock w.
Proof. intros Hf. simpl. run_tick. rewrite Hf. simpl. split_and!; done. Qed.
End WeightSetting.

(** ** The lifecycle through the administrative endpoints *)

(** Each administrative request, whatever its password and whether the
    persistence layer works, leaves the versions unchanged or moves them
    by one step of the state machine. *)
Lemma admin_endpoint_lstep r w :
  w_versions (http_response (admin_endpoint r) w).2 = w_versions w \/
  exists o, (forall v, o <> OpCreate v) /\
            lstep (w_versions w) o (w_versions (http_response (admin_endpoint r) w).2).
Proof.
  destruct r as [a pw|vid pw|pw]; simpl; run_endpoint;
    destruct (password_ok _ _); simpl; auto;
    destruct (w_db_fault w); simpl; auto.
  - right. exists (OpBan a). split; [done|by apply lstep_ok].
  - destruct (Lifecycle.approve_version vid (w_versions w)) as [e|m] eqn:Ha; simpl; [auto|].
    right. exists (OpApprove vid). split; [done|by apply lstep_ok].
  - right. exists OpReEvaluate. split; [done|]. apply lstep_ok. simpl.
    destruct (approved_versions (w_versions w)); simpl; done.
Qed.

Lemma admin_run_head rs w :
  exists tl, admin_run rs w = w :: tl.
Proof. destruct rs; eexists; reflexivity. Qed.

(** C4: Along any sequence of administrative requests (bans,
    approvals, re-evaluations, accepted or rejected), the statuses
    observed for a version form a walk on the table of spec section 4.2:
    each observation is the previous status, a table edge, or [banned]
    (spec section 8, first property), and the version store stays well
    formed. *)
Theorem admin_run_walk rs w k :
  store_wf (w_versions w) ->
  LocallySorted may_follow ((fun w => status <$> w_versions w !! k) <$> admin_run rs w) /\
  Forall (fun w' => store_wf (w_versions w')) (admin_run rs w).
Proof.
  revert w. induction rs as [|r rs IH]; intros w Hwf; simpl.
  { split; [constructor|]. by constructor. }
  set (w1 := (http_response (admin_endpoint r) w).2).
  assert (Hstep : w_versions w1 = w_versions w \/
                  exists o, (forall v, o <> OpCreate v) /\ lstep (w_versions w) o (w_versions w1))
    by apply admin_endpoint_lstep.
  assert (Hwf1 : store_wf (w_versions w1)).
  { destruct Hstep as [->|(o & _ & Ho)]; eauto using lstep_preserves_wf. }
  destruct (IH w1 Hwf1) as [IHs IHf].
  destruct (admin_run_head rs w1) as [tl Htl]. rewrite Htl in IHs, IHf |- *.
  split; [|by constructor]. simpl in *. constructor; [done|].
  destruct Hstep as [->|(o & _ & Ho)]; [apply may_follow_refl|by eapply lstep_may_follow].
Qed.

(** ** A banned miner through the later requests *)

Lemma ban_endpoint_versions a pw w :
  w_db_fault w = None -> w_env w !! "BAN_PASSWORD" = Some pw ->
  w_versions (http_response (ban_agent a pw) w).2 = Lifecycle.ban_agent a (w_versions w).
Proof. intros Hf Hpw. run_endpoint. pass_auth Hpw. by rewrite Hf. Qed.

(** No administrative request creates a version, so an agent whose
    versions are all banned stays so along any sequence of them. *)
Lemma admin_run_all_banned a rs w :
  all_banned a (w_versions w) -> Forall (fun w' => all_banned a (w_versions w')) (admin_run rs w).
Proof.
  revert w. induction rs as [|r rs IH]; intros w Hb; simpl; constructor; [done|constructor|done|].
  apply IH. destruct (admin_endpoint_lstep r w) as [->|(o & Ho & Hs)]; [done|].
  by eapply lstep_all_banned.
Qed.

Section BannedMiner.
Context `{TopAgentPolicy}.

Lemma all_banned_not_selected a m rows t :
  all_banned a m -> select_top m rows = Some t -> top_miner_hotkey t <> a.
Proof.
  intros Hb Hs Ha. destruct (select_top_qualifies _ _ _ Hs) as (v & ((k & Hk) & Happ & _) & ->).
  simpl in Ha. rewrite (Hb k v Hk Ha) in Happ. discriminate.
Qed.

(** C34: A banned miner never receives the weights again: after a
    successful ban of [a], in every world reached by any sequence of
    administrative requests (approvals, re-evaluations, other bans, with
    any password, failing or not) the selection, for any policy that
    meets the interface, is not a version of [a]; so no weight tick in
    these worlds broadcasts one (spec sections 4.2 and 4.4: [banned] is
    absorbing and only approved versions qualify). *)
Theorem banned_miner_never_selected a pw w rs w' t :
  w_db_fault w = None -> w_env w !! "BAN_PASSWORD" = Some pw ->
  w' ∈ admin_run rs (http_response (ban_agent a pw) w).2 ->
  select_top (w_versions w') (w_scores w') = Some t -> top_miner_hotkey t <> a.
Proof.
  intros Hf Hpw Hin. apply all_banned_not_selected.
  assert (Hb : all_banned a (w_versions (http_response (ban_agent a pw) w).2))
    by (rewrite ban_endpoint_versions by done; apply ban_agent_all_banned).
  exact (proj1 (Forall_forall _ _) (admin_run_all_banned a rs _ Hb) w' Hin).
Qed.
End BannedMiner.

(** ** The router *)

Lemma router_routes :
  Forall (fun r => route_tags r = ["scoring"] /\ route_dependencies r = [verify_request]) router.
Proof. repeat constructor. Qed.

Lemma serve_Some rd m p q c :
  serve rd m p q = Some c ->
  exists r, r ∈ router /\
    c = foldr (fun d k => rd d;; k)
          (match route_endpoint r q with
           | Some c0 => j ← c0; mret (Some j)
           | None => mret None
           end) (route_dependencies r).
Proof.
  unfold serve. destruct (List.find _ router) as [r|] eqn:Hf; [|discriminate].
  apply List.find_some in Hf as [Hin _]. intros [=<-]. exists r.
  split; [by apply list_elem_of_In|done].
Qed.

(** C27: Every route of the scoring router runs [verify_request]
    before its endpoint and before its parameters are checked: when the
    verification raises, the request is answered with that exception and
    the world is the one the verification left, whatever the route,
    method and parameters. *)
Theorem serve_requires_verification rd m p q c w e w' :
  serve rd m p q = Some c -> rd verify_request w = (Raise e, w') ->
  c w = (Raise e, w').
Proof.
  intros Hs Hv. destruct (serve_Some _ _ _ _ _ Hs) as (r & Hin & ->).
  destruct (proj1 (Forall_forall _ _) router_routes r Hin) as [_ ->].
  simpl. by apply py_run_bind_raise.
Qed.

(** The five routes of lines 105-111 resolve to their functions with the
    parameters taken from the query string, each behind
    [verify_request]; a route answers only the method it was declared
    with. *)
Theorem serve_routes rd a pw vid :
  serve rd "GET" "/check-top-agent" [] =
    Some (rd verify_request;; j ← (t ← weight_receiving_agent; mret (top_agent_response t));
          mret (Some j)) /\
  serve rd "POST" "/ban-agent" [("agent_id", a); ("ban_password", pw)] =
    Some (rd verify_request;; j ← ban_agent a pw; mret (Some j)) /\
  serve rd "POST" "/approve-version" [("version_id", vid); ("approval_password", pw)] =
    Some (rd verify_request;; j ← approve_version vid pw; mret (Some j)) /\
  serve rd "POST" "/trigger-weight-update" [] =
    Some (rd verify_request;; j ← trigger_weight_set; mret (Some j)) /\
  serve rd "POST" "/re-eval-approved" [("approval_password", pw)] =
    Some (rd verify_request;; j ← re_eval_approved pw; mret (Some j)) /\
  serve rd "GET" "/ban-agent" [("agent_id", a); ("ban_password", pw)] = None.
Proof. split_and!; reflexivity. Qed.

(** C33: A request to an administrative route without one of its
    parameters is answered 422 after [verify_request] has run and
    without calling the endpoint: the world is the one the verification
    left, so a malformed ban, approval or re-evaluation changes nothing
    of the agent versions. *)
Theorem serve_missing_parameter rd q :
  (query_get q "agent_id" = None \/ query_get q "ban_password" = None ->
   serve rd "POST" "/ban-agent" q = Some (rd verify_request;; mret None)) /\
  (query_get q "version_id" = None \/ query_get q "approval_password" = None ->
   serve rd "POST" "/approve-version" q = Some (rd verify_request;; mret None)) /\
  (query_get q "approval_password" = None ->
   serve rd "POST" "/re-eval-approved" q = Some (rd verify_request;; mret None)).
Proof.
  split_and!; [intros [H|H]|intros [H|H]|intros H]; cbn -[query_get];
    unfold ban_agent_fn, approve_version_fn, re_eval_approved_fn; rewrite H;
    cbn -[query_get];
    [done|by destruct (query_get q "agent_id")|done|by destruct (query_get q "version_id")|done].
Qed.

(** ** Witnesses on a concrete world *)

(** Two approved versions scored by two validators each, validator [valA]
    connected, [valB] registered with a dropped connection. *)
Definition demo_registry : registry :=
  drop_channel 1 (register "valB" (register "valA" empty_registry)).

Definition demo_world : world :=
  World ex_versions [] ex_rows_band demo_registry
    (<["BAN_PASSWORD" := "ban-secret"]> (<["APPROVAL_PASSWORD" := "approve-secret"]> ∅))
    None [] 0.

Definition faulty_world : world :=
  World ex_versions [] ex_rows_band demo_registry
    (<["BAN_PASSWORD" := "ban-secret"]> (<["APPROVAL_PASSWORD" := "approve-secret"]> ∅))
    (Some "connection refused") [] 0.

Lemma demo_registry_wf : reg_wf demo_registry.
Proof. apply drop_channel_wf, register_wf, register_wf, empty_registry_wf. Qed.

Lemma demo_scores_nonneg : forall r, r ∈ w_scores demo_world -> (0 <= sr_score r)%Q.
Proof.
  intros r Hr. simpl in Hr.
  repeat (apply elem_of_cons in Hr as [->|Hr]; [vm_compute; discriminate|]).
  by apply elem_of_nil in Hr.
Qed.

Lemma admin_bad_password_rejected_witness :
  http_response (ban_agent "miner1" "guess") demo_world =
    ((401%Z, JObj [("detail", JStr "Invalid ban password. Fuck you.")]), demo_world).
Proof.
  apply (proj1 (admin_bad_password_rejected "miner1" "v1" "guess" demo_world)).
  vm_compute. congruence.
Defined.

Lemma ban_agent_endpoint_spec_witness :
  (http_response (ban_agent "miner1" "ban-secret") demo_world).1 =
    (200%Z, message "Agent banned successfully").
Proof.
  pose proof (ban_agent_endpoint_spec "miner1" "ban-secret" demo_world eq_refl eq_refl) as H.
  destruct (http_response _ _) as [resp w']. by destruct H as [-> _].
Defined.

Lemma approve_version_endpoint_spec_witness :
  (http_response (approve_version "v9" "approve-secret") demo_world).1 =
    (500%Z, JObj [("detail", JStr
      "Failed to approve version due to internal server error. Please try again later.")]).
Proof.
  pose proof (approve_version_endpoint_spec "v9" "approve-secret" demo_world eq_refl eq_refl) as H.
  destruct (http_response _ _) as [resp w']. destruct H as [_ H].
  destruct H as [-> _]; [left; reflexivity|reflexivity].
Defined.

Lemma admin_upstream_failure_witness :
  (http_response (ban_agent "miner1" "ban-secret") faulty_world).1 =
    (500%Z, JObj [("detail", JStr
      "Failed to ban agent due to internal server error. Please try again later.")]).
Proof.
  pose proof (proj1 (admin_upstream_failure "miner1" "v1" "ban-secret" faulty_world
                       "connection refused" eq_refl) eq_refl) as H.
  destruct (http_response _ _) as [resp w']. by destruct H as [-> _].
Defined.

Lemma re_eval_endpoint_spec_witness :
  exists body, (http_response (re_eval_approved "approve-secret") demo_world).1 =
    (200%Z, JObj body).
Proof.
  pose proof (re_eval_endpoint_spec "approve-secret" demo_world eq_refl eq_refl) as H.
  destruct (http_response (re_eval_approved "approve-secret") demo_world) as [resp1 w1].
  destruct (http_response (re_eval_approved "approve-secret") w1) as [resp2 w2].
  destruct H as ((body & -> & _) & _). by exists body.
Defined.

Lemma weight_receiving_agent_spec_witness :
  exists o, weight_receiving_agent demo_world = (Ret o, demo_world) /\
            top_agent_spec (w_versions demo_world) (w_scores demo_world) o.
Proof. apply weight_receiving_agent_spec; [reflexivity|exact demo_scores_nonneg]. Defined.

Lemma tell_validators_spec_witness :
  (tell_validators_to_set_weights demo_world).1 = Ret ().
Proof.
  pose proof (tell_validators_spec demo_world eq_refl demo_registry_wf) as H.
  destruct (tell_validators_to_set_weights demo_world) as [o w']. by destruct H as [-> _].
Defined.

Lemma weight_loop_spec_witness :
  w_clock (run_weight_setting_loop 3 5 demo_world).2 = 900%Z.
Proof.
  pose proof (weight_loop_spec 3 5 demo_world eq_refl demo_registry_wf) as H.
  destruct (run_weight_setting_loop 3 5 demo_world) as [o w']. simpl. destruct H as (_ & -> & _). reflexivity.
Defined.

Lemma weight_loop_dies_on_failure_witness :
  (run_weight_setting_loop 3 5 faulty_world).1 = Raise (Exception "connection refused").
Proof.
  pose proof (weight_loop_dies_on_failure 2 5 faulty_world "connection refused" eq_refl) as H.
  destruct (run_weight_setting_loop 3 5 faulty_world) as [o w']. by destruct H as [-> _].
Defined.

(** A verification that refuses every request. *)
Definition deny_all : dependency -> py world unit :=
  fun _ => py_raise (HTTPException 401 "Unauthorized").

Lemma serve_requires_verification_witness :
  (fun c => c demo_world) <$> serve deny_all "POST" "/ban-agent" [("agent_id", "a1")] =
  Some (Raise (HTTPException 401 "Unauthorized"), demo_world).
Proof.
  destruct (serve deny_all "POST" "/ban-agent" _) as [c|] eqn:Hs; [|discriminate].
  simpl. f_equal. exact (serve_requires_verification deny_all _ _ _ c demo_world _ demo_world Hs eq_refl).
Defined.

Lemma serve_missing_parameter_witness :
  query_get [("agent_id", "a1")] "ban_password" = None /\
  (fun c => c demo_world) <$> serve (fun _ => mret ()) "POST" "/ban-agent" [("agent_id", "a1")] =
  Some (Ret None, demo_world).
Proof.
  split; [reflexivity|].
  rewrite (proj1 (serve_missing_parameter (fun _ => mret ()) [("agent_id", "a1")])
             (or_intror eq_refl)).
  reflexivity.
Defined.

Lemma banned_miner_never_selected_witness :
  let w1 := (http_response (ban_agent "miner1" "ban-secret") demo_world).2 in
  let w2 := (http_response (admin_endpoint (ApproveReq "v1" "approve-secret")) w1).2 in
  w2 ∈ admin_run [ApproveReq "v1" "approve-secret"] w1 /\
  select_top (w_versions w2) (w_scores w2) = Some (TopAgent "v2" "miner2") /\
  top_miner_hotkey (TopAgent "v2" "miner2") <> "miner1".
Proof.
  intros w1 w2. split_and!.
  - simpl. apply list_elem_of_further, list_elem_of_here.
  - vm_compute. reflexivity.
  - apply (banned_miner_never_selected "miner1" "ban-secret" demo_world
             [ApproveReq "v1" "approve-secret"] w2); [reflexivity|reflexivity| |vm_compute; reflexivity].
    simpl. apply list_elem_of_further, list_elem_of_here.
Defined.

Lemma admin_run_walk_witness :
  LocallySorted may_follow
    ((fun w => status <$> w_versions w !! "v1") <$>
       admin_run [ReEvalReq "approve-secret"; BanReq "miner1" "ban-secret"] demo_world).
Proof.
  apply (admin_run_walk [ReEvalReq "approve-secret"; BanReq "miner1" "ban-secret"] demo_world "v1").
  unfold store_wf. apply (bool_decide_unpack _). vm_compute. reflexivity.
Defined.

Example demo_tick_messages :
  (chan_outbox <$> chans (w_registry (tell_validators_to_set_weights demo_world).2) !! 0%nat,
   w_logs (tell_validators_to_set_weights demo_world).2) =
  (Some [set_weights_message (TopAgent "v1" "miner1")],
   [failure_log "valB"; (INFO, "Sent updated top agent to all validators: miner1")]).
Proof. vm_compute. reflexivity. Qed.

End Scoring.
