(* ===== verification/MinerWorld.v ===== *)
(** * MinerWorld: the state of the miner process and its collaborators

    The miner ([src/miner]) serves two endpoints that clone a repository,
    change a working tree and answer with a git diff.  Its state is the
    process environment, the current directory, a file system (paths to
    directories, git working trees and files), the miner lock of
    [miner.utils.shared], the number of random draws made so far, the
    log and the standard output.  The collaborators that are not code of
    the repository ([miner.utils.git_ops], [miner.utils.patch], the
    OpenAI client, the [sweagent] program, [uuid4] and [tempfile]) are
    the fields of a [services] record carried by the world: each is a
    function of its inputs, so a concrete world fixes their behaviour and
    a theorem quantified over worlds holds for every behaviour. *)

From S2P Require Import Prelude PyStr.
From Stdlib Require Import Ascii.

Module MinerWorld.
Import PyStr.

(** A git working tree: the repository and commit it was checked out
    from, and the patches applied to it since, oldest first. *)
Record tree := Tree {
  t_repository : json;
  t_commit : json;
  t_changes : list string
}.

Inductive node :=
| NDir
| NRepo (t : tree)
| NFile (content : json).

(** What one run of the [sweagent] program does: it exits with a return
    code, its output, and the working tree it left at the configured
    repository path; or it outlives the timeout; or it cannot start. *)
Inductive swe_outcome :=
| SweExit (returncode : Z) (stdout stderr : string) (t : tree)
| SweTimeout
| SweCrash (e : exn).

Record services := Services {
  (** [clone_and_checkout_repo(repository, commit_hash)] *)
  sv_clone : json -> json -> exn + string;
  (** a chat completion: API key, model, messages; the content of the
      first choice, which may be [None] *)
  sv_chat : string -> string -> list (string * string) -> exn + option string;
  (** [git apply] of a patch on a working tree *)
  sv_apply : tree -> string -> exn + tree;
  (** [git diff] of a working tree against its checkout *)
  sv_diff : tree -> string;
  (** [sweagent run] with a timeout, a configuration and the tree at the
      configured repository path, when there is one *)
  sv_swe : Z -> json -> option tree -> swe_outcome;
  (** the [n]-th value of [str(uuid.uuid4())] and of a fresh temporary
      file name *)
  sv_uuid : nat -> string;
  sv_tmpname : nat -> string
}.

Record mworld := MWorld {
  mw_sv : services;
  mw_env : gmap string string;
  mw_cwd : string;
  mw_fs : gmap string node;
  mw_lock : bool;
  mw_draws : nat;
  mw_logs : list log_record;
  mw_stdout : list string
}.

Definition set_fs (fs : gmap string node) (w : mworld) : mworld :=
  MWorld (mw_sv w) (mw_env w) (mw_cwd w) fs (mw_lock w) (mw_draws w) (mw_logs w) (mw_stdout w).
Definition set_lock (b : bool) (w : mworld) : mworld :=
  MWorld (mw_sv w) (mw_env w) (mw_cwd w) (mw_fs w) b (mw_draws w) (mw_logs w) (mw_stdout w).
Definition next_draw (w : mworld) : mworld :=
  MWorld (mw_sv w) (mw_env w) (mw_cwd w) (mw_fs w) (mw_lock w) (S (mw_draws w)) (mw_logs w) (mw_stdout w).
Definition add_mlog (r : log_record) (w : mworld) : mworld :=
  MWorld (mw_sv w) (mw_env w) (mw_cwd w) (mw_fs w) (mw_lock w) (mw_draws w) (mw_logs w ++ [r]) (mw_stdout w).
Definition add_stdout (line : string) (w : mworld) : mworld :=
  MWorld (mw_sv w) (mw_env w) (mw_cwd w) (mw_fs w) (mw_lock w) (mw_draws w) (mw_logs w) (mw_stdout w ++ [line]).

(** ** Effects *)

Definition mlog (lvl : level) (msg : string) : py mworld unit := py_modify (add_mlog (lvl, msg)).

(** [print(a, b, ...)]: the arguments' [str] joined by spaces, one line. *)
Definition print (args : list string) : py mworld unit := py_modify (add_stdout (String.concat " " args)).

Definition getenv (name : string) : py mworld (option string) :=
  fun w => (Ret (mw_env w !! name), w).

Definition getcwd : py mworld string := fun w => (Ret (mw_cwd w), w).

(** [not api_key] on an [Optional[str]] *)
Definition opt_truthy (v : option string) : bool :=
  match v with Some s => negb (String.eqb s "") | None => false end.

(** [str(v)] of an [Optional[str]] *)
Definition opt_str (v : option string) : string :=
  match v with Some s => s | None => "None" end.

(** A call of a collaborator that answers or raises. *)
Definition py_of_sum {A} (r : exn + A) : py mworld A :=
  match r with inl e => py_raise e | inr a => py_ret a end.

Definition acquire_lock : py mworld unit := py_modify (set_lock true).
Definition release_lock : py mworld unit := py_modify (set_lock false).

(** ** The git collaborators *)

Definition clone_and_checkout_repo (repository commit : json) : py mworld string :=
  fun w => match sv_clone (mw_sv w) repository commit with
           | inl e => (Raise e, w)
           | inr p => (Ret p, set_fs (<[p := NRepo (Tree repository commit [])]> (mw_fs w)) w)
           end.

Definition not_a_repo (p : string) : exn :=
  Exception ("fatal: not a git repository: " +:+ repr_str p).

Definition apply_patch (p patch : string) : py mworld unit :=
  fun w => match mw_fs w !! p with
           | Some (NRepo t) =>
               match sv_apply (mw_sv w) t patch with
               | inl e => (Raise e, w)
               | inr t' => (Ret tt, set_fs (<[p := NRepo t']> (mw_fs w)) w)
               end
           | _ => (Raise (not_a_repo p), w)
           end.

Definition generate_patch (p : string) : py mworld string :=
  fun w => match mw_fs w !! p with
           | Some (NRepo t) => (Ret (sv_diff (mw_sv w) t), w)
           | _ => (Raise (not_a_repo p), w)
           end.

(** ** [os.path] on absolute, normalised paths *)

(** [s.split("/")] *)
Fixpoint split_slash (s : string) : list string :=
  match s with
  | EmptyString => [""]
  | String c s' =>
      let r := split_slash s' in
      if ascii_dec c "/"%char then "" :: r
      else match r with x :: r' => String c x :: r' | [] => [String c ""] end
  end.

Definition path_join (a b : string) : string :=
  if String.prefix "/" b then b
  else if String.eqb a "" || String.eqb (String.substring (String.length a - 1) 1 a) "/"
  then a +:+ b else a +:+ "/" +:+ b.

Definition basename (p : string) : string := default "" (last (split_slash p)).

Fixpoint common_len (a b : list string) : nat :=
  match a, b with
  | x :: a', y :: b' => if String.eqb x y then S (common_len a' b') else O
  | _, _ => O
  end.

Definition path_parts (p : string) : list string :=
  List.filter (fun x => negb (String.eqb x "")) (split_slash p).

Definition relpath (p start : string) : string :=
  let sl := path_parts start in
  let pl := path_parts p in
  let i := common_len sl pl in
  match (replicate (length sl - i) ".." ++ drop i pl)%list with
  | [] => "."
  | rel => String.concat "/" rel
  end.

Definition strip_prefix (pre s : string) : option string :=
  if String.prefix pre s
  then Some (String.substring (String.length pre) (String.length s - String.length pre) s)
  else None.

Definition os_error (errno : Z) (what p : string) : exn :=
  Exception ("[Errno " +:+ pretty errno +:+ "] " +:+ what +:+ ": " +:+ repr_str p).

(** ** [os] and [shutil] on the file system *)

Definition path_exists (p : string) : py mworld bool :=
  fun w => (Ret (bool_decide (is_Some (mw_fs w !! p))), w).

(** [os.makedirs(p, exist_ok=True)]; the parent exists in every call of
    the miner (it is the current directory). *)
Definition makedirs (p : string) : py mworld unit :=
  fun w => match mw_fs w !! p with
           | None => (Ret tt, set_fs (<[p := NDir]> (mw_fs w)) w)
           | Some NDir => (Ret tt, w)
           | Some _ => (Raise (os_error 17 "File exists" p), w)
           end.

(** Whether [k] is [p] or lies below it. *)
Definition under (p k : string) : bool := String.eqb k p || String.prefix (p +:+ "/") k.

Definition rmtree (p : string) : py mworld unit :=
  fun w => match mw_fs w !! p with
           | None => (Raise (os_error 2 "No such file or directory" p), w)
           | Some _ => (Ret tt, set_fs (filter (fun kv => under p kv.1 = false) (mw_fs w)) w)
           end.

(** The entries of [fs] at and below [src], re-rooted at [dst]. *)
Definition copy_entries (src dst : string) (fs : gmap string node) : list (string * node) :=
  omap (fun '(k, n) =>
          if String.eqb k src then Some (dst, n)
          else match strip_prefix (src +:+ "/") k with
               | Some rest => Some (dst +:+ "/" +:+ rest, n)
               | None => None
               end) (map_to_list fs).

Definition copytree (src dst : string) : py mworld unit :=
  fun w => match mw_fs w !! dst, mw_fs w !! src with
           | Some _, _ => (Raise (os_error 17 "File exists" dst), w)
           | None, None => (Raise (os_error 2 "No such file or directory" src), w)
           | None, Some _ => (Ret tt, set_fs (list_to_map (copy_entries src dst (mw_fs w)) ∪ mw_fs w) w)
           end.

(** [os.listdir(d)]: the names of the entries right below [d]. *)
Definition listdir (d : string) : py mworld (list string) :=
  fun w => match mw_fs w !! d with
           | Some NDir =>
               (Ret (omap (fun '(k, _) =>
                             match strip_prefix (d +:+ "/") k with
                             | Some name => if has_char "/"%char name then None else Some name
                             | None => None
                             end) (map_to_list (mw_fs w))), w)
           | Some _ => (Raise (os_error 20 "Not a directory" d), w)
           | None => (Raise (os_error 2 "No such file or directory" d), w)
           end.

(** [str(uuid.uuid4())] *)
Definition uuid4 : py mworld string :=
  fun w => (Ret (sv_uuid (mw_sv w) (mw_draws w)), next_draw w).

(** [tempfile.NamedTemporaryFile(suffix=..., delete=False)] followed by
    [yaml.dump(content, f)]: a fresh file holding the dump of [content];
    its name. *)
Definition write_temp_yaml (suffix : string) (content : json) : py mworld string :=
  fun w => let name := sv_tmpname (mw_sv w) (mw_draws w) +:+ suffix in
           (Ret name, set_fs (<[name := NFile content]> (mw_fs w)) (next_draw w)).

(** ** The [sweagent] program *)

(** The repository path a configuration names ([env.repo.path]). *)
Definition config_repo_path (cfg : json) : option string :=
  match cfg with
  | JObj f =>
      match dict_get "env" f with
      | Some (JObj e) =>
          match dict_get "repo" e with
          | Some (JObj r) => match dict_get "path" r with Some (JStr p) => Some p | _ => None end
          | _ => None
          end
      | _ => None
      end
  | _ => None
  end.

(** [subprocess.run(["sweagent", "run", "--config", cfg_path], timeout=...)]:
    the program reads the configuration file and works on the tree at the
    configured path (relative to the current directory) in place. *)
Definition run_sweagent (timeout : Z) (cfg_path : string) : py mworld (Z * string * string) :=
  fun w =>
    let cfg := match mw_fs w !! cfg_path with Some (NFile c) => c | _ => JNull end in
    let target := path_join (mw_cwd w) (default "" (config_repo_path cfg)) in
    let cur := match mw_fs w !! target with Some (NRepo t) => Some t | _ => None end in
    match sv_swe (mw_sv w) timeout cfg cur with
    | SweTimeout => (Raise TimeoutExpired, w)
    | SweCrash e => (Raise e, w)
    | SweExit rc out err t' =>
        let w' := match cur with
                  | Some _ => set_fs (<[target := NRepo t']> (mw_fs w)) w
                  | None => w
                  end in
        (Ret (rc, out, err), w')
    end.

(** ** Lemmas: what the file-system operations leave alone *)

Lemma under_child p rest : under p (p +:+ "/" +:+ rest) = true.
Proof. unfold under. rewrite <- append_assoc, prefix_app. apply orb_true_r. Qed.

Lemma copy_entries_under src dst fs k n :
  (k, n) ∈ copy_entries src dst fs -> under dst k = true.
Proof.
  unfold copy_entries. intros ([k' n'] & _ & Hkv)%list_elem_of_omap.
  destruct (String.eqb k' src); simpl in Hkv.
  - injection Hkv as <- _. unfold under. by rewrite String.eqb_refl.
  - destruct (strip_prefix _ _) as [rest|]; [|discriminate].
    injection Hkv as <- _. apply under_child.
Qed.

Lemma lookup_copytree_other src dst fs k :
  under dst k = false ->
  (list_to_map (copy_entries src dst fs) ∪ fs : gmap string node) !! k = fs !! k.
Proof.
  intros Hk. apply lookup_union_r, not_elem_of_list_to_map_1.
  intros ([k' n] & Heq & Hin)%list_elem_of_fmap. simpl in Heq. subst k'.
  apply copy_entries_under in Hin. congruence.
Qed.

Lemma lookup_rmtree_other p (fs : gmap string node) k :
  under p k = false -> filter (fun kv => under p kv.1 = false) fs !! k = fs !! k.
Proof.
  intros Hk. destruct (fs !! k) as [n|] eqn:E.
  - by apply map_lookup_filter_Some_2.
  - apply map_lookup_filter_None_2. by left.
Qed.

(** ** Lemmas: [os.path] on normalised absolute paths *)

(** A path component: not empty, no slash. *)
Definition good_part (p : string) : bool := negb (String.eqb p "") && negb (has_char "/" p).

(** The absolute path of the components [ps]. *)
Definition mk_path (ps : list string) : string := "/" +:+ String.concat "/" ps.

Lemma split_slash_slash b : split_slash ("/" +:+ b) = "" :: split_slash b.
Proof. reflexivity. Qed.

Lemma split_slash_app_slash a b :
  has_char "/" a = false -> split_slash (a +:+ "/" +:+ b) = a :: split_slash b.
Proof.
  induction a as [|c a IH]; intros Ha; [reflexivity|].
  change ((if ascii_dec "/" c then true else has_char "/" a) = false) in Ha.
  destruct (ascii_dec "/" c) as [|Hc]; [discriminate|].
  change (split_slash (String c (a +:+ "/" +:+ b)) = String c a :: split_slash b).
  simpl. rewrite IH by done. destruct (ascii_dec c "/"); [congruence|done].
Qed.

Lemma split_slash_no_slash a : has_char "/" a = false -> split_slash a = [a].
Proof.
  induction a as [|c a IH]; intros Ha; [reflexivity|].
  change ((if ascii_dec "/" c then true else has_char "/" a) = false) in Ha.
  destruct (ascii_dec "/" c) as [|Hc]; [discriminate|]. cbn [split_slash]. rewrite IH by done.
  destruct (ascii_dec c "/"); [congruence|done].
Qed.

Lemma split_slash_concat ps :
  ps <> [] -> Forall (fun p => has_char "/" p = false) ps -> split_slash (String.concat "/" ps) = ps.
Proof.
  induction ps as [|p ps IH]; intros Hne Hall; [done|]. inversion Hall as [|? ? Hp Hps]; subst.
  destruct ps as [|q ps]; [by apply split_slash_no_slash|].
  change (String.concat "/" (p :: q :: ps)) with (p +:+ "/" +:+ String.concat "/" (q :: ps)).
  rewrite split_slash_app_slash by done. by rewrite IH.
Qed.

Lemma good_part_no_slash p : good_part p = true -> has_char "/" p = false.
Proof. unfold good_part. rewrite andb_true_iff, !negb_true_iff. tauto. Qed.

Lemma path_parts_mk_path ps : Forall (fun p => good_part p = true) ps -> path_parts (mk_path ps) = ps.
Proof.
  intros Hall. unfold path_parts, mk_path. rewrite split_slash_slash.
  destruct ps as [|p ps]; [reflexivity|].
  rewrite split_slash_concat; [|done|by eapply Forall_impl; [exact Hall|]; apply good_part_no_slash].
  transitivity (List.filter (fun x => negb (String.eqb x "")) (p :: ps)); [reflexivity|].
  apply filter_all. eapply Forall_impl; [exact Hall|].
  intros x. unfold good_part. by rewrite andb_true_iff; intros [-> _].
Qed.

Lemma common_len_app ps qs : common_len ps (ps ++ qs) = length ps.
Proof. induction ps as [|p ps IH]; [by destruct qs|]. simpl. by rewrite String.eqb_refl, IH. Qed.

(** [os.path.relpath] of a path below [start]. *)
Lemma relpath_below ps qs :
  Forall (fun p => good_part p = true) (ps ++ qs) -> qs <> [] ->
  relpath (mk_path (ps ++ qs)) (mk_path ps) = String.concat "/" qs.
Proof.
  intros Hall Hqs. apply Forall_app in Hall as Hps. destruct Hps as [Hps _].
  unfold relpath. rewrite !path_parts_mk_path by done. rewrite common_len_app, Nat.sub_diag.
  simpl. rewrite drop_app_length. by destruct qs.
Qed.

Lemma good_part_snoc p : good_part p = true -> exists x c, p = x +:+ String c "" /\ c <> "/"%char.
Proof.
  unfold good_part. rewrite andb_true_iff, !negb_true_iff, String.eqb_neq. intros [Hne Hs].
  destruct (string_snoc p Hne) as (x & c & ->). exists x, c. split; [done|].
  intros ->. rewrite has_char_app in Hs. apply orb_false_iff in Hs as [_ Hs].
  simpl in Hs. by destruct (ascii_dec "/" "/").
Qed.

(** A path of components does not end with a slash. *)
Lemma mk_path_last ps :
  ps <> [] -> Forall (fun p => good_part p = true) ps ->
  String.substring (String.length (mk_path ps) - 1) 1 (mk_path ps) <> "/".
Proof.
  intros Hne Hall. destruct (exists_last Hne) as (ps' & p & ->).
  apply Forall_app in Hall as [_ Hp]. rewrite Forall_singleton in Hp.
  destruct (good_part_snoc p Hp) as (x & c & -> & Hc).
  assert (Hm : exists y, mk_path (ps' ++ [x +:+ String c ""]) = y +:+ String c "").
  { unfold mk_path. destruct ps' as [|q ps'].
    - exists ("/" +:+ x). by rewrite append_assoc.
    - rewrite concat_app by done. exists ("/" +:+ String.concat "/" (q :: ps') +:+ "/" +:+ x).
      by rewrite !append_assoc. }
  destruct Hm as [y ->]. rewrite substring_last. intros [=]. done.
Qed.

Lemma prefix_slash_concat qs :
  qs <> [] -> Forall (fun p => good_part p = true) qs -> String.prefix "/" (String.concat "/" qs) = false.
Proof.
  intros Hne Hall. destruct qs as [|q qs]; [done|]. inversion Hall as [|? ? Hq _]; subst.
  unfold good_part in Hq. rewrite andb_true_iff, !negb_true_iff, String.eqb_neq in Hq.
  destruct Hq as [Hne' Hs]. destruct q as [|c q]; [done|].
  assert (Hc : c <> "/"%char) by (intros ->; simpl in Hs; by destruct (ascii_dec "/" "/")).
  assert (Hr : exists rest, String.concat "/" (String c q :: qs) = String c rest)
    by (destruct qs; eexists; reflexivity).
  destruct Hr as [rest ->].
  change ((match ascii_dec "/" c with left _ => String.prefix "" rest | right _ => false end) = false).
  by destruct (ascii_dec "/" c).
Qed.

(** [os.path.join] of a path and a relative path below it. *)
Lemma path_join_below ps qs :
  Forall (fun p => good_part p = true) (ps ++ qs) -> qs <> [] ->
  path_join (mk_path ps) (String.concat "/" qs) = mk_path (ps ++ qs).
Proof.
  intros Hall Hqs. apply Forall_app in Hall as Hall'. destruct Hall' as [Hps Hqs'].
  unfold path_join. rewrite prefix_slash_concat by done.
  destruct ps as [|p ps]; [reflexivity|].
  rewrite (proj2 (String.eqb_neq _ _)) by (unfold mk_path; discriminate).
  rewrite (proj2 (String.eqb_neq _ _) (mk_path_last (p :: ps) ltac:(done) Hps)). simpl orb. cbv iota.
  unfold mk_path. rewrite concat_app by done. by rewrite !append_assoc.
Qed.

(** Round trip: [os.path.join(start, os.path.relpath(p, start)) == p]
    for a normalised [p] strictly below a normalised [start]. *)
Lemma path_join_relpath ps qs :
  Forall (fun p => good_part p = true) (ps ++ qs) -> qs <> [] ->
  path_join (mk_path ps) (relpath (mk_path (ps ++ qs)) (mk_path ps)) = mk_path (ps ++ qs).
Proof. intros Hall Hqs. rewrite relpath_below by done. by apply path_join_below. Qed.

(** ** Running the handlers symbolically *)

Ltac miner_unfold :=
  unfold mbind, mret, py_mbind, py_mret, py_bind, py_ret, py_raise,
    py_get, py_put, py_modify, py_try, py_finally, py_of_option, py_when.

(** Reduce the run: first the boolean tests, then the plumbing, then the
    projections of the world (in this order the kernel re-checks the
    reductions in linear time). *)
Ltac mred :=
  cbn [negb orb andb truthy opt_truthy opt_str is_http_exception py_ret py_raise];
  cbv beta iota zeta;
  cbn [mw_sv mw_env mw_cwd mw_fs mw_lock mw_draws mw_logs mw_stdout
       add_mlog add_stdout set_fs set_lock next_draw].

End MinerWorld.
