(* ===== verification/Codegen.v ===== *)
(** * Codegen: the miner's code-generation endpoint

    [src/miner/utils/llm.py] ([generate_solution_with_openai]) and
    [src/miner/endpoints/codegen.py] ([process_challenge], its route and
    [HELLO_WORLD_DIFF]).  The handler runs under the miner lock: it logs,
    acquires the lock, runs the body inside [try/except/finally] and
    releases the lock on every path ([async with]).  A second model,
    [task_step], runs several requests as interleaved tasks that wait for
    the lock, so that mutual exclusion is a theorem about schedules. *)

From S2P Require Import Prelude PyStr MinerWorld.

Module Codegen.
Import PyStr MinerWorld.

(** ** [llm.py] *)

Definition user_prompt (problem_statement : string) : string :=
  problem_statement +:+ nl +:+ nl +:+
  "Output ONLY the raw unified git diff (patch) code that implements the solution. " +:+
  "Do NOT include any explanations, markdown, code blocks, or any extra text. " +:+
  "Do NOT use triple backticks or any formatting. " +:+
  "Do NOT say anything before or after the diff. " +:+
  "Return ONLY the code for the patch, starting with 'diff --git'. " +:+
  "If you include anything else, the solution will be rejected. " +:+
  "If you need to create a new file, use the correct unified diff format for new files, including '--- /dev/null', '+++ b/<filename>', and 'new file mode 100644'. " +:+
  "Ensure the patch is valid and can be applied with 'git apply' without errors. The patch must end with a single newline and have no extra blank lines or trailing whitespace.".

Definition chat_messages (problem_statement : string) : list (string * string) :=
  [("system", "You are a helpful coding assistant."); ("user", user_prompt problem_statement)].

(** The caller passes the JSON value it read; the f-string of the prompt
    takes its [str]. *)
Definition generate_solution_with_openai (problem_statement : json) (api_key : string)
    : py mworld (option string) :=
  fun w => match sv_chat (mw_sv w) api_key "gpt-4" (chat_messages (py_str problem_statement)) with
           | inl e => (Raise e, w)
           | inr content => (Ret content, w)
           end.

(** ** [codegen.py] *)

Definition HELLO_WORLD_DIFF : string :=
  "diff --git a/newfolder/main.py b/newfolder/main.py" +:+ nl +:+
  "new file mode 100644" +:+ nl +:+
  "index 0000000..df1dc68" +:+ nl +:+
  "--- /dev/null" +:+ nl +:+
  "+++ b/newfolder/main.py" +:+ nl +:+
  "@@ -0,0 +1 @@" +:+ nl +:+
  "+print('Hello World')" +:+ nl.

(** The request body: the JSON value [await request.json()] decodes, or
    the exception it raises. *)
Definition request : Type := exn + json.

Definition request_json (r : request) : py mworld json := py_of_sum r.

(** [v.rstrip()] on the content of the completion, which may be [None]. *)
Definition py_rstrip (v : option string) : py mworld string :=
  match v with
  | Some s => py_ret (rstrip s)
  | None => py_raise (Exception "'NoneType' object has no attribute 'rstrip'")
  end.

Definition is_git_diff (patch : string) : bool := startswith (strip patch) "diff --git".

(** Lines 34-89: the body of the [try]. *)
Definition challenge_body (req : request) : py mworld json :=
  challenge_data ← request_json req;
  challenge_id ← json_get challenge_data "challenge_id";
  problem_statement ← json_get challenge_data "problem_statement";
  dynamic_checklist ← json_get challenge_data "dynamic_checklist";
  repository ← json_get challenge_data "repository_name";
  commit_hash ← json_get challenge_data "commit_hash";
  mlog INFO ("Received challenge data: " +:+ json_dumps_indent2 challenge_data);;
  (if negb (truthy problem_statement) || negb (truthy dynamic_checklist)
   then py_raise (HTTPException 400 "Incomplete problem provided") else py_ret tt);;
  api_key ← getenv "OPENAI_API_KEY";
  (if negb (opt_truthy api_key)
   then mlog ERROR "OpenAI API key not set in environment";;
        py_raise (HTTPException 500 "OpenAI API key not set in environment")
   else py_ret tt);;
  mlog INFO ("Cloning repository " +:+ py_str repository +:+ " at commit " +:+ py_str commit_hash);;
  repo_path ← clone_and_checkout_repo repository commit_hash;
  mlog INFO ("Repository cloned to " +:+ repo_path);;
  mlog INFO ("Processing challenge " +:+ py_str challenge_id +:+ " with problem statement "
             +:+ py_str problem_statement);;
  mlog INFO "Generating solution using OpenAI...";;
  solution ← generate_solution_with_openai problem_statement (opt_str api_key);
  mlog INFO ("Generated solution patch: " +:+ opt_str solution);;
  stripped ← py_rstrip solution;
  let solution_patch := stripped +:+ nl in
  (if negb (is_git_diff solution_patch)
   then mlog ERROR ("LLM output is not a valid git diff (patch). Output was: " +:+ solution_patch);;
        py_raise (HTTPException 500 "LLM did not return a valid git diff (patch).")
   else py_ret tt);;
  py_try (apply_patch repo_path solution_patch;; mlog INFO "Patch applied successfully.")
    (fun e => mlog ERROR ("Failed to apply patch: " +:+ exn_str e);;
              py_raise (HTTPException 500 ("Failed to apply patch: " +:+ exn_str e)));;
  patch ← generate_patch repo_path;
  mlog INFO ("Generated patch:" +:+ nl +:+ patch);;
  let response := JObj [("challenge_id", challenge_id); ("patch", JStr patch)] in
  mlog INFO ("Responded to challenge " +:+ py_str challenge_id);;
  py_ret response.

(** Lines 90-95: [except HTTPException: raise] and [except Exception]. *)
Definition challenge_handler (e : exn) : py mworld json :=
  if is_http_exception e then py_raise e
  else mlog ERROR ("Error processing soccer challenge: " +:+ exn_str e);;
       mlog ERROR "Full error traceback:";;
       py_raise (HTTPException 500 ("Challenge processing error: " +:+ exn_str e)).

(** Lines 33-97: the [try] statement. *)
Definition try_challenge (req : request) : py mworld json :=
  py_finally (py_try (challenge_body req) challenge_handler)
    (mlog INFO "Releasing miner lock...").

(** Lines 32-97: what runs while the lock is held. *)
Definition locked_region (req : request) : py mworld json :=
  mlog INFO "Miner lock acquired, processing challenge...";;
  try_challenge req.

(** Lines 26-97, run by a task that finds the lock free. *)
Definition process_challenge (req : request) : py mworld json :=
  mlog INFO "Attempting to acquire miner lock...";;
  acquire_lock;;
  py_finally (locked_region req) release_lock.

(** Lines 100-109: the router (mounted under [/codegen] by [main.py]). *)
Definition codegen_routes : list (string * string) := [("POST", "/challenge")].

(** ** Requests as tasks that wait for the lock *)

Inductive task :=
| TArriving (r : request)
| TWaiting (r : request)
| THolding (r : request)
| TDone (o : outcome json).

(** One step of task [i]: announce; take the free lock and log it (a
    waiting task does not run while the lock is held); or run the rest of
    the locked region and release.  The body's only suspension point is
    [await request.json()] at its start; every later call is synchronous,
    so the rest of the region runs without interleaving.  [None] when
    task [i] cannot move. *)
Definition task_step (i : nat) (st : mworld * list task) : option (mworld * list task) :=
  let '(w, ts) := st in
  match ts !! i with
  | Some (TArriving r) =>
      let '(_, w') := mlog INFO "Attempting to acquire miner lock..." w in
      Some (w', <[i := TWaiting r]> ts)
  | Some (TWaiting r) =>
      if mw_lock w then None
      else let '(_, w') := (acquire_lock;; mlog INFO "Miner lock acquired, processing challenge...") w in
           Some (w', <[i := THolding r]> ts)
  | Some (THolding r) =>
      let '(o, w') := py_finally (try_challenge r) release_lock w in
      Some (w', <[i := TDone o]> ts)
  | _ => None
  end.

(** A schedule runs the steps in order; a step of a task that cannot move
    is skipped (the scheduler picks another task). *)
Fixpoint run_schedule (sched : list nat) (st : mworld * list task) : mworld * list task :=
  match sched with
  | [] => st
  | i :: sched' => run_schedule sched' (default st (task_step i st))
  end.

Definition holding (t : task) : bool := match t with THolding _ => true | _ => false end.

Definition is_done (t : task) : bool := match t with TDone _ => true | _ => false end.

(** The lock is held exactly when one task holds it. *)
Definition lock_inv (st : mworld * list task) : Prop :=
  (mw_lock st.1 = true <-> exists i t, st.2 !! i = Some t /\ holding t = true) /\
  (forall i j ti tj, st.2 !! i = Some ti -> st.2 !! j = Some tj ->
     holding ti = true -> holding tj = true -> i = j).

(** The steps a task has left. *)
Definition rank (t : task) : nat :=
  match t with TArriving _ => 3 | TWaiting _ => 2 | THolding _ => 1 | TDone _ => 0 end.

Definition total_rank (ts : list task) : nat := sum_list (rank <$> ts).

(** The scheduler that always runs the first task that can move. *)
Definition first_enabled (st : mworld * list task) : option nat :=
  List.find (fun i => bool_decide (is_Some (task_step i st))) (seq 0 (length st.2)).

Fixpoint run_greedy (fuel : nat) (st : mworld * list task) : mworld * list task :=
  match fuel with
  | O => st
  | S fuel' =>
      match first_enabled st with
      | Some i => run_greedy fuel' (default st (task_step i st))
      | None => st
      end
  end.

(** ** Lemmas: the lock and the tasks *)

Lemma finally_release_unlocks {A} (c : py mworld A) w :
  mw_lock (py_finally c release_lock w).2 = false.
Proof. unfold py_finally, release_lock, py_modify. by destruct (c w). Qed.

(** What one step of a task does to the lock and to the tasks. *)
Lemma task_step_cases i w ts st' :
  task_step i (w, ts) = Some st' ->
  (exists r, ts !! i = Some (TArriving r) /\ mw_lock st'.1 = mw_lock w /\
             st'.2 = <[i := TWaiting r]> ts) \/
  (exists r, ts !! i = Some (TWaiting r) /\ mw_lock w = false /\ mw_lock st'.1 = true /\
             st'.2 = <[i := THolding r]> ts) \/
  (exists r o, ts !! i = Some (THolding r) /\ mw_lock st'.1 = false /\
               st'.2 = <[i := TDone o]> ts).
Proof.
  unfold task_step. destruct (ts !! i) as [[r|r|r|o]|] eqn:Hi; intros Hs; try discriminate.
  - left. exists r. injection Hs as <-. done.
  - right; left. destruct (mw_lock w) eqn:Hl; [discriminate|].
    injection Hs as <-. eauto.
  - right; right. destruct (py_finally (try_challenge r) release_lock w) as [o w'] eqn:Hf.
    injection Hs as <-. exists r, o. split_and!; [done| |done].
    pose proof (finally_release_unlocks (try_challenge r) w) as Hu. by rewrite Hf in Hu.
Qed.

Lemma holding_insert_other (ts : list task) i x j t :
  holding x = false -> <[i := x]> ts !! j = Some t -> holding t = true ->
  i <> j /\ ts !! j = Some t.
Proof. intros Hx [(-> & -> & _)|?]%list_lookup_insert_Some Ht; congruence. Qed.

Lemma task_step_lock_inv i st st' :
  lock_inv st -> task_step i st = Some st' -> lock_inv st'.
Proof.
  destruct st as [w ts], st' as [w' ts']. intros [Hl Hu] Hs.
  destruct (task_step_cases _ _ _ _ Hs)
    as [(r & Hi & Hl' & Ht)|[(r & Hi & Hf & Hl' & Ht)|(r & o & Hi & Hl' & Ht)]];
    simpl in *; subst ts'; unfold lock_inv; simpl.
  - split.
    + rewrite Hl', Hl. split; intros (j & t & Hj & Ht).
      * destruct (decide (i = j)) as [->|]; [by simplify_eq/=|].
        exists j, t. by rewrite list_lookup_insert_ne.
      * destruct (holding_insert_other _ _ (TWaiting r) _ _ eq_refl Hj Ht). eauto.
    + intros j k tj tk Hj Hk Htj Htk.
      destruct (holding_insert_other _ _ (TWaiting r) _ _ eq_refl Hj Htj).
      destruct (holding_insert_other _ _ (TWaiting r) _ _ eq_refl Hk Htk). eauto.
  - assert (Hnone : forall j t, ts !! j = Some t -> holding t = false).
    { intros j t Hj. destruct (holding t) eqn:Ht; [|done].
      assert (mw_lock w = true) by (apply Hl; eauto). congruence. }
    assert (Hlt : i < length ts) by eauto using lookup_lt_Some.
    split.
    + rewrite Hl'. split; [intros _|done]. exists i, (THolding r).
      by rewrite list_lookup_insert_eq.
    + intros j k tj tk Hj Hk Htj Htk.
      apply list_lookup_insert_Some in Hj as [(<- & <- & _)|[? Hj]];
      apply list_lookup_insert_Some in Hk as [(<- & <- & _)|[? Hk]]; try done;
      by rewrite (Hnone _ _ Hk) in Htk || by rewrite (Hnone _ _ Hj) in Htj.
  - assert (Hnone : forall j t, <[i := TDone o]> ts !! j = Some t -> holding t = false).
    { intros j t Hj. destruct (holding t) eqn:Ht; [|done].
      destruct (holding_insert_other _ _ (TDone o) _ _ eq_refl Hj Ht) as [Hne Hj'].
      destruct Hne. by apply (Hu i j (THolding r) t). }
    split.
    + rewrite Hl'. split; [done|]. intros (j & t & Hj & Ht). by rewrite (Hnone _ _ Hj) in Ht.
    + intros j k tj tk Hj _ Htj _. by rewrite (Hnone _ _ Hj) in Htj.
Qed.

Lemma run_schedule_lock_inv sched st :
  lock_inv st -> lock_inv (run_schedule sched st).
Proof.
  revert st. induction sched as [|i sched IH]; intros st Hinv; simpl; [done|].
  apply IH. destruct (task_step i st) eqn:Hs; simpl; [|done].
  by apply (task_step_lock_inv i st).
Qed.

Lemma lock_inv_arriving w rs :
  mw_lock w = false -> lock_inv (w, TArriving <$> rs).
Proof.
  intros Hl. split; simpl.
  - rewrite Hl. split; [done|]. intros (j & t & Hj & Ht).
    apply list_lookup_fmap_Some in Hj as (r & -> & _). done.
  - intros j k tj tk Hj _ Htj _.
    apply list_lookup_fmap_Some in Hj as (r & -> & _). done.
Qed.

Lemma total_rank_insert ts i t x :
  ts !! i = Some t -> total_rank (<[i := x]> ts) + rank t = total_rank ts + rank x.
Proof.
  unfold total_rank. revert i. induction ts as [|a ts IH]; intros [|i] Hi; simplify_eq/=; [lia|].
  specialize (IH i Hi). lia.
Qed.

Lemma task_step_rank i st st' :
  task_step i st = Some st' -> total_rank st'.2 < total_rank st.2.
Proof.
  destruct st as [w ts], st' as [w' ts']. intros Hs.
  destruct (task_step_cases _ _ _ _ Hs)
    as [(r & Hi & _ & Ht)|[(r & Hi & _ & _ & Ht)|(r & o & Hi & _ & Ht)]];
    simpl in *; subst ts'; pose proof (fun x => total_rank_insert _ _ _ x Hi) as Hr;
    [specialize (Hr (TWaiting r))|specialize (Hr (THolding r))|specialize (Hr (TDone o))];
    simpl in Hr; lia.
Qed.

(** No deadlock: while a task is not done, some task can move. *)
Lemma task_progress st :
  lock_inv st -> (exists i t, st.2 !! i = Some t /\ is_done t = false) ->
  exists i st', task_step i st = Some st'.
Proof.
  destruct st as [w ts]. intros [Hl _] (i & t & Hi & Ht). simpl in *.
  destruct t as [r|r|r|o]; try discriminate.
  - exists i. unfold task_step; simpl. rewrite Hi. eauto.
  - destruct (mw_lock w) eqn:Hw.
    + destruct (proj1 Hl eq_refl) as (j & [r'|r'|r'|o'] & Hj & Hh); try discriminate.
      exists j. unfold task_step; simpl. rewrite Hj. destruct (py_finally _ _ _). eauto.
    + exists i. unfold task_step; simpl. rewrite Hi. eauto.
  - exists i. unfold task_step; simpl. rewrite Hi. destruct (py_finally _ _ _). eauto.
Qed.

Lemma first_enabled_Some st i :
  first_enabled st = Some i -> exists st', task_step i st = Some st'.
Proof.
  unfold first_enabled. intros Hf. apply List.find_some in Hf as [_ Hf].
  by apply bool_decide_eq_true in Hf.
Qed.

Lemma first_enabled_None st :
  first_enabled st = None -> lock_inv st ->
  forall i t, st.2 !! i = Some t -> is_done t = true.
Proof.
  intros Hf Hinv i t Hi. destruct (is_done t) eqn:Hd; [done|exfalso].
  destruct (task_progress st Hinv) as (j & st' & Hj); [eauto|].
  assert (Hjl : j < length st.2).
  { destruct st as [w ts]. unfold task_step in Hj. simpl.
    destruct (ts !! j) eqn:E; [eauto using lookup_lt_Some|discriminate]. }
  pose proof (List.find_none _ _ Hf j) as Hn.
  rewrite bool_decide_eq_false in Hn. apply Hn; [|by rewrite Hj].
  apply in_seq. lia.
Qed.

Lemma run_greedy_done n st :
  lock_inv st -> total_rank st.2 <= n ->
  forall i t, (run_greedy n st).2 !! i = Some t -> is_done t = true.
Proof.
  revert st. induction n as [|n IH]; intros st Hinv Hr; simpl.
  - intros i t Hi. destruct t; [..|done]; exfalso;
      pose proof (total_rank_insert _ _ _ (TDone (Ret JNull)) Hi); simpl in *; lia.
  - destruct (first_enabled st) as [i|] eqn:Hf.
    + destruct (first_enabled_Some _ _ Hf) as [st' Hs]. rewrite Hs. simpl.
      apply IH; [by apply (task_step_lock_inv i st)|].
      pose proof (task_step_rank _ _ _ Hs). lia.
    + by apply first_enabled_None.
Qed.

Lemma total_rank_arriving rs : total_rank (TArriving <$> rs) = 3 * length rs.
Proof. unfold total_rank. induction rs as [|r rs IH]; [done|]. rewrite !fmap_cons. cbn [sum_list]. rewrite IH. simpl. lia. Qed.

(** ** Lemmas: the handler *)

(** The validation of line 67 on the normalised completion is a test on
    the raw completion. *)
Lemma is_git_diff_normalized_raw s :
  is_git_diff (rstrip s ++ nl) = startswith (lstrip s) "diff --git".
Proof.
  unfold is_git_diff. rewrite strip_rstrip_nl. unfold strip.
  by apply startswith_rstrip.
Qed.

Lemma try_handler_http (c : py mworld json) w e w' :
  py_try c challenge_handler w = (Raise e, w') -> is_http_exception e = true.
Proof.
  unfold py_try. destruct (c w) as [[a|e0] w0]; [discriminate|].
  unfold challenge_handler. destruct (is_http_exception e0) eqn:He.
  - unfold py_raise. intros [= <- _]. done.
  - unfold mlog. miner_unfold. intros [= <- _]. done.
Qed.

Lemma process_challenge_outcome r w :
  exists w0, (process_challenge r w).1 = (py_try (challenge_body r) challenge_handler w0).1.
Proof.
  exists (add_mlog (INFO, "Miner lock acquired, processing challenge...")
            (set_lock true (add_mlog (INFO, "Attempting to acquire miner lock...") w))).
  unfold process_challenge, locked_region, try_challenge, mlog, acquire_lock, release_lock.
  unfold mbind, py_mbind, py_bind, py_modify, py_finally. cbv beta iota.
  by destruct (py_try (challenge_body r) challenge_handler _).
Qed.

Ltac run_codegen :=
  unfold process_challenge, locked_region, try_challenge, challenge_body, challenge_handler,
    request_json, py_of_sum, mlog, getenv, acquire_lock, release_lock, clone_and_checkout_repo,
    generate_solution_with_openai, py_rstrip, apply_patch, generate_patch, json_get;
  miner_unfold; mred.

Section Run.
Context (f : list (string * json)) (w : mworld).
Context (cid ps dc repo commit : json).
Hypothesis Hcid : py_dict_get f "challenge_id" = cid.
Hypothesis Hps : py_dict_get f "problem_statement" = ps.
Hypothesis Hdc : py_dict_get f "dynamic_checklist" = dc.
Hypothesis Hrepo : py_dict_get f "repository_name" = repo.
Hypothesis Hcommit : py_dict_get f "commit_hash" = commit.

Definition codegen_logs_head : list log_record :=
  [(INFO, "Attempting to acquire miner lock...");
   (INFO, "Miner lock acquired, processing challenge...");
   (INFO, "Received challenge data: " +:+ json_dumps_indent2 (JObj f))].

(** C19: A challenge without a problem statement or without a checklist is
    refused with 400 before anything else happens: no clone, the lock
    released, and only the entry, lock, request and release lines logged. *)
Theorem process_challenge_incomplete :
  truthy ps = false \/ truthy dc = false ->
  let '(o, w') := process_challenge (inr (JObj f)) w in
  o = Raise (HTTPException 400 "Incomplete problem provided") /\
  mw_fs w' = mw_fs w /\ mw_lock w' = false /\
  mw_logs w' = (mw_logs w ++ codegen_logs_head ++ [(INFO, "Releasing miner lock...")])%list.
Proof.
  intros Hinc. run_codegen. rewrite Hps, Hdc.
  assert (E : negb (truthy ps) || negb (truthy dc) = true)
    by (destruct Hinc as [-> | ->]; [done|by rewrite orb_true_r]).
  rewrite E. mred. split_and!; try done.
  unfold codegen_logs_head. by rewrite <- !app_assoc.
Qed.

(** C20: Without an OpenAI key in the environment the challenge is refused
    with 500 before the repository is cloned. *)
Theorem process_challenge_no_api_key :
  truthy ps = true -> truthy dc = true ->
  mw_env w !! "OPENAI_API_KEY" = None \/ mw_env w !! "OPENAI_API_KEY" = Some "" ->
  let '(o, w') := process_challenge (inr (JObj f)) w in
  o = Raise (HTTPException 500 "OpenAI API key not set in environment") /\
  mw_fs w' = mw_fs w /\ mw_lock w' = false.
Proof.
  intros Hpt Hdt Hkey. run_codegen. rewrite Hps, Hdc, Hpt, Hdt. mred.
  destruct Hkey as [-> | ->]; mred; done.
Qed.

Section Valid.
Context (key p s : string).
Hypothesis Hpt : truthy ps = true.
Hypothesis Hdt : truthy dc = true.
Hypothesis Hkey : mw_env w !! "OPENAI_API_KEY" = Some key.
Hypothesis Hkne : key <> "".
Hypothesis Hclone : sv_clone (mw_sv w) repo commit = inr p.
Hypothesis Hchat : sv_chat (mw_sv w) key "gpt-4" (chat_messages (py_str ps)) = inr (Some s).

Ltac run_to_validation :=
  run_codegen; rewrite Hps, Hdc, Hpt, Hdt; mred; rewrite Hkey; mred;
  rewrite (proj2 (String.eqb_neq key "") Hkne); mred;
  rewrite Hrepo, Hcommit, Hclone; mred; rewrite Hchat; mred.

(** C14: A complete challenge whose completion is a git diff (after leading
    whitespace) and applies: the answer carries the challenge id and the
    diff of the clone with the normalised completion applied; the clone
    is the only change to the file system and the lock is released. *)
Theorem process_challenge_success t' :
  startswith (lstrip s) "diff --git" = true ->
  sv_apply (mw_sv w) (Tree repo commit []) (rstrip s +:+ nl) = inr t' ->
  let '(o, w') := process_challenge (inr (JObj f)) w in
  o = Ret (JObj [("challenge_id", cid); ("patch", JStr (sv_diff (mw_sv w) t'))]) /\
  mw_fs w' = <[p := NRepo t']> (mw_fs w) /\ mw_lock w' = false.
Proof.
  intros Hdiff Happly. rewrite <- is_git_diff_normalized_raw in Hdiff.
  run_to_validation. rewrite Hdiff. mred.
  rewrite lookup_insert_eq, Happly. mred. rewrite lookup_insert_eq. mred.
  rewrite Hcid. split_and!; [done| |done]. by rewrite insert_insert_eq.
Qed.

(** C21: A completion that is not a git diff is refused with 500; the
    fresh clone stays on disk untouched. *)
Theorem process_challenge_rejects_non_diff :
  startswith (lstrip s) "diff --git" = false ->
  let '(o, w') := process_challenge (inr (JObj f)) w in
  o = Raise (HTTPException 500 "LLM did not return a valid git diff (patch).") /\
  mw_fs w' = <[p := NRepo (Tree repo commit [])]> (mw_fs w) /\ mw_lock w' = false.
Proof.
  intros Hdiff. rewrite <- is_git_diff_normalized_raw in Hdiff.
  run_to_validation. rewrite Hdiff. mred. done.
Qed.

(** C22: When [git apply] fails with [e], the answer is a 500 whose detail
    is ["Failed to apply patch: " + str(e)], raised once: the outer
    [except HTTPException] passes it through unchanged. *)
Theorem process_challenge_apply_failure e :
  startswith (lstrip s) "diff --git" = true ->
  sv_apply (mw_sv w) (Tree repo commit []) (rstrip s +:+ nl) = inl e ->
  let '(o, w') := process_challenge (inr (JObj f)) w in
  o = Raise (HTTPException 500 ("Failed to apply patch: " +:+ exn_str e)) /\
  mw_fs w' = <[p := NRepo (Tree repo commit [])]> (mw_fs w) /\ mw_lock w' = false.
Proof.
  intros Hdiff Happly. rewrite <- is_git_diff_normalized_raw in Hdiff.
  run_to_validation. rewrite Hdiff. mred.
  rewrite lookup_insert_eq, Happly. mred. done.
Qed.

End Valid.
End Run.

(** ** Theorems: the lock and the error surface *)

(** C15: Every exception that leaves the handler is an [HTTPException]:
    errors of the collaborators and of the body are turned into a 500
    ["Challenge processing error: ..."]. *)
Theorem process_challenge_raises_http r w e w' :
  process_challenge r w = (Raise e, w') -> is_http_exception e = true.
Proof.
  intros H. destruct (process_challenge_outcome r w) as [w0 Ho].
  rewrite H in Ho. destruct (py_try _ _ w0) as [o w1] eqn:E. simpl in Ho. subst o.
  by eapply try_handler_http.
Qed.

(** C6: Mutual exclusion: in every interleaving of the steps of any
    number of requests, the lock is held exactly when one task is inside
    the locked region, and never two tasks are. *)
Theorem codegen_mutual_exclusion w rs sched :
  mw_lock w = false -> lock_inv (run_schedule sched (w, TArriving <$> rs)).
Proof. intros Hl. apply run_schedule_lock_inv, lock_inv_arriving, Hl. Qed.

(** C18: No request starves: the scheduler that runs the first task able
    to move completes every request within three steps per request. *)
Theorem codegen_tasks_complete w rs :
  mw_lock w = false ->
  forall i t, (run_greedy (3 * length rs) (w, TArriving <$> rs)).2 !! i = Some t ->
  is_done t = true.
Proof.
  intros Hl. rewrite <- total_rank_arriving.
  apply run_greedy_done; [by apply lock_inv_arriving|done].
Qed.

(** ** Witnesses on a concrete miner *)

Definition demo_completion : string := "  " +:+ HELLO_WORLD_DIFF +:+ nl +:+ "  ".

Definition demo_services (chat : exn + option string) (apply : exn + unit) : services := {|
  sv_clone := fun _ _ => inr "/tmp/clone/repo";
  sv_chat := fun _ _ _ => chat;
  sv_apply := fun t p => match apply with
                         | inl e => inl e
                         | inr _ => inr (Tree (t_repository t) (t_commit t) (t_changes t ++ [p])%list)
                         end;
  sv_diff := fun t => String.concat "" (t_changes t);
  sv_swe := fun _ _ _ => SweTimeout;
  sv_uuid := fun _ => "0123456789abcdef";
  sv_tmpname := fun _ => "/tmp/tmpq1" |}.

Definition demo_world (sv : services) (env : gmap string string) : mworld :=
  MWorld sv env "/app" (<["/app" := NDir]> ∅) false 0 [] [].

Definition demo_env : gmap string string := <["OPENAI_API_KEY" := "sk-test"]> ∅.

Definition demo_ok : services := demo_services (inr (Some demo_completion)) (inr tt).

Definition demo_challenge : list (string * json) :=
  [("challenge_id", JStr "c1"); ("problem_statement", JStr "Add a hello world script");
   ("dynamic_checklist", JList [JStr "prints Hello World"]);
   ("repository_name", JStr "org/repo"); ("commit_hash", JStr "abc123")].

Definition demo_incomplete : list (string * json) :=
  [("challenge_id", JStr "c2"); ("problem_statement", JStr "Fix the parser")].

Definition demo_tree : tree := Tree (JStr "org/repo") (JStr "abc123") [].

Lemma process_challenge_incomplete_witness :
  let '(o, w') := process_challenge (inr (JObj demo_incomplete)) (demo_world demo_ok demo_env) in
  o = Raise (HTTPException 400 "Incomplete problem provided") /\
  mw_fs w' = mw_fs (demo_world demo_ok demo_env) /\ mw_lock w' = false /\
  mw_logs w' = (mw_logs (demo_world demo_ok demo_env) ++ codegen_logs_head demo_incomplete ++
                [(INFO, "Releasing miner lock...")])%list.
Proof. eapply process_challenge_incomplete; [reflexivity|reflexivity|right; reflexivity]. Defined.

Lemma process_challenge_no_api_key_witness :
  let '(o, w') := process_challenge (inr (JObj demo_challenge)) (demo_world demo_ok ∅) in
  o = Raise (HTTPException 500 "OpenAI API key not set in environment") /\
  mw_fs w' = mw_fs (demo_world demo_ok ∅) /\ mw_lock w' = false.
Proof. eapply process_challenge_no_api_key; try reflexivity. left; reflexivity. Defined.

Lemma process_challenge_success_witness :
  let '(o, w') := process_challenge (inr (JObj demo_challenge)) (demo_world demo_ok demo_env) in
  o = Ret (JObj [("challenge_id", JStr "c1");
                 ("patch", JStr (sv_diff demo_ok (Tree (JStr "org/repo") (JStr "abc123")
                                                   [rstrip demo_completion +:+ nl])))]) /\
  mw_fs w' = <["/tmp/clone/repo" := NRepo (Tree (JStr "org/repo") (JStr "abc123")
                                             [rstrip demo_completion +:+ nl])]>
               (mw_fs (demo_world demo_ok demo_env)) /\ mw_lock w' = false.
Proof.
  eapply process_challenge_success; try reflexivity. discriminate.
Defined.

Lemma process_challenge_rejects_non_diff_witness :
  let sv := demo_services (inr (Some "Sure! Here is the patch you asked for.")) (inr tt) in
  let '(o, w') := process_challenge (inr (JObj demo_challenge)) (demo_world sv demo_env) in
  o = Raise (HTTPException 500 "LLM did not return a valid git diff (patch).") /\
  mw_fs w' = <["/tmp/clone/repo" := NRepo demo_tree]> (mw_fs (demo_world sv demo_env)) /\
  mw_lock w' = false.
Proof. eapply process_challenge_rejects_non_diff; try reflexivity. discriminate. Defined.

Lemma process_challenge_apply_failure_witness :
  let sv := demo_services (inr (Some demo_completion)) (inl (Exception "error: corrupt patch at line 3")) in
  let '(o, w') := process_challenge (inr (JObj demo_challenge)) (demo_world sv demo_env) in
  o = Raise (HTTPException 500 ("Failed to apply patch: " +:+ exn_str (Exception "error: corrupt patch at line 3"))) /\
  mw_fs w' = <["/tmp/clone/repo" := NRepo demo_tree]> (mw_fs (demo_world sv demo_env)) /\
  mw_lock w' = false.
Proof. eapply process_challenge_apply_failure; try reflexivity. discriminate. Defined.

Lemma process_challenge_raises_http_witness :
  is_http_exception (HTTPException 400 "Incomplete problem provided") = true.
Proof.
  apply (process_challenge_raises_http (inr (JObj demo_incomplete)) (demo_world demo_ok demo_env) _
           (process_challenge (inr (JObj demo_incomplete)) (demo_world demo_ok demo_env)).2).
  vm_compute. reflexivity.
Defined.

Definition demo_requests : list request := [inr (JObj demo_challenge); inr (JObj demo_incomplete)].

Lemma codegen_mutual_exclusion_witness :
  lock_inv (run_schedule [0; 1; 0; 1; 0; 1] (demo_world demo_ok demo_env, TArriving <$> demo_requests)).
Proof. apply codegen_mutual_exclusion. reflexivity. Defined.

Lemma codegen_tasks_complete_witness :
  is_done (default (TArriving (inl TimeoutExpired))
             ((run_greedy 6 (demo_world demo_ok demo_env, TArriving <$> demo_requests)).2 !! 1%nat))
  = true.
Proof.
  apply (codegen_tasks_complete (demo_world demo_ok demo_env) demo_requests eq_refl 1).
  vm_compute. reflexivity.
Defined.

(** Two requests interleaved: the second waits while the first holds the
    lock, and both complete. *)
Example demo_interleaving :
  is_done <$> (run_schedule [0; 1; 0; 1; 0; 1; 1] (demo_world demo_ok demo_env, TArriving <$> demo_requests)).2
  = [true; true].
Proof. vm_compute. reflexivity. Qed.

End Codegen.
