(* ===== verification/CiRegression.v ===== *)
(** * CiRegression: the miner's CI-regression endpoint

    [src/miner/endpoints/ci_regression.py]: [process_ci_regression_challenge]
    clones the repository, copies the clone to a fresh directory under
    [repos/], writes a SWE-agent configuration naming that copy, runs the
    [sweagent] program on it with a timeout, and answers with the diff of
    a working tree.  The file system, the program and the random names are
    those of [MinerWorld]. *)

From S2P Require Import Prelude PyStr MinerWorld.

Module CiRegression.
Import PyStr MinerWorld.

(** The request model [GeneratedRegressionProblem]. *)
Record regression_problem := RegressionProblem {
  challenge_id : string;
  repository_url : string;
  commit_hash : option string;
  problem_statement : string;
  context_file_paths : option (list string)
}.

Definition opt_json (v : option string) : json :=
  match v with Some s => JStr s | None => JNull end.

(** [str(payload)]: pydantic prints [field=repr(value)] separated by
    spaces. *)
Definition payload_str (p : regression_problem) : string :=
  String.concat " "
    ["challenge_id=" +:+ repr_str (challenge_id p);
     "repository_url=" +:+ repr_str (repository_url p);
     "commit_hash=" +:+ py_repr (opt_json (commit_hash p));
     "problem_statement=" +:+ repr_str (problem_statement p);
     "context_file_paths=" +:+
       py_repr (match context_file_paths p with
                | Some l => JList (JStr <$> l)
                | None => JNull
                end)].

(** [str(lst)] of a list of names. *)
Definition names_str (l : list string) : string := py_repr (JList (JStr <$> l)).

(** Lines 67-90. *)
Definition swe_config (relative_repo_path problem : string) : json :=
  JObj [("agent", JObj [("model", JObj [("name", JStr "claude-3-7-sonnet-20250219");
                                        ("per_instance_cost_limit", JDec 300 2)])]);
        ("env", JObj [("repo", JObj [("path", JStr relative_repo_path)]);
                      ("deployment", JObj [("type", JStr "local")])]);
        ("problem_statement", JObj [("text", JStr problem)])].

(** Lines 97-113: run the program; a non-zero exit raises inside the
    [try], so the [except Exception] clause catches it as well. *)
Definition run_swe_step (swe_config_path : string) : py mworld unit :=
  py_try
    (result ← run_sweagent 1200 swe_config_path;
     let '(returncode, out, err) := result in
     print ["SWE-agent stdout:"; out];;
     print ["SWE-agent stderr:"; err];;
     (if negb (Z.eqb returncode 0)
      then py_raise (HTTPException 500 ("SWE-agent failed: " +:+ err))
      else py_ret tt))
    (fun e =>
       match e with
       | TimeoutExpired =>
           py_raise (HTTPException 500 "SWE-agent timed out (cost cap reached or infinite loop prevented)")
       | _ => py_raise (HTTPException 500 ("Error running SWE-agent: " +:+ exn_str e))
       end).

(** Lines 23-122. *)
Definition process_ci_regression_challenge (payload : regression_problem) : py mworld json :=
  print ["Received CI regression challenge: " +:+ payload_str payload];;
  repo_path ← clone_and_checkout_repo (JStr (repository_url payload)) (opt_json (commit_hash payload));
  print ["Cloned repository to: " +:+ repo_path];;
  cwd ← getcwd;
  let repos_dir := path_join cwd "repos" in
  makedirs repos_dir;;
  u ← uuid4;
  let unique_id := String.substring 0 8 u in
  let repo_name := basename repo_path +:+ "_" +:+ unique_id in
  let target_path := path_join repos_dir repo_name in
  target_exists ← path_exists target_path;
  py_when target_exists (rmtree target_path);;
  copytree repo_path target_path;;
  let possible_root_target := "/" +:+ repo_name in
  root_exists ← path_exists possible_root_target;
  py_when root_exists (rmtree possible_root_target);;
  cwd1 ← getcwd;
  let relative_repo_path := relpath target_path cwd1 in
  print ["repo_path:"; repo_path];;
  print ["repo_name:"; repo_name];;
  print ["target_path:"; target_path];;
  print ["relative_repo_path:"; relative_repo_path];;
  cwd2 ← getcwd;
  print ["Current working directory:"; cwd2];;
  cwd3 ← getcwd;
  names ← listdir cwd3;
  print ["Contents of working directory:"; names_str names];;
  names2 ← listdir repos_dir;
  print ["Contents of repos directory:"; names_str names2];;
  anthropic_api_key ← getenv "ANTHROPIC_API_KEY";
  (if negb (opt_truthy anthropic_api_key)
   then py_raise (HTTPException 500 "Anthropic API key not set in environment")
   else py_ret tt);;
  swe_config_path ← write_temp_yaml ".yaml" (swe_config relative_repo_path (problem_statement payload));
  print ["Generated SWE-agent config at: " +:+ swe_config_path];;
  run_swe_step swe_config_path;;
  patch ← generate_patch repo_path;
  py_ret (JObj [("challenge_id", JStr (challenge_id payload)); ("patch", JStr patch)]).

(** The router (mounted under [/ci_regression] by [main.py]). *)
Definition ci_regression_routes : list (string * string) := [("POST", "/challenge")].

(** ** Lemmas *)

Lemma config_repo_path_swe_config rel ps : config_repo_path (swe_config rel ps) = Some rel.
Proof. reflexivity. Qed.

(** One step of a symbolic run: resolve the lookups of freshly written
    paths, then split on the first test whose subject is not itself a
    test, and drop the branches that raise. *)
Ltac ci_step :=
  rewrite ?lookup_insert_eq, ?config_repo_path_swe_config; mred;
  match goal with
  | |- context [match ?x with _ => _ end] =>
      lazymatch x with
      | match _ with _ => _ end => fail
      | (_, _) => fail
      | (match _ with _ => _ end) _ => fail
      | _ => destruct x eqn:?
      end
  end; mred; try (intros [=]; fail).

(** Close a successful branch: the tree the answer is computed from is the
    one the clone wrote, since no later write touches the clone's path. *)
Ltac ci_finish :=
  intros [= <- _]; subst;
  match goal with
  | |- context [sv_diff _ ?t] =>
    match goal with H : _ !! _ = Some (NRepo t) |- _ =>
      cbn [mw_sv mw_env mw_cwd mw_fs mw_lock mw_draws mw_logs mw_stdout
           add_mlog add_stdout set_fs set_lock next_draw] in H;
      repeat first [rewrite lookup_insert_ne in H by done
                   | rewrite lookup_rmtree_other in H by done
                   | rewrite lookup_copytree_other in H by done];
      rewrite ?lookup_insert in H; repeat case_decide; simplify_eq; done
    end
  end.

(** The working copy the handler creates for a clone at [rp]. *)
Definition copy_name (w : mworld) (rp : string) : string :=
  basename rp +:+ "_" +:+ String.substring 0 8 (sv_uuid (mw_sv w) (mw_draws w)).

Definition copy_path (w : mworld) (rp : string) : string :=
  path_join (path_join (mw_cwd w) "repos") (copy_name w rp).

(** The relative path of line 89, resolved against the working
    directory, is the copy's path of line 81 (a round trip of
    [os.path.relpath] and [os.path.join] on normalised paths). *)
Lemma copy_path_round_trip w rp ps :
  mw_cwd w = mk_path ps -> Forall (fun p => good_part p = true) ps ->
  good_part (copy_name w rp) = true ->
  path_join (mw_cwd w) (relpath (copy_path w rp) (mw_cwd w)) = copy_path w rp.
Proof.
  intros Hc Hps Hn.
  assert (Hall : Forall (fun p => good_part p = true) ((ps ++ ["repos"]) ++ [copy_name w rp])%list)
    by (rewrite !Forall_app, !Forall_singleton; auto).
  assert (Hcopy : copy_path w rp = mk_path (ps ++ ["repos"; copy_name w rp])).
  { unfold copy_path. rewrite Hc.
    assert (H1 : path_join (mk_path ps) "repos" = mk_path (ps ++ ["repos"]))
      by (apply (path_join_below ps ["repos"]); [apply Forall_app in Hall as [? _]|]; done).
    assert (H2 : path_join (mk_path (ps ++ ["repos"])) (copy_name w rp) =
                 mk_path ((ps ++ ["repos"]) ++ [copy_name w rp]))
      by (apply (path_join_below (ps ++ ["repos"]) [copy_name w rp]); done).
    by rewrite H1, H2, <- app_assoc. }
  rewrite Hcopy, Hc. apply path_join_relpath; [by rewrite <- app_assoc in Hall|done].
Qed.

(** C5: The answer ignores the agent.  Whenever the handler answers, the
    patch is the diff of the pristine clone, whatever the SWE-agent did:
    the agent works on the copy under [repos/] (line 81), while line 116
    diffs the clone [repo_path].  The side conditions say that none of
    the scratch paths the handler writes (the copy, [/<repo_name>], the
    configuration file, the agent's directory) is the clone's path. *)
Theorem ci_answer_ignores_agent payload w rp resp w' :
  sv_clone (mw_sv w) (JStr (repository_url payload)) (opt_json (commit_hash payload)) = inr rp ->
  under (copy_path w rp) rp = false ->
  under ("/" +:+ copy_name w rp) rp = false ->
  sv_tmpname (mw_sv w) (S (mw_draws w)) +:+ ".yaml" <> rp ->
  path_join (mw_cwd w) (relpath (copy_path w rp) (mw_cwd w)) <> rp ->
  process_ci_regression_challenge payload w = (Ret resp, w') ->
  resp = JObj [("challenge_id", JStr (challenge_id payload));
               ("patch", JStr (sv_diff (mw_sv w)
                                 (Tree (JStr (repository_url payload)) (opt_json (commit_hash payload)) [])))].
Proof.
  unfold copy_path, copy_name. intros Hclone Ht Hr Htmp Hagent.
  unfold process_ci_regression_challenge, run_swe_step, print, clone_and_checkout_repo, getcwd,
    makedirs, uuid4, path_exists, rmtree, copytree, listdir, getenv, write_temp_yaml,
    run_sweagent, generate_patch.
  miner_unfold. mred. rewrite Hclone. mred.
  repeat ci_step.
  all: ci_finish.
Qed.

(** C29: The agent is pointed at the copy.  Whenever the handler
    answers, the SWE-agent was run with the configuration the handler
    wrote (line 103), and the repository path in it (the relative path
    of line 89), resolved against the working directory as the agent
    resolves it, is the copy made on line 81: a round trip of
    [os.path.relpath] and [os.path.join] through the handler's own run. *)
Theorem ci_config_names_copy payload w rp ps resp w' :
  sv_clone (mw_sv w) (JStr (repository_url payload)) (opt_json (commit_hash payload)) = inr rp ->
  mw_cwd w = mk_path ps -> Forall (fun p => good_part p = true) ps ->
  good_part (copy_name w rp) = true ->
  process_ci_regression_challenge payload w = (Ret resp, w') ->
  exists cfg cur rc out err t,
    sv_swe (mw_sv w) 1200 cfg cur = SweExit rc out err t /\
    path_join (mw_cwd w) (default "" (config_repo_path cfg)) = copy_path w rp.
Proof.
  intros Hclone Hc Hps Hn. pose proof (copy_path_round_trip w rp ps Hc Hps Hn) as Hrt.
  unfold copy_path, copy_name in *.
  unfold process_ci_regression_challenge, run_swe_step, print, clone_and_checkout_repo, getcwd,
    makedirs, uuid4, path_exists, rmtree, copytree, listdir, getenv, write_temp_yaml,
    run_sweagent, generate_patch.
  miner_unfold. mred. rewrite Hclone. mred.
  repeat ci_step.
  all: intros _; do 6 eexists; split; [eassumption|exact Hrt].
Qed.

Lemma pretty_500 : pretty (500%Z) = "500".
Proof. reflexivity. Qed.

(** C7: A failing agent run is reported twice wrapped: the
    [HTTPException] raised for a non-zero exit inside the [try] is caught
    by [except Exception] and re-raised as ["Error running SWE-agent: 500:
    SWE-agent failed: <stderr>"]. *)
Theorem run_swe_step_nonzero_exit cfg_path w rc out err t :
  (forall cfg cur, sv_swe (mw_sv w) 1200 cfg cur = SweExit rc out err t) -> rc <> 0%Z ->
  (run_swe_step cfg_path w).1 =
  Raise (HTTPException 500 ("Error running SWE-agent: 500: SWE-agent failed: " +:+ err)).
Proof.
  intros Hswe Hrc. unfold run_swe_step, run_sweagent, print. miner_unfold. mred.
  rewrite Hswe. mred. rewrite (proj2 (Z.eqb_neq rc 0) Hrc). mred.
  destruct (match mw_fs w !! _ with Some (NRepo _) => _ | _ => _ end); mred;
    unfold exn_str; by rewrite pretty_500, <- append_assoc.
Qed.

(** C23: The agent's other failures: a run past the 1200 s timeout is a
    500 ["SWE-agent timed out ..."]; a program that cannot start with
    [e] is a 500 ["Error running SWE-agent: " + str(e)]; a zero exit
    lets the handler go on. *)
Theorem run_swe_step_outcomes cfg_path w :
  ((forall cfg cur, sv_swe (mw_sv w) 1200 cfg cur = SweTimeout) ->
   (run_swe_step cfg_path w).1 =
   Raise (HTTPException 500 "SWE-agent timed out (cost cap reached or infinite loop prevented)")) /\
  (forall e, e <> TimeoutExpired -> (forall cfg cur, sv_swe (mw_sv w) 1200 cfg cur = SweCrash e) ->
   (run_swe_step cfg_path w).1 = Raise (HTTPException 500 ("Error running SWE-agent: " +:+ exn_str e))) /\
  (forall out err t, (forall cfg cur, sv_swe (mw_sv w) 1200 cfg cur = SweExit 0 out err t) ->
   (run_swe_step cfg_path w).1 = Ret tt).
Proof.
  unfold run_swe_step, run_sweagent, print. miner_unfold. mred.
  split_and!.
  - intros Hswe. rewrite Hswe. by mred.
  - intros e He Hswe. rewrite Hswe. mred. by destruct e.
  - intros out err t Hswe. rewrite Hswe. mred.
    by destruct (match mw_fs w !! _ with Some (NRepo _) => _ | _ => _ end).
Qed.

(** ** Witnesses on a concrete miner *)

(** The agent fixes the copy it is given; it exits with [rc]. *)
Definition demo_ci_services (swe : option tree -> swe_outcome) : services := {|
  sv_clone := fun _ _ => inr "/tmp/clone/repo";
  sv_chat := fun _ _ _ => inr None;
  sv_apply := fun t _ => inr t;
  sv_diff := fun t => String.concat "" (t_changes t);
  sv_swe := fun _ _ cur => swe cur;
  sv_uuid := fun _ => "9f1c2d3e-4b5a-6978-8899-aabbccddeeff";
  sv_tmpname := fun _ => "/tmp/tmpk2" |}.

Definition agent_fix (rc : Z) (cur : option tree) : swe_outcome :=
  match cur with
  | Some t => SweExit rc "done" "" (Tree (t_repository t) (t_commit t) ["fix.patch"])
  | None => SweExit 1 "" "no repository" (Tree JNull JNull [])
  end.

Definition demo_ci_world (swe : option tree -> swe_outcome) : mworld :=
  MWorld (demo_ci_services swe) (<["ANTHROPIC_API_KEY" := "sk-ant"]> ∅) "/app"
    (<["/app" := NDir]> ∅) false 0 [] [].

Definition demo_payload : regression_problem :=
  RegressionProblem "r1" "https://example.org/repo.git" None "Fix the failing test" None.

Lemma ci_answer_ignores_agent_witness :
  JObj [("challenge_id", JStr "r1"); ("patch", JStr "")] =
  JObj [("challenge_id", JStr (challenge_id demo_payload));
        ("patch", JStr (sv_diff (mw_sv (demo_ci_world (agent_fix 0)))
                          (Tree (JStr (repository_url demo_payload)) (opt_json (commit_hash demo_payload)) [])))].
Proof.
  apply (ci_answer_ignores_agent demo_payload (demo_ci_world (agent_fix 0)) "/tmp/clone/repo" _
           (process_ci_regression_challenge demo_payload (demo_ci_world (agent_fix 0))).2);
    try (vm_compute; reflexivity); vm_compute; discriminate.
Defined.

Lemma ci_config_names_copy_witness :
  (exists cfg cur rc out err t,
     sv_swe (mw_sv (demo_ci_world (agent_fix 0))) 1200 cfg cur = SweExit rc out err t /\
     path_join (mw_cwd (demo_ci_world (agent_fix 0))) (default "" (config_repo_path cfg)) =
       copy_path (demo_ci_world (agent_fix 0)) "/tmp/clone/repo") /\
  copy_path (demo_ci_world (agent_fix 0)) "/tmp/clone/repo" = "/app/repos/repo_9f1c2d3e".
Proof.
  split; [|reflexivity].
  apply (ci_config_names_copy demo_payload (demo_ci_world (agent_fix 0)) "/tmp/clone/repo" ["app"]
           (JObj [("challenge_id", JStr "r1"); ("patch", JStr "")]) (process_ci_regression_challenge demo_payload (demo_ci_world (agent_fix 0))).2);
    [reflexivity|reflexivity|repeat constructor|reflexivity|vm_compute; reflexivity].
Defined.

(** The agent's fix is on disk, in the copy, and not in the answer. *)
Example demo_fix_left_in_copy :
  let '(o, w') := process_ci_regression_challenge demo_payload (demo_ci_world (agent_fix 0)) in
  o = Ret (JObj [("challenge_id", JStr "r1"); ("patch", JStr "")]) /\
  mw_fs w' !! "/app/repos/repo_9f1c2d3e" =
    Some (NRepo (Tree (JStr "https://example.org/repo.git") JNull ["fix.patch"])).
Proof. vm_compute. split; reflexivity. Qed.

Lemma run_swe_step_nonzero_exit_witness :
  (run_swe_step "/tmp/tmpk2.yaml" (demo_ci_world (fun _ => SweExit 2 "" "Traceback: config error" (Tree JNull JNull [])))).1 =
  Raise (HTTPException 500 ("Error running SWE-agent: 500: SWE-agent failed: " +:+ "Traceback: config error")).
Proof. apply (run_swe_step_nonzero_exit _ _ 2 "" _ (Tree JNull JNull [])); [reflexivity|lia]. Defined.

Lemma run_swe_step_outcomes_witness :
  (run_swe_step "/tmp/tmpk2.yaml" (demo_ci_world (fun _ => SweTimeout))).1 =
  Raise (HTTPException 500 "SWE-agent timed out (cost cap reached or infinite loop prevented)").
Proof. apply (run_swe_step_outcomes "/tmp/tmpk2.yaml" (demo_ci_world (fun _ => SweTimeout))). reflexivity. Defined.

End CiRegression.
