(* ===== verification/MinerApp.v ===== *)
(** * MinerApp: the miner's FastAPI application ([src/miner/main.py])

    The application mounts the code-generation router under [/codegen]
    and the CI-regression router under [/ci_regression]; the availability
    router of [miner.endpoints.availability] is not code of the
    repository and is left out.  A request is resolved to the handler of
    the first route with its method and path. *)

From S2P Require Import Prelude PyStr MinerWorld Codegen CiRegression.

Module MinerApp.
Import MinerWorld.

Inductive endpoint := EpCodegen | EpCiRegression.

#[export] Instance endpoint_eq_dec : EqDecision endpoint.
Proof. solve_decision. Defined.

(** [app.include_router(router, prefix=...)] *)
Definition include_router (prefix : string) (routes : list (string * string)) (ep : endpoint)
    : list (string * string * endpoint) :=
  (fun '(m, p) => (m, prefix +:+ p, ep)) <$> routes.

Definition app_routes : list (string * string * endpoint) :=
  (include_router "/codegen" Codegen.codegen_routes EpCodegen ++
   include_router "/ci_regression" CiRegression.ci_regression_routes EpCiRegression)%list.

Definition resolve (method path : string) : option endpoint :=
  snd <$> List.find (fun '(m, p, _) => String.eqb m method && String.eqb p path) app_routes.

(** The body of a request, as each handler receives it. *)
Inductive miner_request :=
| CodegenRequest (r : Codegen.request)
| CiRegressionRequest (p : CiRegression.regression_problem).

(** Serve one request: [None] when no route matches (FastAPI's 404) or
    the body does not fit the route (FastAPI's 422). *)
Definition serve (method path : string) (req : miner_request) : option (py mworld json) :=
  match resolve method path, req with
  | Some EpCodegen, CodegenRequest r => Some (Codegen.process_challenge r)
  | Some EpCiRegression, CiRegressionRequest p => Some (CiRegression.process_ci_regression_challenge p)
  | _, _ => None
  end.

(** The two challenge endpoints are reachable at the paths the
    validators post to, and the routes are distinct. *)
Theorem miner_routes_resolve :
  resolve "POST" "/codegen/challenge" = Some EpCodegen /\
  resolve "POST" "/ci_regression/challenge" = Some EpCiRegression /\
  NoDup ((fun '(m, p, _) => (m, p)) <$> app_routes).
Proof.
  split_and!; [reflexivity|reflexivity|].
  vm_compute. repeat constructor; set_solver.
Qed.

End MinerApp.
